(** * Checkpointed, rate-limit-aware collection loop

    A shallow embedding of [Extraction/trends_scrapper_2023.py]: the progress
    tracker [get_completed_cities], the unit fetcher [fetch_city_trends] and
    the module-level run driver ([main]).  The script talks to three outside
    parties: the checkpoint file, the trends service and the clock.  The
    checkpoint file and the log of effects form the [world] that is threaded
    through every call; the trends service is an [environment] that answers
    from the history of effects so far.

    The script is embedded twice.  The first embedding reads the target year
    as a calendar year and takes every write to the checkpoint to succeed;
    it is the script for the years 1678 to 2261 on a disk that does not
    fail.  The second one, [Full], adds what the date parser makes of the
    other years and the ways in which a write may raise. *)

From Stdlib Require Import ZArith QArith Qcanon Lia.
From stdpp Require Import base option list gmap strings.

Local Open Scope string_scope.
Local Open Scope list_scope.
Local Open Scope Z_scope.

(** ** Calendar

    A date is a proleptic Gregorian ordinal: day 1 is 0001-01-01, a Monday.
    The bounds of the library's timestamp type are not part of the
    calendar; [Full.pd_date_range] has them. *)

Module Calendar.

Definition date := Z.

Definition is_leap (y : Z) : bool :=
  (y mod 4 =? 0) && (negb (y mod 100 =? 0) || (y mod 400 =? 0)).

Definition days_before_year (y : Z) : Z :=
  let p := y - 1 in 365 * p + p / 4 - p / 100 + p / 400.

Definition days_in_month (y m : Z) : Z :=
  if m =? 2 then (if is_leap y then 29 else 28)
  else if (m =? 4) || (m =? 6) || (m =? 9) || (m =? 11) then 30
  else 31.

Fixpoint days_before_month_aux (y : Z) (k : nat) : Z :=
  match k with
  | O => 0
  | S k' => days_before_month_aux y k' + days_in_month y (Z.of_nat k)
  end.

(** Days of year [y] that precede the first day of month [m]. *)
Definition days_before_month (y m : Z) : Z :=
  days_before_month_aux y (Z.to_nat (m - 1)).

Definition ymd_to_ordinal (y m d : Z) : date :=
  days_before_year y + days_before_month y m + d.

(** ISO weekday, Monday = 1 ... Sunday = 7. *)
Definition iso_weekday (d : date) : Z := (d - 1) mod 7 + 1.

(** The year a date falls in, as a relation (used on the specification
    side only). *)
Definition in_year (y : Z) (d : date) : Prop :=
  days_before_year y < d <= days_before_year (y + 1).

(** [pd.date_range(start, end, freq='W-SUN')]: the first Sunday on or after
    [start], then every seventh day while not after [end]. *)
Definition first_sunday_from (start : date) : date := start + (- start) mod 7.

Definition date_range_W_SUN (start stop : date) : list date :=
  let first := first_sunday_from start in
  if first <=? stop
  then map (fun k => first + 7 * Z.of_nat k) (seq 0 (Z.to_nat ((stop - first) / 7 + 1)))
  else [].

End Calendar.

Import Calendar.

(** ** Values, frames and the checkpoint file *)

(** The module constant [YEAR] is bound to a tuple in the source, while
    [fetch_city_trends] formats its [year] argument into date strings; both
    shapes of the value are kept. *)
Inductive year_value :=
| YearInt (y : Z)
| YearTuple (ys : list Z).

Inductive exn :=
| EmptyDataError (msg : string)
| ParserError (msg : string)
| Error (msg : string).

(** [str(e)] *)
Definition str (e : exn) : string :=
  match e with
  | EmptyDataError m | ParserError m | Error m => m
  end.

(** [needle in hay] on Python strings. *)
Fixpoint contains (needle hay : string) : bool :=
  String.prefix needle hay ||
  match hay with
  | EmptyString => false
  | String _ hay' => contains needle hay'
  end.

(** One row of the three-column frame the fetcher builds. *)
Record observation := Observation {
  date_of : date;
  search_term : string;
  search_count : Z
}.

(** One row of [usa_cities.csv]. *)
Record city := City {
  geo_code : string;
  location_name : string;
  country : string;
  state_province : string;
  latitude : Qc;
  longitude : Qc
}.

(** A cell of the checkpoint table. *)
Inductive cell :=
| CStr (s : string)
| CInt (z : Z)
| CNum (q : Qc)
| CDate (d : date).

#[global] Instance cell_eq_dec : EqDecision cell.
Proof. solve_decision. Defined.

#[global] Instance cell_countable : Countable cell.
Proof.
  refine (inj_countable'
    (fun c => match c with
              | CStr s => inl s
              | CInt z => inr (inl z)
              | CNum q => inr (inr (inl q))
              | CDate d => inr (inr (inr d))
              end)
    (fun x => match x with
              | inl s => CStr s
              | inr (inl z) => CInt z
              | inr (inr (inl q)) => CNum q
              | inr (inr (inr d)) => CDate d
              end) _).
  by intros [].
Defined.

Definition line := list cell.

(** The checkpoint file, classified by what [pd.read_csv] makes of it:
    a file of zero bytes, a file the parser rejects, or delimited text with
    a first line and the lines after it.  Lines of differing width are not
    distinguished. *)
Inductive file :=
| Blank
| Garbled (msg : string)
| Lines (first : line) (rest : list line).

(** What one query to the trends service comes back with:
    [interest_over_time()] as (week, value) rows, empty when there are no
    rows, or an exception raised by [build_payload]/[interest_over_time]. *)
Inductive response :=
| Frame (rows : list (date * Z))
| Failure (msg : string).

(** ** Effects *)

Inductive event :=
| EvSession                                        (* TrendReq(...) *)
| EvSleepUniform (lo hi : nat)                     (* time.sleep(random.uniform(lo, hi)) *)
| EvSleep (secs : nat)                             (* time.sleep(secs) *)
| EvQuery (term geo : string) (year : year_value)  (* build_payload + interest_over_time *)
| EvToCsv (rows : nat) (header : bool).            (* DataFrame.to_csv(mode='a') *)

Record world := World {
  fs : option file;          (* OUTPUT_FILE; [None] when it does not exist *)
  effects : list event       (* oldest first *)
}.

(** The outside world answers from the history of effects. *)
Record environment := Environment {
  trend_req : list event -> option string;
  interest_over_time : list event -> string -> string -> year_value -> response
}.

Inductive result (A : Type) :=
| Ok (a : A)
| Raise (e : exn).
Arguments Ok {A} a.
Arguments Raise {A} e.

Definition M (A : Type) : Type := world -> result A * world.

Definition ret {A} (a : A) : M A := fun w => (Ok a, w).
Definition raise {A} (e : exn) : M A := fun w => (Raise e, w).
Definition bind {A B} (m : M A) (k : A -> M B) : M B :=
  fun w => match m w with
           | (Ok a, w') => k a w'
           | (Raise e, w') => (Raise e, w')
           end.
(** [try: m  except Exception as e: ...] hands the outcome to the caller. *)
Definition try_ {A} (m : M A) : M (result A) :=
  fun w => let '(r, w') := m w in (Ok r, w').

Notation "x <- m ;; k" := (bind m (fun x => k))
  (at level 100, m at next level, right associativity).
Notation "m ;;; k" := (bind m (fun _ => k))
  (at level 100, right associativity).

(** The world once [evs] have happened, the file untouched. *)
Definition after (w : world) (evs : list event) : world :=
  World (fs w) (effects w ++ evs).

Definition emit (e : event) : M unit :=
  fun w => (Ok tt, after w [e]).

(** ** The outside world, as the script calls it *)

Section Scraper.

Variable env : environment.

(** [TrendReq(hl='en-US', tz=360, timeout=(10,25))]: opening the session
    reaches the network and may raise. *)
Definition TrendReq : M unit :=
  fun w =>
    let w' := after w [EvSession] in
    match trend_req env (effects w) with
    | Some msg => (Raise (Error msg), w')
    | None => (Ok tt, w')
    end.

Definition sleep_uniform (lo hi : nat) : M unit := emit (EvSleepUniform lo hi).
Definition sleep (secs : nat) : M unit := emit (EvSleep secs).

(** [pytrends.build_payload([term], cat=0, timeframe=timeframe, geo=geo_code)]
    followed by [pytrends.interest_over_time()]. *)
Definition query (term geo : string) (year : year_value) : M (list (date * Z)) :=
  fun w =>
    let w' := after w [EvQuery term geo year] in
    match interest_over_time env (effects w) term geo year with
    | Frame rows => (Ok rows, w')
    | Failure msg => (Raise (Error msg), w')
    end.

(** [pd.date_range(start=f'{year}-01-01', end=f'{year}-12-31', freq='W-SUN')]
    with the year read as the calendar year [y], as the library reads the
    years 1678 to 2261; for the other years see [Full.pd_date_range].  A
    tuple formats to text that is no date. *)
Definition pd_date_range (year : year_value) : M (list date) :=
  match year with
  | YearInt y => ret (date_range_W_SUN (ymd_to_ordinal y 1 1) (ymd_to_ordinal y 12 31))
  | YearTuple _ => raise (Error "Unknown datetime string format, unable to parse")
  end.

(** ** The unit fetcher *)

(** The body of the [try] block for one attempt at one keyword. *)
Definition attempt (geo_code term : string) (year : year_value)
    (date_range : list date) : M (list observation) :=
  sleep_uniform 15 30 ;;;
  data <- query term geo_code year ;;
  match data with
  | [] => ret (map (fun d => Observation d term 0) date_range)
  | _ :: _ => ret (map (fun r => Observation (fst r) term (snd r)) data)
  end.

(** How the [while] loop over attempts is left. *)
Inductive keyword_exit :=
| Appended (data : list observation)   (* all_data.append(data); break *)
| Skipped                              (* break from the handler, or the loop test failed *)
| OutOfFuel.                           (* the bound on iterations was too small *)

(** [while retry_count < max_retries: ...].  [fuel] bounds the number of
    iterations; [max_retries - retry_count] of it is enough, since every
    iteration that does not leave the loop adds one to [retry_count].
    Counts are natural numbers. *)
Fixpoint retry_loop (fuel : nat) (geo_code term : string) (year : year_value)
    (date_range : list date) (max_retries retry_count : nat) : M keyword_exit :=
  match fuel with
  | O => ret (if (retry_count <? max_retries)%nat then OutOfFuel else Skipped)
  | S fuel' =>
    if (retry_count <? max_retries)%nat then
      r <- try_ (attempt geo_code term year date_range) ;;
      match r with
      | Ok data => ret (Appended data)
      | Raise e =>
        if contains "429" (str e) then
          let retry_count := S retry_count in
          if (retry_count <? max_retries)%nat then
            let wait_time := (2 ^ retry_count * 60)%nat in
            sleep wait_time ;;;
            retry_loop fuel' geo_code term year date_range max_retries retry_count
          else ret Skipped
        else
          sleep 5 ;;; ret Skipped
      end
    else ret Skipped
  end.

(** The [for term in keywords] loop; [all_data] is the list being
    appended to. *)
Fixpoint for_terms (geo_code : string) (year : year_value) (date_range : list date)
    (max_retries : nat) (keywords : list string)
    (all_data : list (list observation)) : M (list (list observation)) :=
  match keywords with
  | [] => ret all_data
  | term :: keywords' =>
    r <- retry_loop max_retries geo_code term year date_range max_retries 0 ;;
    match r with
    | Appended data =>
      for_terms geo_code year date_range max_retries keywords' (all_data ++ [data])
    | Skipped =>
      for_terms geo_code year date_range max_retries keywords' all_data
    | OutOfFuel => raise (Error "retry loop did not finish")
    end
  end.

Definition fetch_city_trends (geo_code : string) (keywords : list string)
    (year : year_value) (max_retries : nat) : M (list observation) :=
  TrendReq ;;;
  date_range <- pd_date_range year ;;
  all_data <- for_terms geo_code year date_range max_retries keywords [] ;;
  match all_data with
  | [] => ret []
  | _ :: _ => ret (concat all_data)
  end.

(** ** The progress tracker *)

(** [pd.read_csv(OUTPUT_FILE)]: the first line gives the column labels. *)
Definition read_csv (f : file) : result (line * list line) :=
  match f with
  | Blank => Raise (EmptyDataError "No columns to parse from file")
  | Garbled msg => Raise (ParserError msg)
  | Lines first rest => Ok (first, rest)
  end.

(** Numbers and dates print as digits and punctuation, so only a text cell
    can spell a label. *)
Definition is_label (name : string) (c : cell) : bool :=
  match c with
  | CStr s => String.eqb s name
  | _ => false
  end.

(** Position of the first column labelled [name]. *)
Fixpoint column_index (name : string) (columns : line) : option nat :=
  match columns with
  | [] => None
  | c :: columns' =>
    if is_label name c then Some O else S <$> column_index name columns'
  end.

(** [df[name]] for a column at position [i]: one value per row that has
    one.  The rows the driver writes all have one; a shorter row, for which
    the library reads a missing value, is left out. *)
Definition column (i : nat) (rows : list line) : list cell :=
  omap (fun r : line => r !! i) rows.

Definition get_completed_cities : M (gset cell) :=
  fun w =>
    match fs w with
    | None => (Ok ∅, w)
    | Some f =>
      match read_csv f with
      | Ok (columns, rows) =>
        match column_index "geo_code" columns with
        | Some i => (Ok (list_to_set (column i rows)), w)
        | None => (Ok ∅, w)
        end
      | Raise (EmptyDataError _) => (Ok ∅, w)
      | Raise e => (Raise e, w)
      end
    end.

(** ** The run driver *)

Record config := Config {
  YEAR : year_value;
  SEARCH_TERMS : list string;
  MAX_CITIES_PER_RUN : nat
}.

(** The configuration as the source has it. *)
Definition shipped : config :=
  Config (YearTuple [2021; 2022; 2023; 2024])
         ["Fishing"; "Bass Fishing"; "Trout Fishing"; "Fly Fishing"; "Ice Fishing"]
         50.

(** The default of [fetch_city_trends]' last parameter; the driver never
    overrides it. *)
Definition default_max_retries : nat := 3.

Definition cols : line :=
  [CStr "date"; CStr "latitude"; CStr "longitude"; CStr "country"; CStr "state";
   CStr "search_count"; CStr "location"; CStr "geo_code"; CStr "search_term";
   CStr "year"].

(** [df_trends['year'] = YEAR]: a scalar is broadcast, a sequence must have
    one value per row. *)
Definition year_column (year : year_value) (n : nat) : M (list cell) :=
  match year with
  | YearInt y => ret (replicate n (CInt y))
  | YearTuple ys =>
    if (length ys =? n)%nat then ret (map CInt ys)
    else raise (Error "Length of values does not match length of index")
  end.

(** The metadata columns are attached and the columns put in the order of
    [cols]. *)
Definition attach (row : city) (o : observation) (year : cell) : line :=
  [CDate (date_of o); CNum (latitude row); CNum (longitude row);
   CStr (country row); CStr (state_province row); CInt (search_count o);
   CStr (location_name row); CStr (geo_code row); CStr (search_term o); year].

Definition os_path_exists : M bool :=
  fun w => (Ok (bool_decide (is_Some (fs w))), w).

(** Text appended to a file, line by line; a file that does not exist is
    created.  The file is taken to end with a line terminator, as the
    driver leaves it. *)
Definition append_lines (new : list line) (f : option file) : option file :=
  match f, new with
  | None, [] => Some Blank
  | None, l :: ls => Some (Lines l ls)
  | Some Blank, [] => Some Blank
  | Some Blank, l :: ls => Some (Lines l ls)
  | Some (Garbled msg), _ => Some (Garbled msg)
  | Some (Lines first rest), _ => Some (Lines first (rest ++ new))
  end.

(** [df.to_csv(OUTPUT_FILE, mode='a', header=header, index=False)]; the
    write itself is taken to succeed.  [Full.to_csv] is the call on a disk
    that may fail. *)
Definition to_csv (rows : list line) (header : bool) : M unit :=
  fun w =>
    (Ok tt,
     World (append_lines ((if header then [cols] else []) ++ rows) (fs w))
           (effects w ++ [EvToCsv (length rows) header])).

(** What happened to one city, as the log reports it. *)
Inductive city_outcome :=
| Saved (rows : nat)              (* "Successfully saved ... rows" *)
| NoData                          (* "No data retrieved" *)
| CriticalFailure (e : exn).      (* "CRITICAL FAILURE" *)

(** The body of the [try] block of the main loop: the number of rows saved,
    or [None] when nothing was retrieved. *)
Definition process_city (cfg : config) (row : city) : M (option nat) :=
  df_trends <- fetch_city_trends (geo_code row) (SEARCH_TERMS cfg) (YEAR cfg)
                 default_max_retries ;;
  outcome <-
    match df_trends with
    | _ :: _ =>
      years <- year_column (YEAR cfg) (length df_trends) ;;
      let df_trends := zip_with (attach row) df_trends years in
      write_header <- (e <- os_path_exists ;; ret (negb e)) ;;
      to_csv df_trends write_header ;;;
      ret (Some (length df_trends))
    | [] => ret None
    end ;;
  sleep_uniform 30 60 ;;;
  ret outcome.

Record tally := Tally {
  successful_cities : nat;
  failed_cities : nat;
  outcomes : list (city * city_outcome)
}.

(** [for index, row in cities_to_process.iterrows()], with its [break]. *)
Fixpoint main_loop (cfg : config) (cities : list city) (t : tally) : M tally :=
  match cities with
  | [] => ret t
  | row :: cities' =>
    r <- try_ (process_city cfg row) ;;
    match r with
    | Ok (Some n) =>
      main_loop cfg cities'
        (Tally (S (successful_cities t)) (failed_cities t)
               (outcomes t ++ [(row, Saved n)]))
    | Ok None =>
      main_loop cfg cities'
        (Tally (successful_cities t) (S (failed_cities t))
               (outcomes t ++ [(row, NoData)]))
    | Raise e =>
      ret (Tally (successful_cities t) (S (failed_cities t))
                 (outcomes t ++ [(row, CriticalFailure e)]))
    end
  end.

(** [df_cities[~df_cities['geo_code'].isin(completed_geos)]] *)
Definition remaining_cities (df_cities : list city) (completed_geos : gset cell)
    : list city :=
  filter (fun c => CStr (geo_code c) ∉ completed_geos) df_cities.

(** [.head(MAX_CITIES_PER_RUN)] *)
Definition head {A} (n : nat) (l : list A) : list A := take n l.

Definition cities_to_process (cfg : config) (df_cities : list city)
    (completed_geos : gset cell) : list city :=
  head (MAX_CITIES_PER_RUN cfg) (remaining_cities df_cities completed_geos).

Record summary := Summary {
  run : tally;
  completed_so_far : nat;
  remaining : Z
}.

(** The module body from "4. MAIN LOOP" on, once [completed_geos] is
    known. *)
Definition run_batch (cfg : config) (df_cities : list city)
    (completed_geos : gset cell) : M summary :=
  t <- main_loop cfg (cities_to_process cfg df_cities completed_geos)
         (Tally 0 0 []) ;;
  done_now <- get_completed_cities ;;
  done_again <- get_completed_cities ;;
  _ <- get_completed_cities ;;
  ret (Summary t (size done_now)
               (Z.of_nat (length df_cities) - Z.of_nat (size done_again))).

Definition main (cfg : config) (df_cities : list city) : M summary :=
  completed_geos <- get_completed_cities ;;
  run_batch cfg df_cities completed_geos.

End Scraper.

(** ** Vocabulary of the statements *)

(** The zero-filled frame for [term]. *)
Definition zero_fill (term : string) (date_range : list date) : list observation :=
  map (fun d => Observation d term 0) date_range.

(** The frame made of a non-empty answer. *)
Definition renamed (term : string) (rows : list (date * Z)) : list observation :=
  map (fun r => Observation (fst r) term (snd r)) rows.

(** The events of one attempt. *)
Definition attempt_events (geo term : string) (year : year_value) : list event :=
  [EvSleepUniform 15 30; EvQuery term geo year].

(** The answer that the attempt started in [w] gets. *)
Definition answer (env : environment) (geo term : string) (year : year_value)
    (w : world) : response :=
  interest_over_time env (effects w ++ [EvSleepUniform 15 30]) term geo year.

(** A rate-limit signal: the attempt raised and the text of the exception
    mentions 429. *)
Definition rate_limit_signal (r : response) : bool :=
  match r with
  | Failure msg => contains "429" msg
  | Frame _ => false
  end.

Definition is_query (e : event) : bool :=
  match e with
  | EvQuery _ _ _ => true
  | _ => false
  end.

Definition is_session (e : event) : bool :=
  match e with
  | EvSession => true
  | _ => false
  end.

(** Number of sessions opened among [evs]: one per city attempted. *)
Definition sessions (evs : list event) : nat := length (filter is_session evs).

(** Number of network attempts among [evs]. *)
Definition attempts (evs : list event) : nat := length (filter is_query evs).

(** The events of attempts [first + 1 .. first + n] at one keyword when each
    of them is answered by a rate-limit signal: attempt [a] is followed by a
    wait of [2 ^ a * 60] unless it was the last one allowed. *)
Definition backoff_events (geo term : string) (year : year_value)
    (max_retries first n : nat) : list event :=
  flat_map
    (fun a => attempt_events geo term year ++
              if (a <? max_retries)%nat then [EvSleep (2 ^ a * 60)] else [])
    (seq (S first) n).

(** A week-ending Sunday of year [y]. *)
Definition week_ending_sunday (y : Z) (d : date) : Prop :=
  in_year y d /\ iso_weekday d = 7.

(** The observations of a frame that are about [term]. *)
Definition rows_for (term : string) (df : list observation) : list observation :=
  filter (fun o => search_term o = term) df.

(** ** Sample surroundings *)

(** A service that has no data for any keyword. *)
Definition silent : environment :=
  Environment (fun _ => None) (fun _ _ _ _ => Frame []).

(** A service that throttles every request. *)
Definition throttling : environment :=
  Environment (fun _ => None)
              (fun _ _ _ _ => Failure "The request failed: Google returned a response with code 429").

(** A service whose session cannot be opened. *)
Definition unreachable : environment :=
  Environment (fun _ => Some "Max retries exceeded with url") (fun _ _ _ _ => Frame []).

Definition fresh : world := World None [].

(** No usable progress: the checkpoint is absent, is a file of zero bytes,
    or is a table without a [geo_code] column. *)
Definition no_usable_progress (f : option file) : Prop :=
  match f with
  | None => True
  | Some Blank => True
  | Some (Lines first _) => column_index "geo_code" first = None
  | Some (Garbled _) => False
  end.

(** A checkpoint as the driver itself leaves it when it starts without one:
    absent, or the header of [cols] followed by rows. *)
Definition checkpoint_ok (f : option file) : Prop :=
  match f with
  | None => True
  | Some (Lines first _) => first = cols
  | Some _ => False
  end.

(** The rows of the table, as [pd.read_csv] sees them. *)
Definition table_rows (f : option file) : list line :=
  match f with
  | Some (Lines _ rest) => rest
  | _ => []
  end.

(** All lines of text in the file. *)
Definition text_lines (f : option file) : list line :=
  match f with
  | Some (Lines first rest) => first :: rest
  | _ => []
  end.

(** The rows saved for [row] from the frame [df] in year [y]. *)
Definition saved_rows (row : city) (y : Z) (df : list observation) : list line :=
  map (fun o => attach row o (CInt y)) df.

(** The identity of a row: entity code, keyword and week. *)
Definition row_key (l : line) : option cell * option cell * option cell :=
  (l !! 7%nat, l !! 8%nat, l !! 0%nat).

Definition is_critical (o : city_outcome) : bool :=
  match o with
  | CriticalFailure _ => true
  | _ => false
  end.

Definition is_saved (o : city_outcome) : bool :=
  match o with
  | Saved _ => true
  | _ => false
  end.

(** One pass of the main loop, city by city: what happened to each city
    that was attempted, and the world it ends in.  A critical failure ends
    the pass. *)
Inductive batch_run (env : environment) (cfg : config) :
    list city -> world -> list (city * city_outcome) -> world -> Prop :=
| batch_done (w : world) :
    batch_run env cfg [] w [] w
| batch_saved (row : city) (cities : list city) (w w1 w' : world) (n : nat)
    (os : list (city * city_outcome)) :
    process_city env cfg row w = (Ok (Some n), w1) ->
    batch_run env cfg cities w1 os w' ->
    batch_run env cfg (row :: cities) w ((row, Saved n) :: os) w'
| batch_no_data (row : city) (cities : list city) (w w1 w' : world)
    (os : list (city * city_outcome)) :
    process_city env cfg row w = (Ok None, w1) ->
    batch_run env cfg cities w1 os w' ->
    batch_run env cfg (row :: cities) w ((row, NoData) :: os) w'
| batch_critical (row : city) (cities : list city) (w w1 : world) (e : exn) :
    process_city env cfg row w = (Raise e, w1) ->
    batch_run env cfg (row :: cities) w [(row, CriticalFailure e)] w1.

(** A three-city catalog and a one-city catalog for the examples. *)
Definition city_a : city := City "US-A" "Alpha" "US" "NY" (Q2Qc (40 # 1)) (Q2Qc (-70 # 1)).
Definition city_b : city := City "US-B" "Beta" "US" "NJ" (Q2Qc (41 # 1)) (Q2Qc (-74 # 1)).
Definition city_c : city := City "US-C" "Gamma" "US" "PA" (Q2Qc (42 # 1)) (Q2Qc (-75 # 1)).

(** A configuration for a single year and a single keyword. *)
Definition one_keyword (quota : nat) : config := Config (YearInt 2023) ["X"] quota.

(** A source whose answers have one value per week. *)
Definition weekly (env : environment) : Prop :=
  forall h term geo year rows,
    interest_over_time env h term geo year = Frame rows -> NoDup (map fst rows).

(** The identity of an observation within one city: keyword and week. *)
Definition observation_key (o : observation) : string * date :=
  (search_term o, date_of o).

(** A checkpoint the driver made itself in which no (code, keyword, week)
    occurs twice. *)
Definition no_repeated_row (f : option file) : Prop :=
  checkpoint_ok f /\ NoDup (map row_key (table_rows f)).

(** ** More vocabulary: effects, errors and codes *)

Definition is_write (e : event) : bool :=
  match e with
  | EvToCsv _ _ => true
  | _ => false
  end.

Definition is_header_write (e : event) : bool :=
  match e with
  | EvToCsv _ true => true
  | _ => false
  end.

(** Number of [to_csv] calls among [evs], and of those that wrote the
    header. *)
Definition writes (evs : list event) : nat := length (filter is_write evs).
Definition header_writes (evs : list event) : nat :=
  length (filter is_header_write evs).




(** A service that throttles the keyword Y and has no data for the
    others. *)
Definition throttling_y : environment :=
  Environment (fun _ => None)
              (fun _ term _ _ =>
                 if String.eqb term "Y"
                 then Failure "The request failed: Google returned a response with code 429"
                 else Frame []).


(** The codes of the cities a pass saved, as they stand in the table. *)
Definition saved_codes (os : list (city * city_outcome)) : list cell :=
  map (fun o => CStr (geo_code (fst o)))
      (filter (fun o => is_saved (snd o) = true) os).

(** The terms of a frame that holds [n] rows for each keyword in turn. *)
Definition grouped_terms (counts : list nat) (keywords : list string)
    : list string :=
  concat (zip_with (fun n k => replicate n k) counts keywords).


(** The codes of the catalog, as the tracker would read them. *)
Definition catalog_codes (df_cities : list city) : list cell :=
  map (fun c => CStr (geo_code c)) df_cities.

(** A checkpoint with a code that is in no catalog here. *)
Definition foreign_checkpoint : option file :=
  Some (Lines cols [attach (City "ZZ-9" "Nowhere" "ZZ" "ZZ" (Q2Qc (0 # 1)) (Q2Qc (0 # 1)))
                           (Observation 738521 "X" 0) (CInt 2023)]).



(** * Daily weather for the catalog

    A shallow embedding of the fetching part of
    [Temperature/get_weather_data.py]: [get_historical_weather] and the loop
    that calls it for every row of the catalog, up to the point where the
    daily frame is built and its date column is read.  The weekly statistics
    that follow are computed on floating-point columns by the data-frame
    library and are not modelled. *)

Module Weather.

(** A value as [response.json()] gives it, and as a cell of the catalog.
    The members of an object are those of the parsed dictionary, each key
    once, in the order of insertion. *)
#[local] Unset Elimination Schemes.
Inductive json :=
| JNull
| JBool (b : bool)
| JNum (x : Qc)
| JStr (s : string)
| JArr (items : list json)
| JObj (members : list (string * json)).
#[local] Set Elimination Schemes.

(** A row of the catalog as [iterrows] yields it (label to value), and a
    dictionary built from it.  The order of keys is not kept. *)
Abbreviation row := (gmap string json).
Abbreviation entry := (gmap string json).

Inductive exn :=
| KeyError (key : string)
| AttributeError (attr : string)
| TypeError (msg : string)
| RequestException (msg : string)
| HTTPError (status_code : Z)
| JSONDecodeError.

(** What the archive service does with one request: no response at all, or
    a response with a status and a body, which is JSON or is not.  The
    request is made without a timeout; one that never returns is not
    modelled. *)
Inductive reply :=
| NoReply (msg : string)
| Reply (status_code : Z) (body : option json).

Inductive event :=
| EvFetching (name : json)                  (* print(f"Fetching {...}...") *)
| EvGet (latitude longitude : json)         (* requests.get(url, params=params) *)
| EvErrorFetching (name : json) (e : exn)   (* print(f"Error fetching data for {...}: {e}") *)
| EvSleep (secs : Qc).                      (* time.sleep(secs) *)

Definition history := list event.

(** The service answers from the history of effects and the coordinates of
    the request; the other parameters are constants of the script. *)
Definition environment := history -> json -> json -> reply.

Inductive result (A : Type) :=
| Ok (a : A)
| Raise (e : exn).
Arguments Ok {A} a.
Arguments Raise {A} e.

Definition M (A : Type) : Type := history -> result A * history.

Definition ret {A} (a : A) : M A := fun h => (Ok a, h).
Definition raise {A} (e : exn) : M A := fun h => (Raise e, h).
Definition bind {A B} (m : M A) (k : A -> M B) : M B :=
  fun h => match m h with
           | (Ok a, h') => k a h'
           | (Raise e, h') => (Raise e, h')
           end.
Definition try_ {A} (m : M A) : M (result A) :=
  fun h => let '(r, h') := m h in (Ok r, h').
Definition emit (e : event) : M unit := fun h => (Ok tt, h ++ [e]).

Declare Scope weather_scope.
Notation "x <- m ;; k" := (bind m (fun x => k)) : weather_scope.
Notation "m ;;; k" := (bind m (fun _ => k)) : weather_scope.
Local Open Scope weather_scope.

(** [row[label]] *)
Definition getitem (r : row) (label : string) : M json :=
  match r !! label with
  | Some v => ret v
  | None => raise (KeyError label)
  end.

Fixpoint member (key : string) (members : list (string * json)) : option json :=
  match members with
  | [] => None
  | (k, v) :: members' => if String.eqb k key then Some v else member key members'
  end.

(** [d.get(key, dflt)]: only a dictionary has the method. *)
Definition dict_get (d : json) (key : string) (dflt : json) : M json :=
  match d with
  | JObj members => ret (default dflt (member key members))
  | _ => raise (AttributeError "get")
  end.

(** [iter(x)], as [zip] calls it: the items of a list, the characters of a
    string, the keys of a dictionary; nothing else here is iterable. *)
Definition iter (x : json) : M (list json) :=
  match x with
  | JArr items => ret items
  | JStr s => ret (map (fun c => JStr (String c EmptyString)) (String.list_ascii_of_string s))
  | JObj members => ret (map (fun kv => JStr (fst kv)) members)
  | _ => raise (TypeError "zip argument must support iteration")
  end.

Definition day : Type := json * json * json * json * json.

(** What [zip] yields once its five arguments are iterators: it stops at
    the shortest. *)
Fixpoint zip_items (dates means maxs mins precips : list json) : list day :=
  match dates, means, maxs, mins, precips with
  | d :: dates', m :: means', x :: maxs', n :: mins', p :: precips' =>
    (d, m, x, n, p) :: zip_items dates' means' maxs' mins' precips'
  | _, _, _, _, _ => []
  end.

Definition zip (dates means maxs mins precips : json) : M (list day) :=
  a <- iter dates ;;
  b <- iter means ;;
  c <- iter maxs ;;
  d <- iter mins ;;
  e <- iter precips ;;
  ret (zip_items a b c d e).

(** The body of the [for] loop: the row as a dictionary, with five keys
    set. *)
Definition entry_of (r : row) (x : day) : entry :=
  let '(date, mean_t, max_t, min_t, precip) := x in
  <["precip_sum" := precip]>
    (<["temp_min" := min_t]>
       (<["temp_max" := max_t]>
          (<["temp_mean" := mean_t]>
             (<["date" := date]> r)))).

Definition sleep (secs : Qc) : M unit := emit (EvSleep secs).

Section Fetch.

Variable env : environment.

(** [requests.get(url, params=params)] *)
Definition requests_get (latitude longitude : json) : M (Z * option json) :=
  fun h =>
    let h' := h ++ [EvGet latitude longitude] in
    match env h latitude longitude with
    | NoReply msg => (Raise (RequestException msg), h')
    | Reply status_code body => (Ok (status_code, body), h')
    end.

(** [response.raise_for_status()] *)
Definition raise_for_status (response : Z * option json) : M unit :=
  let status_code := fst response in
  if (400 <=? status_code) && (status_code <? 600)
  then raise (HTTPError status_code)
  else ret tt.

(** [response.json()] *)
Definition response_json (response : Z * option json) : M json :=
  match snd response with
  | Some data => ret data
  | None => raise JSONDecodeError
  end.

Definition get_historical_weather (r : row) : M (list entry) :=
  latitude <- getitem r "latitude" ;;
  longitude <- getitem r "longitude" ;;
  outcome <- try_ (
    response <- requests_get latitude longitude ;;
    raise_for_status response ;;;
    data <- response_json response ;;
    daily_data <- dict_get data "daily" (JObj []) ;;
    dates <- dict_get daily_data "time" (JArr []) ;;
    means <- dict_get daily_data "temperature_2m_mean" (JArr []) ;;
    maxs <- dict_get daily_data "temperature_2m_max" (JArr []) ;;
    mins <- dict_get daily_data "temperature_2m_min" (JArr []) ;;
    precips <- dict_get daily_data "precipitation_sum" (JArr []) ;;
    days <- zip dates means maxs mins precips ;;
    ret (map (entry_of r) days)) ;;
  match outcome with
  | Ok results => ret results
  | Raise e =>
    name <- getitem r "location_name" ;;
    emit (EvErrorFetching name e) ;;;
    ret []
  end.

(** [for index, row in df.iterrows(): ...]; [all_weather_data] is the list
    being extended. *)
Fixpoint fetch_loop (df : list row) (all_weather_data : list entry)
    : M (list entry) :=
  match df with
  | [] => ret all_weather_data
  | r :: df' =>
    name <- getitem r "location_name" ;;
    emit (EvFetching name) ;;;
    city_weather <- get_historical_weather r ;;
    sleep (Q2Qc (1 # 2)) ;;;
    fetch_loop df' (all_weather_data ++ city_weather)
  end.

(** [pd.DataFrame(records)[label]]: the frame has a column for every key of
    some record; a record without the key has a missing value there. *)
Definition frame_column (records : list entry) (label : string) : M (list json) :=
  if existsb (fun e => bool_decide (is_Some (e !! label))) records
  then ret (map (fun e => default JNull (e !! label)) records)
  else raise (KeyError label).

(** The script from the loop to [daily_df['date']], the column handed to
    [pd.to_datetime]. *)
Definition daily_dates (df : list row) : M (list json) :=
  all_weather_data <- fetch_loop df [] ;;
  frame_column all_weather_data "date".

End Fetch.

(** *** Vocabulary *)

Definition is_get (e : event) : bool :=
  match e with EvGet _ _ => true | _ => false end.
Definition is_error_message (e : event) : bool :=
  match e with EvErrorFetching _ _ => true | _ => false end.
Definition is_sleep (e : event) : bool :=
  match e with EvSleep _ => true | _ => false end.

Definition requests (evs : list event) : nat := length (filter is_get evs).
Definition error_messages (evs : list event) : nat :=
  length (filter is_error_message evs).
Definition sleeps (evs : list event) : nat := length (filter is_sleep evs).

(** A computation that has no effect on the history. *)
Definition effect_free {A} (m : M A) : Prop := forall h, snd (m h) = h.

(** The series under [key] of a [daily] block: the default of the lookup
    when there is none. *)
Definition series (daily : list (string * json)) (key : string) : json :=
  default (JArr []) (member key daily).

(** The keys of the series the function looks up in the [daily] block. *)
Definition series_keys : list string :=
  ["time"; "temperature_2m_mean"; "temperature_2m_max"; "temperature_2m_min";
   "precipitation_sum"].

Definition iterable (x : json) : bool :=
  match x with
  | JArr _ | JStr _ | JObj _ => true
  | _ => false
  end.

(** A reply that can be read through: a response without an error status
    whose body is a JSON object, in which [daily], if present, is an object,
    in which each of the five series, if present, can be iterated. *)
Definition readable (rp : reply) : bool :=
  match rp with
  | Reply status_code (Some (JObj data)) =>
    negb ((400 <=? status_code) && (status_code <? 600)) &&
    match default (JObj []) (member "daily" data) with
    | JObj daily => forallb (fun key => iterable (series daily key)) series_keys
    | _ => false
    end
  | _ => false
  end.

(** The keys the loop body sets. *)
Definition weather_keys : list string :=
  ["date"; "temp_mean"; "temp_max"; "temp_min"; "precip_sum"].

(** The labels the function and the loop read from a row. *)
Definition has_labels (r : row) : Prop :=
  is_Some (r !! "latitude") /\ is_Some (r !! "longitude") /\
  is_Some (r !! "location_name").

(** An entry made from [r]: the five keys are set and every other key is
    as in the row. *)
Definition extends_row (r : row) (e : entry) : Prop :=
  Forall (fun k => is_Some (e !! k)) weather_keys /\
  forall k, k ∉ weather_keys -> e !! k = r !! k.

(** A reply from which no data can be read: no response, an error status,
    or a body that is not JSON. *)
Definition failed (rp : reply) : Prop :=
  match rp with
  | NoReply _ => True
  | Reply status_code body => 400 <= status_code < 600 \/ body = None
  end.

(** A well-formed body: the five series under [daily]. *)
Definition daily_body (dates means maxs mins precips : list json) : json :=
  JObj [("latitude", JNum (Q2Qc (30 # 1)));
        ("daily", JObj [("time", JArr dates);
                        ("temperature_2m_mean", JArr means);
                        ("temperature_2m_max", JArr maxs);
                        ("temperature_2m_min", JArr mins);
                        ("precipitation_sum", JArr precips)])].

(** Sample data. *)
Definition austin : row :=
  {[ "location_name" := JStr "Austin"; "geo_code" := JStr "US-TX-635";
     "latitude" := JNum (Q2Qc (30 # 1)); "longitude" := JNum (Q2Qc (-97 # 1)) ]}.
Definition boise : row :=
  {[ "location_name" := JStr "Boise"; "geo_code" := JStr "US-ID-757";
     "latitude" := JNum (Q2Qc (43 # 1)); "longitude" := JNum (Q2Qc (-116 # 1)) ]}.
Definition unnamed : row :=
  {[ "latitude" := JNum (Q2Qc (30 # 1)); "longitude" := JNum (Q2Qc (-97 # 1)) ]}.

Definition two_days : json :=
  daily_body [JStr "2023-01-01"; JStr "2023-01-02"]
             [JNum (Q2Qc (11 # 1)); JNum (Q2Qc (12 # 1))]
             [JNum (Q2Qc (15 # 1)); JNum (Q2Qc (16 # 1))]
             [JNum (Q2Qc (7 # 1)); JNull]
             [JNum (Q2Qc (0 # 1)); JNum (Q2Qc (3 # 1))].

(** A service with two days of data for every place, one that is down, one
    that is down for the first request only, and one whose answer has no
    [daily] block. *)
Definition archive : environment := fun _ _ _ => Reply 200 (Some two_days).
Definition down : environment := fun _ _ _ => Reply 503 None.
Definition down_at_first : environment :=
  fun h _ _ => match filter is_get h with
               | [] => NoReply "Connection refused"
               | _ => Reply 200 (Some two_days)
               end.
Definition no_daily : environment :=
  fun _ _ _ => Reply 200 (Some (JObj [("latitude", JNum (Q2Qc (30 # 1)))])).

End Weather.

(** * The week of the year as a join key

    [weather_data/get_weather_data.py] joins the rows of the trends table
    with the weekly weather on (location, year, week), where the week is
    [date.dt.isocalendar().week] and the year is the calendar year.  The
    week number is computed as the standard library does it. *)

Module WeekJoin.

(** The ordinal of the Monday that starts ISO week 1 of [year]. *)
Definition isoweek1monday (year : Z) : date :=
  let firstday := ymd_to_ordinal year 1 1 in
  let firstweekday := (firstday + 6) mod 7 in
  let week1monday := firstday - firstweekday in
  if 3 <? firstweekday then week1monday + 7 else week1monday.

(** [isocalendar().week] of the date [today], a day of the calendar year
    [year]. *)
Definition isocalendar_week (year : Z) (today : date) : Z :=
  let week := (today - isoweek1monday year) / 7 in
  if week <? 0 then (today - isoweek1monday (year - 1)) / 7 + 1
  else if (52 <=? week) && (isoweek1monday (year + 1) <=? today) then 1
  else week + 1.

(** The key under which a day of the year [join_year] is grouped and
    merged, for one location. *)
Definition join_key (join_year : Z) (d : date) : Z * Z :=
  (join_year, isocalendar_week join_year d).

End WeekJoin.

(** * The script on its platform

    The embedding above reads the target year as a calendar year and takes
    every write to succeed.  [Full] is the same script with what the
    libraries and the disk add to that: the text of the year goes through
    the date parser of the data-frame library, and [to_csv], which the main
    loop calls inside its [try], may raise, before or after part of its
    text has reached the file.  The retry loop, the loop over the keywords
    and the progress tracker are the ones above. *)

Module Full.

(** How a write may fail. *)
Inductive write_fault :=
| CannotOpen (msg : string)               (* opening the file raises: nothing is created *)
| Breaks (written : nat) (msg : string).  (* the write raises when [written] whole
                                             lines of its text have reached the file *)

(** [short_year y] is what the date parser makes of the texts
    [f'{y}-01-01'] and [f'{y}-12-31'] when [y] is not a four-digit year of
    the timestamp range: the two dates, or [None] when one of the texts is
    rejected.  It depends on the parser's heuristics, on the version of the
    library and on today's date.  [disk] tells, from the effects so far and
    the text to be written, whether the write fails.  A write that breaks
    in the middle of a line is not modelled, the file being classified by
    whole lines. *)
Record platform := Platform {
  service : environment;
  short_year : Z -> option (date * date);
  disk : list event -> list line -> option write_fault
}.

(** The years whose first and last day the nanosecond timestamp can hold
    (1677-09-21 to 2262-04-11). *)
Definition in_timestamp_range (y : Z) : bool := (1678 <=? y) && (y <=? 2261).

Section Script.

Variable p : platform.

(** [pd.date_range(start=f'{year}-01-01', end=f'{year}-12-31', freq='W-SUN')].
    A four-digit year of the timestamp range is read as that year; a year
    of five digits is beyond what a date can hold; a tuple formats to text
    that is no date. *)
Definition pd_date_range (year : year_value) : M (list date) :=
  match year with
  | YearInt y =>
    if in_timestamp_range y
    then ret (date_range_W_SUN (ymd_to_ordinal y 1 1) (ymd_to_ordinal y 12 31))
    else if (10000 <=? y) && (y <=? 99999)
    then raise (Error "year is out of range")
    else
      match short_year p y with
      | Some (start, stop) => ret (date_range_W_SUN start stop)
      | None => raise (Error "Unknown datetime string format, unable to parse")
      end
  | YearTuple _ => raise (Error "Unknown datetime string format, unable to parse")
  end.

Definition fetch_city_trends (geo_code : string) (keywords : list string)
    (year : year_value) (max_retries : nat) : M (list observation) :=
  TrendReq (service p) ;;;
  date_range <- pd_date_range year ;;
  all_data <- for_terms (service p) geo_code year date_range max_retries keywords [] ;;
  match all_data with
  | [] => ret []
  | _ :: _ => ret (concat all_data)
  end.

(** [df.to_csv(OUTPUT_FILE, mode='a', header=header, index=False)].  The
    event records the call, whether it succeeds or not. *)
Definition to_csv (rows : list line) (header : bool) : M unit :=
  fun w =>
    let text := (if header then [cols] else []) ++ rows in
    let effects' := effects w ++ [EvToCsv (length rows) header] in
    match disk p (effects w) text with
    | None => (Ok tt, World (append_lines text (fs w)) effects')
    | Some (CannotOpen msg) => (Raise (Error msg), World (fs w) effects')
    | Some (Breaks written msg) =>
      (Raise (Error msg), World (append_lines (take written text) (fs w)) effects')
    end.

(** The body of the [try] block of the main loop. *)
Definition process_city (cfg : config) (row : city) : M (option nat) :=
  df_trends <- fetch_city_trends (geo_code row) (SEARCH_TERMS cfg) (YEAR cfg)
                 default_max_retries ;;
  outcome <-
    match df_trends with
    | _ :: _ =>
      years <- year_column (YEAR cfg) (length df_trends) ;;
      let df_trends := zip_with (attach row) df_trends years in
      write_header <- (e <- os_path_exists ;; ret (negb e)) ;;
      to_csv df_trends write_header ;;;
      ret (Some (length df_trends))
    | [] => ret None
    end ;;
  sleep_uniform 30 60 ;;;
  ret outcome.

(** [for index, row in cities_to_process.iterrows()], with its [break]. *)
Fixpoint main_loop (cfg : config) (cities : list city) (t : tally) : M tally :=
  match cities with
  | [] => ret t
  | row :: cities' =>
    r <- try_ (process_city cfg row) ;;
    match r with
    | Ok (Some n) =>
      main_loop cfg cities'
        (Tally (S (successful_cities t)) (failed_cities t)
               (outcomes t ++ [(row, Saved n)]))
    | Ok None =>
      main_loop cfg cities'
        (Tally (successful_cities t) (S (failed_cities t))
               (outcomes t ++ [(row, NoData)]))
    | Raise e =>
      ret (Tally (successful_cities t) (S (failed_cities t))
                 (outcomes t ++ [(row, CriticalFailure e)]))
    end
  end.

Definition run_batch (cfg : config) (df_cities : list city)
    (completed_geos : gset cell) : M summary :=
  t <- main_loop cfg (cities_to_process cfg df_cities completed_geos)
         (Tally 0 0 []) ;;
  done_now <- get_completed_cities ;;
  done_again <- get_completed_cities ;;
  _ <- get_completed_cities ;;
  ret (Summary t (size done_now)
               (Z.of_nat (length df_cities) - Z.of_nat (size done_again))).

Definition main (cfg : config) (df_cities : list city) : M summary :=
  completed_geos <- get_completed_cities ;;
  run_batch cfg df_cities completed_geos.

End Script.

(** One pass of the main loop, city by city, with the world each turn ends
    in.  A critical failure ends the pass. *)
Inductive batch_run (p : platform) (cfg : config) :
    list city -> world -> list (city * city_outcome) -> world -> Prop :=
| batch_done (w : world) :
    batch_run p cfg [] w [] w
| batch_saved (row : city) (cities : list city) (w w1 w' : world) (n : nat)
    (os : list (city * city_outcome)) :
    process_city p cfg row w = (Ok (Some n), w1) ->
    batch_run p cfg cities w1 os w' ->
    batch_run p cfg (row :: cities) w ((row, Saved n) :: os) w'
| batch_no_data (row : city) (cities : list city) (w w1 w' : world)
    (os : list (city * city_outcome)) :
    process_city p cfg row w = (Ok None, w1) ->
    batch_run p cfg cities w1 os w' ->
    batch_run p cfg (row :: cities) w ((row, NoData) :: os) w'
| batch_critical (row : city) (cities : list city) (w w1 : world) (e : exn) :
    process_city p cfg row w = (Raise e, w1) ->
    batch_run p cfg (row :: cities) w [(row, CriticalFailure e)] w1.

(** *** Vocabulary *)

(** The rows of one city that a turn may put into the file: its metadata
    and the year around observations for keywords of the configuration. *)
Definition data_row (cfg : config) (row : city) (l : line) : Prop :=
  exists (o : observation) (y : Z),
    YEAR cfg = YearInt y /\ search_term o ∈ SEARCH_TERMS cfg /\
    l = attach row o (CInt y).

(** A checkpoint the driver wrote itself: absent, or the header of [cols]
    and under it whole rows, each with a cell for every column and ended by
    its line terminator. *)
Definition written_by_driver (f : option file) : Prop :=
  match f with
  | None => True
  | Some (Lines first rest) =>
    first = cols /\ Forall (fun l : line => length l = length cols) rest
  | Some _ => False
  end.

(** What a pass may do to a checkpoint the driver wrote itself: the lines
    [new] go under the rows that are there; a checkpoint that does not exist
    is left so, is created with the header and [new] under it, or is created
    and left without a byte by a write that broke at once. *)
Definition appended (f : option file) (new : list line) (f' : option file) : Prop :=
  match f with
  | Some (Lines first rest) => f' = Some (Lines first (rest ++ new))
  | None =>
    (new = [] /\ (f' = None \/ f' = Some Blank)) \/ f' = Some (Lines cols new)
  | Some _ => False
  end.

(** The codes of the cities whose turn ended in a critical failure. *)
Definition critical_codes (os : list (city * city_outcome)) : list cell :=
  map (fun o => CStr (geo_code (fst o)))
      (filter (fun o => is_critical (snd o) = true) os).

(** Every request among [evs] is about [term], for [geo] and [year]. *)
Definition all_about (geo term : string) (year : year_value)
    (evs : list event) : Prop :=
  Forall (fun e => is_query e = true -> e = EvQuery term geo year) evs.

(** A target year whose text the date parser reads as that calendar year;
    a tuple is no date on any platform. *)
Definition year_in_range (year : year_value) : Prop :=
  match year with
  | YearInt y => 1678 <= y <= 2261
  | YearTuple _ => True
  end.

(** *** Sample platforms *)

(** A platform on which no write fails and no odd year is read. *)
Definition reliable (env : environment) : platform :=
  Platform env (fun _ => None) (fun _ _ => None).

(** The date parser as it answers today for the year 1: the texts 1-01-01
    and 1-12-31 are read month first, as 2001-01-01 and 2031-01-12. *)
Definition parser_today (env : environment) : platform :=
  Platform env
           (fun y => if y =? 1 then Some (730486, 741454) else None)
           (fun _ _ => None).

(** A service whose session can be opened once and not again. *)
Definition one_session : environment :=
  Environment (fun h => if (sessions h =? 0)%nat then None
                        else Some "Max retries exceeded with url")
              (fun _ _ _ _ => Frame []).

(** A disk that takes the first write and breaks in the second when two
    lines of it are in the file. *)
Definition fills_up (env : environment) : platform :=
  Platform env (fun _ => None)
           (fun h _ => if (writes h =? 0)%nat then None
                       else Some (Breaks 2 "No space left on device")).

End Full.

(** * Properties *)

(** ** Calendar facts *)

Module CalendarFacts.

Lemma year_length (y : Z) :
  days_before_year (y + 1) = days_before_year y + (if is_leap y then 366 else 365).
Proof.
  unfold days_before_year, is_leap.
  replace (y + 1 - 1) with y by lia.
  destruct (Z.eqb_spec (y mod 4) 0), (Z.eqb_spec (y mod 100) 0),
    (Z.eqb_spec (y mod 400) 0); cbn [andb orb negb];
    Z.div_mod_to_equations; lia.
Qed.

Lemma jan1 (y : Z) : ymd_to_ordinal y 1 1 = days_before_year y + 1.
Proof. unfold ymd_to_ordinal. change (days_before_month y 1) with 0. lia. Qed.

Lemma dec31 (y : Z) : ymd_to_ordinal y 12 31 = days_before_year (y + 1).
Proof.
  rewrite year_length. unfold ymd_to_ordinal.
  assert (days_before_month y 12 = if is_leap y then 335 else 334) as ->.
  { unfold days_before_month. change (Z.to_nat (12 - 1)) with 11%nat.
    cbv -[is_leap Z.add]. destruct (is_leap y); reflexivity. }
  destruct (is_leap y); lia.
Qed.

Lemma sunday_iff (d : date) : iso_weekday d = 7 <-> d mod 7 = 0.
Proof. unfold iso_weekday. Z.div_mod_to_equations. lia. Qed.

Lemma elem_of_date_range (start stop d : date) :
  d ∈ date_range_W_SUN start stop <-> start <= d <= stop /\ d mod 7 = 0.
Proof.
  unfold date_range_W_SUN, first_sunday_from.
  set (first := start + (- start) mod 7).
  assert (Hf : start <= first < start + 7 /\ first mod 7 = 0).
  { unfold first. Z.div_mod_to_equations. lia. }
  destruct (Z.leb_spec first stop) as [Hle | Hgt].
  - rewrite list_elem_of_fmap. split.
    + intros (k & -> & Hk). apply elem_of_seq in Hk.
      assert (Z.of_nat k < (stop - first) / 7 + 1) by lia.
      Z.div_mod_to_equations. lia.
    + intros [Hd Hm]. exists (Z.to_nat ((d - first) / 7)). split.
      * Z.div_mod_to_equations. lia.
      * apply elem_of_seq. Z.div_mod_to_equations. lia.
  - split; [by intros ?%elem_of_nil |].
    intros [Hd Hm]. exfalso. Z.div_mod_to_equations. lia.
Qed.

Lemma NoDup_date_range (start stop : date) : NoDup (date_range_W_SUN start stop).
Proof.
  unfold date_range_W_SUN. case_match; [| constructor].
  apply NoDup_fmap_2; [intros a b; lia | apply NoDup_seq].
Qed.

End CalendarFacts.

(** ** The world *)

Lemma after_nil (w : world) : after w [] = w.
Proof. destruct w. unfold after. cbn. by rewrite app_nil_r. Qed.

Lemma after_after (w : world) (a b : list event) :
  after (after w a) b = after w (a ++ b).
Proof. unfold after. cbn. by rewrite app_assoc. Qed.

Lemma fs_after (w : world) (evs : list event) : fs (after w evs) = fs w.
Proof. reflexivity. Qed.

Lemma effects_after (w : world) (evs : list event) :
  effects (after w evs) = effects w ++ evs.
Proof. reflexivity. Qed.

(** ** The unit fetcher *)

Section FetcherFacts.

Variable env : environment.
Variables (geo term : string) (year : year_value) (date_range : list date).

Local Abbreviation zero_fill := (zero_fill term date_range).
Local Abbreviation renamed := (renamed term).
Local Abbreviation attempt_events := (attempt_events geo term year).
Local Abbreviation answer := (answer env geo term year).

Lemma attempt_eq (w : world) :
  attempt env geo term year date_range w =
  match answer w with
  | Frame [] => (Ok zero_fill, after w attempt_events)
  | Frame (r :: rows) => (Ok (renamed (r :: rows)), after w attempt_events)
  | Failure msg => (Raise (Error msg), after w attempt_events)
  end.
Proof.
  unfold attempt, answer, bind, sleep_uniform, emit, query, ret.
  rewrite effects_after, !after_after. cbn [app].
  destruct (interest_over_time _ _ _ _ _) as [[| r rows] | msg]; reflexivity.
Qed.

Lemma retry_loop_S (fuel max_retries retry_count : nat) (w : world) :
  (retry_count < max_retries)%nat ->
  retry_loop env (S fuel) geo term year date_range max_retries retry_count w =
  match answer w with
  | Frame [] => (Ok (Appended zero_fill), after w attempt_events)
  | Frame (r :: rows) => (Ok (Appended (renamed (r :: rows))), after w attempt_events)
  | Failure msg =>
    if contains "429" msg then
      if (S retry_count <? max_retries)%nat then
        retry_loop env fuel geo term year date_range max_retries (S retry_count)
          (after w (attempt_events ++ [EvSleep (2 ^ S retry_count * 60)]))
      else (Ok Skipped, after w attempt_events)
    else (Ok Skipped, after w (attempt_events ++ [EvSleep 5]))
  end.
Proof.
  intros Hlt. cbn [retry_loop].
  apply Nat.ltb_lt in Hlt as ->.
  unfold bind at 1. unfold try_. rewrite attempt_eq.
  destruct (answer w) as [[| r rows] | msg]; try reflexivity.
  cbn [str]. destruct (contains "429" msg).
  - destruct (S retry_count <? max_retries)%nat; [| reflexivity].
    unfold bind, sleep, emit. by rewrite after_after.
  - unfold bind, sleep, emit, ret. by rewrite after_after.
Qed.

Lemma retry_loop_done (fuel max_retries retry_count : nat) (w : world) :
  (max_retries <= retry_count)%nat ->
  retry_loop env fuel geo term year date_range max_retries retry_count w =
  (Ok Skipped, w).
Proof.
  intros Hge. apply Nat.ltb_ge in Hge.
  destruct fuel; cbn [retry_loop]; by rewrite Hge.
Qed.

(** The bound on iterations is large enough: the loop is left by one of
    its own exits, with an appended frame whose rows all carry [term], or
    with nothing. *)
Lemma retry_loop_exit (fuel max_retries retry_count : nat) (w : world) :
  (max_retries <= retry_count + fuel)%nat ->
  exists (r : keyword_exit) (evs : list event),
    retry_loop env fuel geo term year date_range max_retries retry_count w =
      (Ok r, after w evs) /\
    match r with
    | Appended data => data <> [] \/ date_range = []
    | Skipped => True
    | OutOfFuel => False
    end /\
    match r with
    | Appended data => Forall (fun o => search_term o = term) data
    | _ => True
    end.
Proof.
  revert retry_count w. induction fuel as [| fuel IH]; intros rc w Hfuel.
  - exists Skipped, []. rewrite retry_loop_done, after_nil by lia. done.
  - destruct (decide (rc < max_retries)%nat) as [Hlt | Hge].
    2: { exists Skipped, []. rewrite retry_loop_done, after_nil by lia. done. }
    rewrite retry_loop_S by done.
    destruct (answer w) as [[| r rows] | msg].
    + exists (Appended zero_fill), attempt_events. split; [done |].
      split.
      * unfold zero_fill. destruct date_range; [by right | by left].
      * unfold zero_fill. by apply Forall_fmap, Forall_true.
    + exists (Appended (renamed (r :: rows))), attempt_events.
      split; [done |]. split; [by left |].
      unfold renamed. by apply Forall_fmap, Forall_true.
    + destruct (contains "429" msg).
      * destruct (Nat.ltb_spec (S rc) max_retries).
        -- destruct (IH (S rc)
                       (after w (attempt_events ++ [EvSleep (2 ^ S rc * 60)])))
             as (r & evs & -> & Hr); [lia |].
           exists r, ((attempt_events ++ [EvSleep (2 ^ S rc * 60)]) ++ evs).
           by rewrite after_after.
        -- by exists Skipped, attempt_events.
      * by exists Skipped, (attempt_events ++ [EvSleep 5]).
Qed.

Lemma backoff_events_S (max_retries first n : nat) :
  backoff_events geo term year max_retries first (S n) =
  (attempt_events ++
   if (S first <? max_retries)%nat then [EvSleep (2 ^ S first * 60)] else []) ++
  backoff_events geo term year max_retries (S first) n.
Proof. reflexivity. Qed.

Lemma attempts_backoff_events (max_retries first n : nat) :
  attempts (backoff_events geo term year max_retries first n) = n.
Proof.
  revert first. induction n as [| n IH]; intros first; [done |].
  rewrite backoff_events_S. unfold attempts in *.
  rewrite filter_app, length_app, IH.
  by destruct (S first <? max_retries)%nat.
Qed.

(** The loop through [n] attempts that are all answered by a rate-limit
    signal. *)
Lemma retry_loop_backoff (max_retries n retry_count fuel : nat) (w : world) :
  (retry_count + n <= max_retries)%nat ->
  (max_retries <= retry_count + fuel)%nat ->
  (forall j, (j < n)%nat ->
     rate_limit_signal
       (answer (after w (backoff_events geo term year max_retries retry_count j)))
     = true) ->
  retry_loop env fuel geo term year date_range max_retries retry_count w =
  retry_loop env (fuel - n) geo term year date_range max_retries (retry_count + n)
    (after w (backoff_events geo term year max_retries retry_count n)).
Proof.
  revert retry_count fuel w.
  induction n as [| n IH]; intros rc fuel w Hn Hfuel Hsig.
  - by rewrite Nat.sub_0_r, Nat.add_0_r, after_nil.
  - destruct fuel as [| fuel]; [lia |].
    rewrite retry_loop_S by lia.
    pose proof (Hsig 0%nat ltac:(lia)) as H0.
    cbn [backoff_events seq flat_map] in H0. rewrite after_nil in H0.
    destruct (answer w) as [rows | msg]; [done |]. cbn in H0. rewrite H0.
    rewrite backoff_events_S.
    replace (rc + S n)%nat with (S rc + n)%nat by lia.
    cbn [Nat.sub].
    destruct (Nat.ltb_spec (S rc) max_retries) as [Hlt | Hge].
    + rewrite <- (after_after w (attempt_events ++ [EvSleep (2 ^ S rc * 60)])).
      apply IH; [lia | lia |].
      intros j Hj. specialize (Hsig (S j) ltac:(lia)).
      rewrite backoff_events_S in Hsig.
      apply Nat.ltb_lt in Hlt. rewrite Hlt in Hsig.
      by rewrite after_after.
    + assert (n = 0)%nat as -> by lia.
      rewrite app_nil_r. cbn [backoff_events seq flat_map].
      by rewrite app_nil_r, retry_loop_done by lia.
Qed.

End FetcherFacts.

Section ForTerms.

Variable env : environment.
Variables (geo : string) (year : year_value) (date_range : list date).
Variable max_retries : nat.

Lemma for_terms_cons (term : string) (keywords : list string)
    (all_data : list (list observation)) (w : world) :
  exists (r : keyword_exit) (evs : list event),
    retry_loop env max_retries geo term year date_range max_retries 0 w =
      (Ok r, after w evs) /\
    for_terms env geo year date_range max_retries (term :: keywords) all_data w =
      for_terms env geo year date_range max_retries keywords
        (match r with Appended data => all_data ++ [data] | _ => all_data end)
        (after w evs) /\
    match r with
    | Appended data =>
      (data <> [] \/ date_range = []) /\ Forall (fun o => search_term o = term) data
    | Skipped => True
    | OutOfFuel => False
    end.
Proof.
  destruct (retry_loop_exit env geo term year date_range max_retries
              max_retries 0 w) as (r & evs & Hr & Hne & Hterm); [lia |].
  exists r, evs. split; [done |].
  cbn [for_terms]. unfold bind at 1. rewrite Hr.
  by destruct r.
Qed.

Lemma rows_for_app (term : string) (a b : list observation) :
  rows_for term (a ++ b) = rows_for term a ++ rows_for term b.
Proof. apply filter_app. Qed.

Lemma rows_for_same (term : string) (df : list observation) :
  Forall (fun o => search_term o = term) df -> rows_for term df = df.
Proof.
  unfold rows_for. induction 1 as [| o df Ho _ IH]; [done |].
  by rewrite filter_cons_True, IH.
Qed.

Lemma rows_for_other (term k : string) (df : list observation) :
  k <> term -> Forall (fun o => search_term o = k) df -> rows_for term df = [].
Proof.
  intros Hne. unfold rows_for. induction 1 as [| o df Ho _ IH]; [done |].
  rewrite filter_cons_False; [done | congruence].
Qed.

(** The loop over the keywords always comes back, having added frames to
    [all_data]. *)
Lemma for_terms_returns (keywords : list string)
    (all_data : list (list observation)) (w : world) :
  exists (frames : list (list observation)) (evs : list event),
    for_terms env geo year date_range max_retries keywords all_data w =
      (Ok (all_data ++ frames), after w evs) /\
    Forall (fun f => f <> [] \/ date_range = []) frames.
Proof.
  revert all_data w. induction keywords as [| term keywords IH]; intros acc w.
  - exists [], []. by rewrite app_nil_r, after_nil.
  - destruct (for_terms_cons term keywords acc w) as (r & evs & _ & -> & Hr).
    destruct r as [data | |]; [| | done].
    + destruct (IH (acc ++ [data]) (after w evs)) as (frames & evs' & -> & Hf).
      exists (data :: frames), (evs ++ evs').
      rewrite after_after, <- app_assoc. split; [done |].
      constructor; [apply Hr | done].
    + destruct (IH acc (after w evs)) as (frames & evs' & -> & Hf).
      exists frames, (evs ++ evs'). by rewrite after_after.
Qed.

(** With a source that has no data for [term], the rows about [term] are
    the zero-filled ones, once for its place among the keywords. *)
Lemma for_terms_empty_source (term : string) (keywords : list string)
    (all_data : list (list observation)) (w : world) :
  (0 < max_retries)%nat ->
  (forall h, interest_over_time env h term geo year = Frame []) ->
  NoDup keywords ->
  exists (all : list (list observation)) (evs : list event),
    for_terms env geo year date_range max_retries keywords all_data w =
      (Ok all, after w evs) /\
    rows_for term (concat all) =
      rows_for term (concat all_data) ++
      if decide (term ∈ keywords) then zero_fill term date_range else [].
Proof.
  intros Hmax Hsrc. revert all_data w.
  induction keywords as [| k keywords IH]; intros acc w Hnd.
  - exists acc, []. rewrite after_nil. split; [done |].
    rewrite decide_False by apply not_elem_of_nil. by rewrite app_nil_r.
  - apply NoDup_cons in Hnd as [Hk Hnd].
    destruct (for_terms_cons k keywords acc w) as (r & evs & Hloop & -> & Hr).
    destruct (decide (k = term)) as [-> | Hne].
    + destruct max_retries as [| m]; [lia |].
      rewrite retry_loop_S in Hloop by lia.
      unfold answer in Hloop. rewrite Hsrc in Hloop.
      injection Hloop as <- Hevs.
      destruct (IH (acc ++ [zero_fill term date_range]) (after w evs) Hnd)
        as (all & evs' & -> & Hall).
      exists all, (evs ++ evs'). rewrite after_after. split; [done |].
      rewrite Hall, decide_False by done.
      rewrite decide_True by apply list_elem_of_here.
      rewrite concat_app, rows_for_app. cbn [concat].
      rewrite !app_nil_r. f_equal.
      apply rows_for_same. unfold zero_fill. by apply Forall_fmap, Forall_true.
    + assert (Hdec : (if decide (term ∈ k :: keywords)
                      then zero_fill term date_range else []) =
                     (if decide (term ∈ keywords)
                      then zero_fill term date_range else [])).
      { destruct (decide (term ∈ keywords)) as [Hin | Hnin].
        - rewrite decide_True; [done | by apply list_elem_of_further].
        - rewrite decide_False; [done |].
          intros [?|?]%elem_of_cons; congruence. }
      rewrite Hdec.
      destruct r as [data | |]; [| | done].
      * destruct (IH (acc ++ [data]) (after w evs) Hnd)
          as (all & evs' & -> & Hall).
        exists all, (evs ++ evs'). rewrite after_after. split; [done |].
        rewrite Hall, concat_app, rows_for_app. cbn [concat].
        rewrite app_nil_r, (rows_for_other term k data), app_nil_r;
          [done | done | apply Hr].
      * destruct (IH acc (after w evs) Hnd) as (all & evs' & -> & Hall).
        exists all, (evs ++ evs'). by rewrite after_after.
Qed.

End ForTerms.

(** With the year read as a calendar year: when the service has no data
    for a keyword, the fetcher returns, and its rows for that keyword carry
    each week-ending Sunday of the year exactly once, every one with value
    zero. *)
Lemma empty_source_calendar_year (env : environment) (geo : string)
    (keywords : list string) (y : Z) (max_retries : nat) (term : string)
    (w : world) :
  (0 < max_retries)%nat ->
  term ∈ keywords ->
  NoDup keywords ->
  trend_req env (effects w) = None ->
  (forall h, interest_over_time env h term geo (YearInt y) = Frame []) ->
  exists (df : list observation) (w' : world),
    fetch_city_trends env geo keywords (YearInt y) max_retries w = (Ok df, w') /\
    NoDup (map date_of (rows_for term df)) /\
    (forall d, d ∈ map date_of (rows_for term df) <-> week_ending_sunday y d) /\
    Forall (fun o => search_count o = 0) (rows_for term df).
Proof.
  intros Hmax Hin Hnd Hsession Hsrc.
  set (dr := date_range_W_SUN (ymd_to_ordinal y 1 1) (ymd_to_ordinal y 12 31)).
  destruct (for_terms_empty_source env geo (YearInt y) dr max_retries term
              keywords [] (after w [EvSession]) Hmax Hsrc Hnd)
    as (all & evs & Hrun & Hrows).
  rewrite decide_True in Hrows by done.
  change (rows_for term (concat [])) with (@nil observation) in Hrows.
  cbn [app] in Hrows.
  exists (concat all), (after (after w [EvSession]) evs). split.
  { unfold fetch_city_trends, bind, TrendReq. rewrite Hsession.
    cbn [pd_date_range]. unfold ret at 1. fold dr. rewrite Hrun.
    by destruct all. }
  rewrite Hrows. unfold zero_fill. rewrite map_map. cbn [date_of].
  rewrite map_id. split; [apply CalendarFacts.NoDup_date_range |]. split.
  - intros d. unfold week_ending_sunday, in_year.
    rewrite CalendarFacts.sunday_iff. unfold dr.
    rewrite CalendarFacts.elem_of_date_range.
    rewrite CalendarFacts.jan1, CalendarFacts.dec31. lia.
  - by apply Forall_fmap, Forall_true.
Qed.

(** C3. Retry bound: when every attempt at a keyword is answered by a
    rate-limit signal, the fetcher makes exactly [max_retries] attempts at
    it, adds nothing to the collected frames, and goes on with the keywords
    that are left; the loop over the keywords then comes back without an
    exception. *)
Theorem rate_limited_keyword_is_skipped (env : environment) (geo term : string)
    (year : year_value) (date_range : list date) (max_retries : nat)
    (keywords : list string) (all_data : list (list observation)) (w : world) :
  (forall h, rate_limit_signal (interest_over_time env h term geo year) = true) ->
  let evs := backoff_events geo term year max_retries 0 max_retries in
  retry_loop env max_retries geo term year date_range max_retries 0 w =
    (Ok Skipped, after w evs) /\
  attempts evs = max_retries /\
  for_terms env geo year date_range max_retries (term :: keywords) all_data w =
    for_terms env geo year date_range max_retries keywords all_data (after w evs) /\
  exists (all : list (list observation)) (w' : world),
    for_terms env geo year date_range max_retries (term :: keywords) all_data w =
      (Ok all, w').
Proof.
  intros Hsig evs.
  assert (Hloop : retry_loop env max_retries geo term year date_range
                    max_retries 0 w = (Ok Skipped, after w evs)).
  { rewrite (retry_loop_backoff env geo term year date_range max_retries
               max_retries 0 max_retries w); [| lia | lia |].
    - by rewrite retry_loop_done by lia.
    - intros j _. apply Hsig. }
  split; [done |]. split; [apply attempts_backoff_events |].
  assert (Hcont : for_terms env geo year date_range max_retries
                    (term :: keywords) all_data w =
                  for_terms env geo year date_range max_retries keywords
                    all_data (after w evs)).
  { cbn [for_terms]. unfold bind at 1. by rewrite Hloop. }
  split; [done |]. rewrite Hcont.
  destruct (for_terms_returns env geo year date_range max_retries keywords
              all_data (after w evs)) as (frames & evs' & -> & _).
  eauto.
Qed.

Lemma rate_limited_keyword_is_skipped_witness :
  let evs := backoff_events "US-A" "X" (YearInt 2023) 3 0 3 in
  retry_loop throttling 3 "US-A" "X" (YearInt 2023) [] 3 0 fresh =
    (Ok Skipped, after fresh evs) /\
  attempts evs = 3%nat /\
  for_terms throttling "US-A" (YearInt 2023) [] 3 ["X"; "Y"] [] fresh =
    for_terms throttling "US-A" (YearInt 2023) [] 3 ["Y"] [] (after fresh evs) /\
  exists (all : list (list observation)) (w' : world),
    for_terms throttling "US-A" (YearInt 2023) [] 3 ["X"; "Y"] [] fresh = (Ok all, w').
Proof.
  apply (rate_limited_keyword_is_skipped throttling "US-A" "X" (YearInt 2023) []
           3 ["Y"] [] fresh).
  intros h. reflexivity.
Defined.

(** C8. Backoff schedule: while the attempts at a keyword are answered by
    rate-limit signals, attempt number [a] is followed by a wait of exactly
    [2 ^ a * 60] before attempt [a + 1] starts; once [max_retries] attempts
    have been used up the keyword is left out and the fetcher goes on with
    the next keyword. *)
Theorem backoff_schedule (env : environment) (geo term : string)
    (year : year_value) (date_range : list date) (max_retries k : nat)
    (keywords : list string) (all_data : list (list observation)) (w : world) :
  (k <= max_retries)%nat ->
  (forall j, (j < k)%nat ->
     rate_limit_signal
       (answer env geo term year
          (after w (backoff_events geo term year max_retries 0 j))) = true) ->
  retry_loop env max_retries geo term year date_range max_retries 0 w =
    retry_loop env (max_retries - k) geo term year date_range max_retries k
      (after w (backoff_events geo term year max_retries 0 k)) /\
  (forall a, (a < k)%nat -> (S a < max_retries)%nat ->
     backoff_events geo term year max_retries 0 (S a) =
       backoff_events geo term year max_retries 0 a ++
       attempt_events geo term year ++ [EvSleep (2 ^ S a * 60)]) /\
  (k = max_retries ->
   for_terms env geo year date_range max_retries (term :: keywords) all_data w =
     for_terms env geo year date_range max_retries keywords all_data
       (after w (backoff_events geo term year max_retries 0 max_retries))).
Proof.
  intros Hk Hsig.
  assert (Hloop : retry_loop env max_retries geo term year date_range
                    max_retries 0 w =
                  retry_loop env (max_retries - k) geo term year date_range
                    max_retries k
                    (after w (backoff_events geo term year max_retries 0 k))).
  { by apply (retry_loop_backoff env geo term year date_range max_retries
                k 0 max_retries w); [lia | lia |]. }
  split; [done |]. split.
  - intros a _ Ha. unfold backoff_events.
    rewrite seq_S, flat_map_app. cbn [flat_map].
    apply Nat.ltb_lt in Ha. cbn [Nat.add]. rewrite Ha.
    by rewrite app_nil_r.
  - intros ->. cbn [for_terms]. unfold bind at 1. rewrite Hloop.
    by rewrite retry_loop_done by lia.
Qed.

Lemma backoff_schedule_witness :
  retry_loop throttling 3 "US-A" "X" (YearInt 2023) [] 3 0 fresh =
    retry_loop throttling (3 - 2) "US-A" "X" (YearInt 2023) [] 3 2
      (after fresh (backoff_events "US-A" "X" (YearInt 2023) 3 0 2)) /\
  (forall a, (a < 2)%nat -> (S a < 3)%nat ->
     backoff_events "US-A" "X" (YearInt 2023) 3 0 (S a) =
       backoff_events "US-A" "X" (YearInt 2023) 3 0 a ++
       attempt_events "US-A" "X" (YearInt 2023) ++ [EvSleep (2 ^ S a * 60)]) /\
  (2%nat = 3%nat ->
   for_terms throttling "US-A" (YearInt 2023) [] 3 ["X"; "Y"] [] fresh =
     for_terms throttling "US-A" (YearInt 2023) [] 3 ["Y"] []
       (after fresh (backoff_events "US-A" "X" (YearInt 2023) 3 0 3))).
Proof.
  apply (backoff_schedule throttling "US-A" "X" (YearInt 2023) [] 3 2 ["Y"] [] fresh).
  - lia.
  - intros j _. reflexivity.
Defined.

(** The schedule for the default of three attempts: waits of 120 and 240
    after the first and second attempt, none after the third. *)
Example backoff_events_default :
  backoff_events "US-A" "X" (YearInt 2023) 3 0 3 =
  [EvSleepUniform 15 30; EvQuery "X" "US-A" (YearInt 2023); EvSleep 120;
   EvSleepUniform 15 30; EvQuery "X" "US-A" (YearInt 2023); EvSleep 240;
   EvSleepUniform 15 30; EvQuery "X" "US-A" (YearInt 2023)].
Proof. reflexivity. Qed.

(** ** The progress tracker and the run driver *)

Section DriverFacts.

Variable env : environment.
Variable cfg : config.

Lemma get_completed_cities_world (w : world) :
  snd (get_completed_cities w) = w.
Proof.
  unfold get_completed_cities.
  destruct (fs w) as [[| msg | first rest] |]; cbn; try done.
  by destruct (column_index "geo_code" first).
Qed.

Lemma get_completed_cities_fs (w w' : world) :
  fs w = fs w' ->
  fst (get_completed_cities w) = fst (get_completed_cities w').
Proof.
  unfold get_completed_cities. intros <-.
  destruct (fs w) as [[| msg | first rest] |]; cbn; try done.
  by destruct (column_index "geo_code" first).
Qed.

Lemma get_completed_cities_ok (w : world) :
  checkpoint_ok (fs w) ->
  get_completed_cities w =
    (Ok (list_to_set (column 7 (table_rows (fs w)))), w).
Proof.
  unfold get_completed_cities, checkpoint_ok.
  destruct (fs w) as [[| msg | first rest] |]; try done.
  by intros ->.
Qed.

(** The fetcher leaves the file alone; it raises only before the first
    keyword, and with an integer year only when the session cannot be
    opened. *)
Lemma fetch_city_trends_cases (geo : string) (keywords : list string)
    (year : year_value) (max_retries : nat) (w : world) :
  exists evs : list event,
    (exists e, fetch_city_trends env geo keywords year max_retries w =
                 (Raise e, after w evs) /\
               (trend_req env (effects w) = None -> exists ys, year = YearTuple ys)) \/
    (exists df y, year = YearInt y /\
                  trend_req env (effects w) = None /\
                  fetch_city_trends env geo keywords year max_retries w =
                    (Ok df, after w evs)).
Proof.
  unfold fetch_city_trends, bind, TrendReq.
  destruct (trend_req env (effects w)) as [msg |].
  { exists [EvSession]. left. exists (Error msg). by split. }
  destruct year as [y | ys]; cbn [pd_date_range].
  - destruct (for_terms_returns env geo (YearInt y)
                (date_range_W_SUN (ymd_to_ordinal y 1 1) (ymd_to_ordinal y 12 31))
                max_retries keywords [] (after w [EvSession]))
      as (frames & evs & Hrun & _).
    exists ([EvSession] ++ evs). right. exists (concat frames), y.
    split; [done |]. split; [done |].
    unfold ret at 1. rewrite Hrun, after_after. cbn [app].
    by destruct frames.
  - exists [EvSession]. left. eexists. split; [done | eauto].
Qed.

Lemma zip_with_replicate_r {A B C} (f : A -> B -> C) (l : list A) (b : B) :
  zip_with f l (replicate (length l) b) = map (fun a => f a b) l.
Proof. induction l as [| a l IH]; [done |]. cbn. by rewrite IH. Qed.

(** What one turn of the main loop's [try] block does to the file. *)
Lemma process_city_cases (row : city) (w : world) :
  exists evs : list event,
    (exists e, process_city env cfg row w = (Raise e, after w evs)) \/
    process_city env cfg row w = (Ok None, after w evs) \/
    (exists y df evs0,
       YEAR cfg = YearInt y /\ df <> [] /\
       fetch_city_trends env (geo_code row) (SEARCH_TERMS cfg) (YEAR cfg)
         default_max_retries w = (Ok df, after w evs0) /\
       process_city env cfg row w =
         (Ok (Some (length df)),
          World (append_lines
                   ((if bool_decide (is_Some (fs w)) then [] else [cols]) ++
                    saved_rows row y df) (fs w))
                (effects w ++ evs))).
Proof.
  unfold process_city, bind.
  destruct (fetch_city_trends_cases (geo_code row) (SEARCH_TERMS cfg) (YEAR cfg)
              default_max_retries w)
    as (evs & [(e & -> & _) | (df & y & Hy & _ & Hfetch)]).
  { exists evs. left. by exists e. }
  rewrite Hfetch. destruct df as [| o df].
  { exists (evs ++ [EvSleepUniform 30 60]). right. left.
    unfold ret, sleep_uniform, emit. by rewrite after_after. }
  exists (evs ++ [EvToCsv (length (o :: df)) (negb (bool_decide (is_Some (fs w))));
                  EvSleepUniform 30 60]).
  right. right. exists y, (o :: df), evs.
  split; [done |]. split; [done |]. split; [done |].
  rewrite Hy. unfold year_column, ret, os_path_exists, to_csv,
    sleep_uniform, emit, after.
  cbn [fs effects]. rewrite zip_with_replicate_r, length_map.
  unfold saved_rows. rewrite <- !app_assoc. cbn [app].
  by destruct (bool_decide (is_Some (fs w))).
Qed.

(** A turn whose fetch brings rows. *)
Lemma process_city_saved (row : city) (w : world) (y : Z)
    (df : list observation) (evs : list event) :
  YEAR cfg = YearInt y ->
  df <> [] ->
  fetch_city_trends env (geo_code row) (SEARCH_TERMS cfg) (YEAR cfg)
    default_max_retries w = (Ok df, after w evs) ->
  process_city env cfg row w =
    (Ok (Some (length df)),
     World (append_lines
              ((if bool_decide (is_Some (fs w)) then [] else [cols]) ++
               saved_rows row y df) (fs w))
           (effects w ++ evs ++
            [EvToCsv (length df) (negb (bool_decide (is_Some (fs w))));
             EvSleepUniform 30 60])).
Proof.
  intros Hy Hdf Hfetch. unfold process_city, bind. rewrite Hfetch.
  destruct df as [| o df]; [done |].
  rewrite Hy. unfold year_column, ret, os_path_exists, to_csv,
    sleep_uniform, emit, after.
  cbn [fs effects]. rewrite zip_with_replicate_r, length_map.
  unfold saved_rows. rewrite <- !app_assoc. cbn [app].
  by destruct (bool_decide (is_Some (fs w))).
Qed.

(** A turn that raises has not touched the file. *)
Lemma process_city_raise_fs (row : city) (w w1 : world) (e : exn) :
  process_city env cfg row w = (Raise e, w1) -> fs w1 = fs w.
Proof.
  destruct (process_city_cases row w)
    as (evs & [(e' & ->) | [-> | (y & df & evs0 & _ & _ & _ & ->)]]);
    [| done | done].
  by intros [= _ <-].
Qed.

Lemma process_city_no_data_fs (row : city) (w w1 : world) :
  process_city env cfg row w = (Ok None, w1) -> fs w1 = fs w.
Proof.
  destruct (process_city_cases row w)
    as (evs & [(e' & ->) | [-> | (y & df & evs0 & _ & _ & _ & ->)]]);
    [done | | done].
  by intros [= <-].
Qed.

Lemma process_city_saved_fs (row : city) (w w1 : world) (n : nat) :
  process_city env cfg row w = (Ok (Some n), w1) ->
  exists y df w0,
    YEAR cfg = YearInt y /\ df <> [] /\ n = length df /\
    fetch_city_trends env (geo_code row) (SEARCH_TERMS cfg) (YEAR cfg)
      default_max_retries w = (Ok df, w0) /\
    fs w1 = append_lines
              ((if bool_decide (is_Some (fs w)) then [] else [cols]) ++
               saved_rows row y df) (fs w).
Proof.
  destruct (process_city_cases row w)
    as (evs & [(e' & ->) | [-> | (y & df & evs0 & Hy & Hdf & Hfetch & ->)]]);
    [done | done |].
  intros [= <- <-]. exists y, df, (after w evs0). by repeat split.
Qed.

(** The main loop, read as a pass. *)
Lemma main_loop_batch_run (cities : list city) (t : tally) (w : world) :
  exists (os : list (city * city_outcome)) (w' : world),
    batch_run env cfg cities w os w' /\
    main_loop env cfg cities t w =
      (Ok (Tally (successful_cities t + length (filter (fun o => is_saved (snd o) = true) os))
                 (failed_cities t + length (filter (fun o => is_saved (snd o) = false) os))
                 (outcomes t ++ os)),
       w').
Proof.
  revert t w. induction cities as [| row cities IH]; intros t w.
  - exists [], w. split; [constructor |].
    cbn. destruct t. by rewrite !Nat.add_0_r, app_nil_r.
  - cbn [main_loop]. unfold bind at 1, try_.
    destruct (process_city env cfg row w) as [[[n |] | e] w1] eqn:Hstep.
    + destruct (IH (Tally (S (successful_cities t)) (failed_cities t)
                       (outcomes t ++ [(row, Saved n)])) w1)
        as (os & w' & Hrun & ->).
      exists ((row, Saved n) :: os), w'. split; [by econstructor |].
      cbn [successful_cities failed_cities outcomes].
      rewrite filter_cons_True, filter_cons_False by done.
      cbn [length]. rewrite <- app_assoc. cbn [app].
      do 3 f_equal; lia.
    + destruct (IH (Tally (successful_cities t) (S (failed_cities t))
                       (outcomes t ++ [(row, NoData)])) w1)
        as (os & w' & Hrun & ->).
      exists ((row, NoData) :: os), w'. split; [by econstructor |].
      cbn [successful_cities failed_cities outcomes].
      rewrite filter_cons_False, filter_cons_True by done.
      cbn [length]. rewrite <- app_assoc. cbn [app].
      do 3 f_equal; lia.
    + exists [(row, CriticalFailure e)], w1. split; [by econstructor |].
      unfold ret. cbn. by rewrite Nat.add_0_r, Nat.add_1_r.
Qed.

End DriverFacts.

Section BatchRun.

Variable env : environment.
Variable cfg : config.

(** The cities attempted are an initial segment of the batch. *)
Lemma batch_run_attempted (cities : list city) (w w' : world)
    (os : list (city * city_outcome)) :
  batch_run env cfg cities w os w' ->
  map fst os = take (length os) cities /\
  (Forall (fun o => is_critical (snd o) = false) os -> map fst os = cities).
Proof.
  induction 1 as [w | row cities w w1 w' n os Hstep Hrun [IH1 IH2]
                    | row cities w w1 w' os Hstep Hrun [IH1 IH2]
                    | row cities w w1 e Hstep].
  - done.
  - cbn. rewrite <- IH1. split; [done |].
    intros [_ Hos]%Forall_cons. by rewrite IH2.
  - cbn. rewrite <- IH1. split; [done |].
    intros [_ Hos]%Forall_cons. by rewrite IH2.
  - cbn. rewrite take_0. split; [done |]. by intros [? _]%Forall_cons.
Qed.

Lemma append_lines_text (new : list line) (f : option file) :
  text_lines f `prefix_of` text_lines (append_lines new f).
Proof.
  destruct f as [[| msg | first rest] |], new as [| l ls]; cbn;
    try apply prefix_nil; try done.
  - rewrite app_nil_r. done.
  - apply prefix_cons, prefix_app_r. done.
Qed.

End BatchRun.

(** C7. The progress tracker returns the empty set, without raising and
    without touching anything, when the checkpoint is absent, is a file of
    zero bytes, or is a table without a [geo_code] column; the run then goes
    on to its batch, which is the head of the whole catalog, and the main
    loop over it comes back. *)
Theorem no_usable_progress_starts_afresh (env : environment) (cfg : config)
    (df_cities : list city) (w : world) :
  no_usable_progress (fs w) ->
  get_completed_cities w = (Ok ∅, w) /\
  main env cfg df_cities w = run_batch env cfg df_cities ∅ w /\
  cities_to_process cfg df_cities ∅ = head (MAX_CITIES_PER_RUN cfg) df_cities /\
  exists (t : tally) (w' : world),
    main_loop env cfg (cities_to_process cfg df_cities ∅) (Tally 0 0 []) w =
      (Ok t, w').
Proof.
  intros Hw.
  assert (Hdone : get_completed_cities w = (Ok ∅, w)).
  { unfold get_completed_cities, no_usable_progress in *.
    destruct (fs w) as [[| msg | first rest] |]; try done.
    cbn. by rewrite Hw. }
  split; [done |]. split; [unfold main, bind; by rewrite Hdone |]. split.
  - unfold cities_to_process, remaining_cities. f_equal.
    induction df_cities as [| c cs IH]; [done |].
    rewrite filter_cons_True by set_solver. by rewrite IH.
  - destruct (main_loop_batch_run env cfg (cities_to_process cfg df_cities ∅)
                (Tally 0 0 []) w) as (os & w' & _ & ->).
    eauto.
Qed.

Lemma no_usable_progress_starts_afresh_witness :
  get_completed_cities (World (Some Blank) []) = (Ok ∅, World (Some Blank) []) /\
  main silent (one_keyword 2) [city_a; city_b; city_c] (World (Some Blank) []) =
    run_batch silent (one_keyword 2) [city_a; city_b; city_c] ∅
      (World (Some Blank) []) /\
  cities_to_process (one_keyword 2) [city_a; city_b; city_c] ∅ =
    head (MAX_CITIES_PER_RUN (one_keyword 2)) [city_a; city_b; city_c] /\
  exists (t : tally) (w' : world),
    main_loop silent (one_keyword 2)
      (cities_to_process (one_keyword 2) [city_a; city_b; city_c] ∅)
      (Tally 0 0 []) (World (Some Blank) []) = (Ok t, w').
Proof.
  apply (no_usable_progress_starts_afresh silent (one_keyword 2)
           [city_a; city_b; city_c] (World (Some Blank) [])).
  exact I.
Defined.

(** The three shapes of a checkpoint without usable progress. *)
Example no_usable_progress_shapes :
  no_usable_progress None /\ no_usable_progress (Some Blank) /\
  no_usable_progress (Some (Lines [CStr "date"; CStr "search_term"] [])).
Proof. repeat split. Qed.

(** The tracker raises exactly when the parser rejects the file. *)
Lemma get_completed_cities_raises (w : world) (e : exn) :
  fst (get_completed_cities w) = Raise e <->
  exists msg, fs w = Some (Garbled msg) /\ e = ParserError msg.
Proof.
  unfold get_completed_cities.
  destruct (fs w) as [[| msg | first rest] |]; cbn.
  - split; [done | by intros (? & ? & _)].
  - split; [intros [= <-]; eauto | by intros (? & [= ->] & ->)].
  - destruct (column_index "geo_code" first); cbn;
      (split; [done | by intros (? & ? & _)]).
  - split; [done | by intros (? & ? & _)].
Qed.

(** C10. Only the empty-file error is absorbed: when the checkpoint exists
    and the parser rejects it for another reason, the error leaves the
    progress tracker and the run ends with it, the world as it was: no
    session, no query, no write. *)
Theorem unreadable_checkpoint_stops_the_run (env : environment) (cfg : config)
    (df_cities : list city) (w : world) (msg : string) :
  fs w = Some (Garbled msg) ->
  get_completed_cities w = (Raise (ParserError msg), w) /\
  main env cfg df_cities w = (Raise (ParserError msg), w).
Proof.
  intros Hw.
  assert (Hdone : get_completed_cities w = (Raise (ParserError msg), w)).
  { unfold get_completed_cities. by rewrite Hw. }
  split; [done |]. unfold main, bind. by rewrite Hdone.
Qed.

Lemma unreadable_checkpoint_stops_the_run_witness :
  get_completed_cities (World (Some (Garbled "Error tokenizing data")) []) =
    (Raise (ParserError "Error tokenizing data"),
     World (Some (Garbled "Error tokenizing data")) []) /\
  main silent (one_keyword 2) [city_a; city_b; city_c]
       (World (Some (Garbled "Error tokenizing data")) []) =
    (Raise (ParserError "Error tokenizing data"),
     World (Some (Garbled "Error tokenizing data")) []).
Proof.
  apply (unreadable_checkpoint_stops_the_run silent (one_keyword 2)
           [city_a; city_b; city_c]
           (World (Some (Garbled "Error tokenizing data")) [])
           "Error tokenizing data").
  reflexivity.
Defined.

(** With the configuration as the source has it, the year is a tuple and
    the first city of every batch ends the run. *)
Example shipped_configuration_stops_at_first_city :
  exists e,
    main_loop silent shipped [city_a; city_b; city_c] (Tally 0 0 []) fresh =
      (Ok (Tally 0 1 [(city_a, CriticalFailure e)]), World None [EvSession]).
Proof. eexists. reflexivity. Qed.

(** ** A first run over a silent source *)

Lemma fetch_one_keyword_empty (env : environment) (geo term : string) (y : Z)
    (max_retries : nat) (w : world) :
  (0 < max_retries)%nat ->
  trend_req env (effects w) = None ->
  (forall h, interest_over_time env h term geo (YearInt y) = Frame []) ->
  fetch_city_trends env geo [term] (YearInt y) max_retries w =
    (Ok (zero_fill term
           (date_range_W_SUN (ymd_to_ordinal y 1 1) (ymd_to_ordinal y 12 31))),
     after w (EvSession :: attempt_events geo term (YearInt y))).
Proof.
  intros Hmax Hsession Hsrc.
  unfold fetch_city_trends, bind, TrendReq. rewrite Hsession.
  cbn [pd_date_range for_terms]. unfold ret at 1. unfold bind.
  destruct max_retries as [| m]; [lia |].
  rewrite retry_loop_S by lia. unfold answer. rewrite Hsrc.
  cbn [app]. unfold ret. cbn [concat]. by rewrite after_after, app_nil_r.
Qed.

Lemma sundays_of_2023 :
  date_range_W_SUN (ymd_to_ordinal 2023 1 1) (ymd_to_ordinal 2023 12 31) =
  map (fun k => 738521 + 7 * Z.of_nat k) (seq 0 53).
Proof. reflexivity. Qed.

Lemma column_saved_rows (row : city) (y : Z) (df : list observation) :
  column 7 (saved_rows row y df) = map (fun _ => CStr (geo_code row)) df.
Proof.
  unfold column, saved_rows.
  induction df as [| o df IH]; [done |]. cbn. by rewrite IH.
Qed.

Lemma list_to_set_constant {A} (c : cell) (l : list A) :
  l <> [] -> list_to_set (map (fun _ => c) l) =@{gset cell} {[c]}.
Proof.
  intros Hl. apply set_eq. intros x.
  rewrite elem_of_list_to_set, elem_of_singleton. split.
  - by intros (a & -> & _)%list_elem_of_fmap.
  - intros ->. destruct l as [| a l]; [done |]. cbn. apply list_elem_of_here.
Qed.

(** C1. End to end: a checkpoint that does not exist yet, a catalog of the
    one city US-A at latitude 40 and longitude -70, the one keyword X, the
    year 2023, a quota of at least one, and a source that has no data for X.
    One run creates the checkpoint with the header and 53 rows, one for each
    week-ending Sunday of 2023 and no two for the same week, all of them with
    count 0, keyword X and code US-A; the set of completed codes is then
    {US-A}. *)
Theorem first_run_zero_fills_the_year (env : environment) (w : world)
    (name land state : string) (quota : nat) :
  fs w = None ->
  (0 < quota)%nat ->
  (forall h, trend_req env h = None) ->
  (forall h, interest_over_time env h "X" "US-A" (YearInt 2023) = Frame []) ->
  let us_a := City "US-A" name land state (Q2Qc (40 # 1)) (Q2Qc (-70 # 1)) in
  exists (s : summary) (w' : world) (rows : list line),
    main env (Config (YearInt 2023) ["X"] quota) [us_a] w = (Ok s, w') /\
    fs w' = Some (Lines cols rows) /\
    length rows = 53%nat /\
    NoDup (map row_key rows) /\
    (forall d, week_ending_sunday 2023 d <->
               exists r, r ∈ rows /\ r !! 0%nat = Some (CDate d)) /\
    Forall (fun r => r !! 5%nat = Some (CInt 0) /\
                     r !! 8%nat = Some (CStr "X") /\
                     r !! 7%nat = Some (CStr "US-A")) rows /\
    get_completed_cities w' = (Ok {[CStr "US-A"]}, w') /\
    outcomes (run s) = [(us_a, Saved 53)].
Proof.
  intros Hfs Hquota Hsession Hsrc us_a.
  set (cfg := Config (YearInt 2023) ["X"] quota).
  set (dr := date_range_W_SUN (ymd_to_ordinal 2023 1 1) (ymd_to_ordinal 2023 12 31)).
  set (rows := saved_rows us_a 2023 (zero_fill "X" dr)).
  set (w1 := World (Some (Lines cols rows))
                   (effects w ++ EvSession :: attempt_events "US-A" "X" (YearInt 2023) ++
                    [EvToCsv 53 true; EvSleepUniform 30 60])).
  assert (Hstep : process_city env cfg us_a w = (Ok (Some 53%nat), w1)).
  { rewrite (process_city_saved env cfg us_a w 2023 (zero_fill "X" dr)
               (EvSession :: attempt_events "US-A" "X" (YearInt 2023)));
      [| done | by unfold dr; rewrite sundays_of_2023 |].
    - rewrite Hfs. reflexivity.
    - apply fetch_one_keyword_empty; [unfold default_max_retries; lia | done..]. }
  assert (Hdone1 : get_completed_cities w1 = (Ok {[CStr "US-A"]}, w1)).
  { rewrite get_completed_cities_ok by done. cbn [fs w1 table_rows].
    unfold rows. rewrite column_saved_rows, list_to_set_constant; [done |].
    unfold dr. rewrite sundays_of_2023. done. }
  exists (Summary (Tally 1 0 [(us_a, Saved 53)]) 1 0), w1, rows.
  split.
  { assert (Hbatch : cities_to_process cfg [us_a] ∅ = [us_a]).
    { unfold cities_to_process, remaining_cities, head.
      rewrite filter_cons_True, filter_nil by set_solver.
      destruct quota as [| q]; [lia |]. cbn. by rewrite take_nil. }
    unfold main, bind at 1, get_completed_cities. rewrite Hfs.
    unfold run_batch. rewrite Hbatch.
    unfold bind at 1. cbn [main_loop]. unfold bind at 1, try_.
    rewrite Hstep. unfold ret at 1.
    unfold bind. rewrite Hdone1. unfold ret.
    rewrite size_singleton. reflexivity. }
  split; [done |].
  assert (Hdates : map (fun r : line => r !! 0%nat) rows =
                   map (fun d => Some (CDate d)) dr).
  { unfold rows, saved_rows, zero_fill. rewrite !map_map. done. }
  split; [unfold rows, saved_rows, zero_fill; by rewrite !length_map |].
  split.
  { unfold rows, saved_rows, zero_fill. rewrite !map_map.
    cbn [row_key attach date_of search_term lookup list_lookup].
    apply NoDup_fmap_2; [by intros a b [=] | apply CalendarFacts.NoDup_date_range]. }
  split.
  { intros d. unfold week_ending_sunday, in_year.
    rewrite CalendarFacts.sunday_iff.
    transitivity (d ∈ dr).
    - unfold dr. rewrite CalendarFacts.elem_of_date_range,
        CalendarFacts.jan1, CalendarFacts.dec31. lia.
    - split.
      + intros Hd. exists (attach us_a (Observation d "X" 0) (CInt 2023)).
        split; [| done]. unfold rows, saved_rows, zero_fill. rewrite map_map.
        apply list_elem_of_fmap. eauto.
      + intros (r & Hr & Hr0). unfold rows, saved_rows, zero_fill in Hr.
        rewrite map_map in Hr. apply list_elem_of_fmap in Hr as (d' & -> & Hd').
        cbn in Hr0. by injection Hr0 as <-. }
  split.
  { unfold rows, saved_rows, zero_fill. rewrite map_map.
    apply Forall_fmap, Forall_true. done. }
  done.
Qed.

Lemma first_run_zero_fills_the_year_witness :
  exists (s : summary) (w' : world) (rows : list line),
    main silent (Config (YearInt 2023) ["X"] 50)
         [City "US-A" "Alpha" "US" "NY" (Q2Qc (40 # 1)) (Q2Qc (-70 # 1))] fresh =
      (Ok s, w') /\
    fs w' = Some (Lines cols rows) /\
    length rows = 53%nat /\
    NoDup (map row_key rows) /\
    (forall d, week_ending_sunday 2023 d <->
               exists r, r ∈ rows /\ r !! 0%nat = Some (CDate d)) /\
    Forall (fun r => r !! 5%nat = Some (CInt 0) /\
                     r !! 8%nat = Some (CStr "X") /\
                     r !! 7%nat = Some (CStr "US-A")) rows /\
    get_completed_cities w' = (Ok {[CStr "US-A"]}, w') /\
    outcomes (run s) =
      [(City "US-A" "Alpha" "US" "NY" (Q2Qc (40 # 1)) (Q2Qc (-70 # 1)), Saved 53)].
Proof.
  apply (first_run_zero_fills_the_year silent fresh "Alpha" "US" "NY" 50).
  - reflexivity.
  - lia.
  - intros h. reflexivity.
  - intros h. reflexivity.
Defined.

(** ** What a run leaves in a well-formed checkpoint *)

Section Checkpoint.

Variable env : environment.
Variable cfg : config.

Lemma append_saved_rows (row : city) (y : Z) (df : list observation)
    (f : option file) :
  checkpoint_ok f ->
  let f' := append_lines
              ((if bool_decide (is_Some f) then [] else [cols]) ++
               saved_rows row y df) f in
  checkpoint_ok f' /\ table_rows f' = table_rows f ++ saved_rows row y df.
Proof.
  destruct f as [[| msg | first rest] |]; cbn; try done.
Qed.

(** The rows a pass adds each carry the code of a city it saved. *)
Lemma batch_run_store (cities : list city) (w w' : world)
    (os : list (city * city_outcome)) :
  batch_run env cfg cities w os w' ->
  checkpoint_ok (fs w) ->
  checkpoint_ok (fs w') /\
  exists new : list line,
    table_rows (fs w') = table_rows (fs w) ++ new /\
    Forall (fun l => exists c n, (c, Saved n) ∈ os /\
                                 l !! 7%nat = Some (CStr (geo_code c))) new.
Proof.
  induction 1 as [w | row cities w w1 w' n os Hstep Hrun IH
                    | row cities w w1 w' os Hstep Hrun IH
                    | row cities w w1 e Hstep]; intros Hok.
  - split; [done |]. exists []. by rewrite app_nil_r.
  - destruct (process_city_saved_fs env cfg row w w1 n Hstep)
      as (y & df & w0 & _ & _ & _ & _ & Hfs).
    destruct (append_saved_rows row y df (fs w) Hok) as [Hok1 Hrows1].
    rewrite <- Hfs in Hok1, Hrows1.
    destruct (IH Hok1) as (Hok' & new & Hrows & Hnew).
    split; [done |]. exists (saved_rows row y df ++ new).
    rewrite Hrows, Hrows1, <- app_assoc. split; [done |].
    apply Forall_app. split.
    + unfold saved_rows. apply Forall_fmap, Forall_true. intros o.
      exists row, n. split; [apply list_elem_of_here | done].
    + eapply Forall_impl; [exact Hnew |].
      intros l (c & m & Hc & Hl). exists c, m.
      split; [by apply list_elem_of_further | done].
  - apply process_city_no_data_fs in Hstep. rewrite Hstep in IH.
    destruct (IH Hok) as (Hok' & new & Hrows & Hnew).
    split; [done |]. exists new. split; [done |].
    eapply Forall_impl; [exact Hnew |].
    intros l (c & m & Hc & Hl). exists c, m.
    split; [by apply list_elem_of_further | done].
  - apply process_city_raise_fs in Hstep. rewrite Hstep.
    split; [done |]. exists []. by rewrite app_nil_r.
Qed.

Lemma elem_of_column (i : nat) (rows : list line) (c : cell) :
  c ∈ column i rows <-> exists l, l ∈ rows /\ l !! i = Some c.
Proof. unfold column. apply list_elem_of_omap. Qed.

Lemma cities_to_process_NoDup (df_cities : list city) (completed_geos : gset cell) :
  NoDup (map geo_code df_cities) ->
  NoDup (map geo_code (cities_to_process cfg df_cities completed_geos)).
Proof.
  intros Hnd. eapply sublist_NoDup; [exact Hnd |].
  apply (fmap_sublist geo_code). unfold cities_to_process, head, remaining_cities.
  etrans; [apply sublist_take | apply sublist_filter].
Qed.

Lemma elem_of_cities_to_process (df_cities : list city)
    (completed_geos : gset cell) (row : city) :
  row ∈ cities_to_process cfg df_cities completed_geos ->
  row ∈ df_cities /\ CStr (geo_code row) ∉ completed_geos.
Proof.
  unfold cities_to_process, head, remaining_cities.
  intros Hin. eapply elem_of_sublist in Hin; [| apply sublist_take].
  by apply list_elem_of_filter in Hin as [? ?].
Qed.

(** What [main] amounts to over a well-formed checkpoint. *)
Lemma main_over_checkpoint (df_cities : list city) (w w' : world) (s : summary) :
  checkpoint_ok (fs w) ->
  main env cfg df_cities w = (Ok s, w') ->
  let completed_geos := list_to_set (column 7 (table_rows (fs w))) in
  batch_run env cfg (cities_to_process cfg df_cities completed_geos) w
    (outcomes (run s)) w' /\
  main_loop env cfg (cities_to_process cfg df_cities completed_geos)
    (Tally 0 0 []) w = (Ok (run s), w').
Proof.
  intros Hok Hmain completed_geos.
  unfold main, bind at 1 in Hmain.
  rewrite get_completed_cities_ok in Hmain by done. fold completed_geos in Hmain.
  unfold run_batch, bind at 1 in Hmain.
  destruct (main_loop_batch_run env cfg
              (cities_to_process cfg df_cities completed_geos) (Tally 0 0 []) w)
    as (os & w2 & Hrun & Hloop).
  rewrite Hloop in Hmain.
  destruct (batch_run_store _ w w2 os Hrun Hok) as [Hok2 _].
  unfold bind in Hmain. rewrite !get_completed_cities_ok in Hmain by done.
  unfold ret in Hmain. injection Hmain as <- <-.
  cbn [run outcomes app]. by rewrite Hloop.
Qed.

End Checkpoint.

(** C6. A city for which nothing was retrieved gets no row in the
    checkpoint and is not among the completed codes afterwards, so the next
    invocation finds it among the cities that remain.  The checkpoint is one
    the driver made itself and the codes of the catalog are unique. *)
Theorem no_data_city_stays_remaining (env : environment) (cfg : config)
    (df_cities : list city) (w w' : world) (s : summary) (row : city) :
  checkpoint_ok (fs w) ->
  NoDup (map geo_code df_cities) ->
  main env cfg df_cities w = (Ok s, w') ->
  (row, NoData) ∈ outcomes (run s) ->
  Forall (fun l => l !! 7%nat <> Some (CStr (geo_code row))) (table_rows (fs w')) /\
  exists completed_geos : gset cell,
    get_completed_cities w' = (Ok completed_geos, w') /\
    (CStr (geo_code row) ∉ completed_geos) /\
    row ∈ remaining_cities df_cities completed_geos.
Proof.
  intros Hok Hnd Hmain Hrow.
  destruct (main_over_checkpoint env cfg df_cities w w' s Hok Hmain)
    as [Hrun _].
  set (completed0 := list_to_set (column 7 (table_rows (fs w)))) in Hrun.
  set (batch := cities_to_process cfg df_cities completed0) in Hrun.
  destruct (batch_run_store env cfg batch w w' _ Hrun Hok)
    as (Hok' & new & Hrows & Hnew).
  destruct (batch_run_attempted env cfg batch w w' _ Hrun) as [Hatt _].
  assert (Hos : NoDup (map geo_code (map fst (outcomes (run s))))).
  { rewrite Hatt. eapply sublist_NoDup; [by apply cities_to_process_NoDup |].
    apply (fmap_sublist geo_code), sublist_take. }
  assert (Hbatch : row ∈ batch).
  { eapply elem_of_sublist;
      [| apply (sublist_take batch (length (outcomes (run s))))].
    rewrite <- Hatt. apply list_elem_of_fmap. by exists (row, NoData). }
  apply elem_of_cities_to_process in Hbatch as [Hcat Hnot].
  assert (Hrows' : Forall (fun l => l !! 7%nat <> Some (CStr (geo_code row)))
                     (table_rows (fs w'))).
  { rewrite Hrows. apply Forall_app. split.
    - apply Forall_forall. intros l Hl Heq. apply Hnot.
      unfold completed0. rewrite elem_of_list_to_set.
      apply elem_of_column. eauto.
    - eapply Forall_impl; [exact Hnew |].
      intros l (c & n & Hc & Hl) Heq. rewrite Hl in Heq.
      injection Heq as Hgeo.
      apply list_elem_of_lookup in Hc as [i Hi].
      apply list_elem_of_lookup in Hrow as [j Hj].
      assert (i = j).
      { eapply NoDup_lookup; [exact Hos | |].
        - by rewrite !list_lookup_fmap, Hi.
        - rewrite !list_lookup_fmap, Hj. cbn. by rewrite Hgeo. }
      subst j. congruence. }
  split; [done |].
  exists (list_to_set (column 7 (table_rows (fs w')))).
  split; [by apply get_completed_cities_ok |].
  assert (Hnot' : CStr (geo_code row) ∉@{gset cell}
                  list_to_set (column 7 (table_rows (fs w')))).
  { rewrite elem_of_list_to_set. intros (l & Hl & Hl7)%elem_of_column.
    rewrite Forall_forall in Hrows'. by apply (Hrows' l Hl). }
  split; [done |].
  unfold remaining_cities. by apply list_elem_of_filter.
Qed.

Lemma no_data_city_stays_remaining_witness :
  let df_cities := [city_a; city_b; city_c] in
  exists (s : summary) (w' : world),
    main throttling (one_keyword 2) df_cities fresh = (Ok s, w') /\
    (city_a, NoData) ∈ outcomes (run s) /\
    Forall (fun l => l !! 7%nat <> Some (CStr (geo_code city_a)))
      (table_rows (fs w')) /\
    exists completed_geos : gset cell,
      get_completed_cities w' = (Ok completed_geos, w') /\
      (CStr (geo_code city_a) ∉ completed_geos) /\
      city_a ∈ remaining_cities df_cities completed_geos.
Proof.
  eexists _, _. split; [vm_compute; reflexivity |].
  split; [apply list_elem_of_here |].
  eapply (no_data_city_stays_remaining throttling (one_keyword 2)
            [city_a; city_b; city_c] fresh).
  - exact I.
  - compute_done.
  - vm_compute. reflexivity.
  - apply list_elem_of_here.
Defined.

(** ** A checkpoint of zero bytes

    The tracker takes a file of zero bytes for a first run, but the test
    for writing the header is whether the file exists: nothing but rows is
    appended, the first row is read as the header from then on, the table
    has no [geo_code] column, and every run starts over. *)

(** C4 at a checkpoint of zero bytes: after the first run the set of
    completed codes is still empty, the second run fetches the same city
    again, and the table then holds the same (code, keyword, week) twice. *)
Lemma blank_checkpoint_repeats_rows :
  let cfg := one_keyword 50 in
  let w0 := World (Some Blank) [] in
  let w1 := snd (main silent cfg [city_a] w0) in
  let w2 := snd (main silent cfg [city_a] w1) in
  get_completed_cities w0 = (Ok ∅, w0) /\
  get_completed_cities w1 = (Ok ∅, w1) /\
  sessions (effects w1) = 1%nat /\
  sessions (effects w2) = 2%nat /\
  length (text_lines (fs w1)) = 53%nat /\
  length (text_lines (fs w2)) = 106%nat /\
  (exists r, table_rows (fs w2) !! 0%nat = Some r /\
             table_rows (fs w2) !! 53%nat = Some r) /\
  ~ NoDup (map row_key (table_rows (fs w2))).
Proof.
  cbv zeta.
  split; [reflexivity |]. split; [vm_compute; reflexivity |].
  split; [vm_compute; reflexivity |]. split; [vm_compute; reflexivity |].
  split; [vm_compute; reflexivity |]. split; [vm_compute; reflexivity |].
  split; [eexists; split; vm_compute; reflexivity |].
  intros Hnd.
  assert (H : (0 = 53)%nat); [| discriminate H].
  eapply NoDup_lookup; [exact Hnd | |]; rewrite list_lookup_fmap;
    vm_compute; reflexivity.
Qed.

(** The same two runs that start without a file leave no repeated row and
    fetch the city once. *)
Example absent_checkpoint_no_repeats :
  let cfg := one_keyword 50 in
  let w1 := snd (main silent cfg [city_a] fresh) in
  let w2 := snd (main silent cfg [city_a] w1) in
  get_completed_cities w1 = (Ok {[CStr "US-A"]}, w1) /\
  sessions (effects w2) = 1%nat /\
  fs w2 = fs w1 /\
  bool_decide (NoDup (map row_key (table_rows (fs w2)))) = true.
Proof.
  cbv zeta. repeat split; vm_compute; reflexivity.
Qed.

(** ** Two runs over a well-formed checkpoint *)

Section Weekly.

Variable env : environment.
Hypothesis env_weekly : weekly env.

Lemma renamed_keys (term : string) (rows : list (date * Z)) :
  map observation_key (renamed term rows) =
  map (fun d : date => (term, d)) (map fst rows).
Proof. induction rows as [| r rows IH]; [done |]. cbn. by rewrite <- IH. Qed.

Lemma renamed_NoDup (term : string) (rows : list (date * Z)) :
  NoDup (map fst rows) -> NoDup (map observation_key (renamed term rows)).
Proof.
  intros Hrows. rewrite renamed_keys.
  apply NoDup_fmap_2; [by intros a b [=] | done].
Qed.

Lemma zero_fill_keys (term : string) (date_range : list date) :
  map observation_key (zero_fill term date_range) =
  map (fun d : date => (term, d)) date_range.
Proof. induction date_range as [| d ds IH]; [done |]. cbn. by rewrite <- IH. Qed.

Lemma retry_loop_weekly (geo term : string) (year : year_value)
    (date_range : list date) (max_retries fuel retry_count : nat)
    (w w' : world) (data : list observation) :
  NoDup date_range ->
  retry_loop env fuel geo term year date_range max_retries retry_count w =
    (Ok (Appended data), w') ->
  NoDup (map observation_key data) /\
  Forall (fun o => search_term o = term) data.
Proof.
  intros Hdr. revert retry_count w.
  induction fuel as [| fuel IH]; intros rc w Hloop.
  - cbn [retry_loop] in Hloop. unfold ret in Hloop.
    by destruct (rc <? max_retries)%nat.
  - destruct (decide (rc < max_retries)%nat) as [Hlt | Hge].
    2: { rewrite retry_loop_done in Hloop by lia. done. }
    rewrite retry_loop_S in Hloop by done.
    destruct (answer env geo term year w) as [[| r rows] | msg] eqn:Hans.
    + injection Hloop as <- _. split.
      * rewrite zero_fill_keys. apply NoDup_fmap_2; [by intros a b [=] | done].
      * unfold zero_fill. by apply Forall_fmap, Forall_true.
    + injection Hloop as <- _. split.
      * apply env_weekly in Hans. by apply (renamed_NoDup term (r :: rows)).
      * change (Forall (fun o => search_term o = term) (renamed term (r :: rows))).
        unfold renamed. by apply Forall_fmap, Forall_true.
    + destruct (contains "429" msg); [| done].
      destruct (S rc <? max_retries)%nat; [| done].
      by eapply IH.
Qed.

Lemma for_terms_weekly (geo : string) (year : year_value)
    (date_range : list date) (max_retries : nat) (keywords : list string)
    (all_data all : list (list observation)) (w w' : world) :
  NoDup date_range ->
  NoDup keywords ->
  NoDup (map observation_key (concat all_data)) ->
  Forall (fun o => search_term o ∉ keywords) (concat all_data) ->
  for_terms env geo year date_range max_retries keywords all_data w =
    (Ok all, w') ->
  NoDup (map observation_key (concat all)).
Proof.
  intros Hdr. revert all_data w.
  induction keywords as [| k keywords IH]; intros acc w Hnd Hacc Hfresh Hrun.
  - cbn in Hrun. by injection Hrun as <- _.
  - apply NoDup_cons in Hnd as [Hk Hnd].
    destruct (for_terms_cons env geo year date_range max_retries k keywords acc w)
      as (r & evs & Hloop & Hcont & Hr).
    rewrite Hcont in Hrun.
    destruct r as [data | |]; [| | done].
    + destruct (retry_loop_weekly _ _ _ _ _ _ _ _ _ _ Hdr Hloop)
        as [Hdata Hterm].
      eapply IH; [done | | | exact Hrun].
      * rewrite concat_app, map_app. cbn [concat]. rewrite app_nil_r.
        apply NoDup_app. split; [done |]. split; [| done].
        intros key (o & -> & Ho)%list_elem_of_fmap
                   (o' & Heq & Ho')%list_elem_of_fmap.
        rewrite Forall_forall in Hfresh, Hterm.
        apply (Hfresh o Ho). injection Heq as -> _.
        rewrite (Hterm o' Ho'). apply list_elem_of_here.
      * rewrite concat_app. cbn [concat]. rewrite app_nil_r.
        apply Forall_app. split.
        -- eapply Forall_impl; [exact Hfresh |].
           intros o Ho Hin. apply Ho. by apply list_elem_of_further.
        -- eapply Forall_impl; [exact Hterm |]. by intros o ->.
    + eapply IH; [done | done | | exact Hrun].
      eapply Forall_impl; [exact Hfresh |].
      intros o Ho Hin. apply Ho. by apply list_elem_of_further.
Qed.

Lemma fetch_city_trends_weekly (geo : string) (keywords : list string)
    (year : year_value) (max_retries : nat) (w w' : world)
    (df : list observation) :
  NoDup keywords ->
  fetch_city_trends env geo keywords year max_retries w = (Ok df, w') ->
  NoDup (map observation_key df).
Proof.
  intros Hnd. unfold fetch_city_trends, bind, TrendReq.
  destruct (trend_req env (effects w)); [done |].
  destruct year as [y | ys]; cbn [pd_date_range]; [| done].
  unfold ret at 1.
  destruct (for_terms env geo (YearInt y) _ max_retries keywords []
              (after w [EvSession])) as [[all | e] w1] eqn:Hrun; [| done].
  apply for_terms_weekly in Hrun;
    [| apply CalendarFacts.NoDup_date_range | done | constructor | constructor].
  destruct all; intros [= <- _]; [constructor | done].
Qed.

Lemma saved_rows_keys (row : city) (y : Z) (df : list observation) :
  map row_key (saved_rows row y df) =
  map (fun o => (Some (CStr (geo_code row)), Some (CStr (search_term o)),
                 Some (CDate (date_of o)))) df.
Proof. unfold saved_rows. by rewrite map_map. Qed.

Lemma saved_rows_NoDup (row : city) (y : Z) (df : list observation) :
  NoDup (map observation_key df) ->
  NoDup (map row_key (saved_rows row y df)).
Proof.
  intros Hdf.
  assert (Hkeys : map row_key (saved_rows row y df) =
                  map (fun k : string * date =>
                         (Some (CStr (geo_code row)), Some (CStr (fst k)),
                          Some (CDate (snd k))))
                      (map observation_key df)).
  { rewrite saved_rows_keys. clear Hdf.
    induction df as [| o df IH]; [done |]. cbn. by rewrite <- IH. }
  rewrite Hkeys. apply NoDup_fmap_2; [| done].
  by intros [a b] [c d] [= -> ->].
Qed.

(** A pass over cities that are not in the table yet, each listed once,
    leaves no repeated row. *)
Lemma batch_run_no_repeated_row (cfg : config) (cities : list city)
    (w w' : world) (os : list (city * city_outcome)) :
  NoDup (SEARCH_TERMS cfg) ->
  batch_run env cfg cities w os w' ->
  NoDup (map geo_code cities) ->
  Forall (fun c => CStr (geo_code c) ∉ column 7 (table_rows (fs w))) cities ->
  no_repeated_row (fs w) ->
  no_repeated_row (fs w').
Proof.
  intros Hterms.
  induction 1 as [w | row cities w w1 w' n os Hstep Hrun IH
                    | row cities w w1 w' os Hstep Hrun IH
                    | row cities w w1 e Hstep]; intros Hnd Hnew [Hok Hrows].
  - done.
  - apply NoDup_cons in Hnd as [Hrow Hnd].
    apply Forall_cons in Hnew as [Hnew_row Hnew].
    destruct (process_city_saved_fs env cfg row w w1 n Hstep)
      as (y & df & w0 & _ & _ & _ & Hfetch & Hfs).
    destruct (append_saved_rows row y df (fs w) Hok) as [Hok1 Hrows1].
    rewrite <- Hfs in Hok1, Hrows1.
    apply IH; [done | |].
    + rewrite Hrows1. apply Forall_forall. intros c Hcin.
      rewrite Forall_forall in Hnew. pose proof (Hnew c Hcin) as Hc.
      unfold column. rewrite omap_app.
      fold (column 7 (table_rows (fs w))).
      fold (column 7 (saved_rows row y df)).
      rewrite column_saved_rows. intros [Hin | Hin]%elem_of_app; [done |].
      apply list_elem_of_fmap in Hin as (o & [= Hgeo] & _).
      apply Hrow. rewrite <- Hgeo. apply list_elem_of_fmap. eauto.
    + split; [done |]. rewrite Hrows1, map_app. apply NoDup_app.
      split; [done |]. split.
      * intros key (l & -> & Hl)%list_elem_of_fmap Hin.
        rewrite saved_rows_keys in Hin.
        apply list_elem_of_fmap in Hin as (o & Heq & _).
        apply Hnew_row. apply elem_of_column. exists l. split; [done |].
        unfold row_key in Heq. by injection Heq as -> _ _.
      * apply saved_rows_NoDup.
        eapply fetch_city_trends_weekly; [exact Hterms | exact Hfetch].
  - apply NoDup_cons in Hnd as [_ Hnd].
    apply Forall_cons in Hnew as [_ Hnew].
    apply process_city_no_data_fs in Hstep. rewrite Hstep in IH.
    by apply IH.
  - apply process_city_raise_fs in Hstep. by rewrite Hstep.
Qed.

(** One run keeps the table free of repeated rows. *)
Lemma main_no_repeated_row (cfg : config) (df_cities : list city)
    (w w' : world) (s : summary) :
  NoDup (SEARCH_TERMS cfg) ->
  NoDup (map geo_code df_cities) ->
  no_repeated_row (fs w) ->
  main env cfg df_cities w = (Ok s, w') ->
  no_repeated_row (fs w').
Proof.
  intros Hterms Hnd Hinv Hmain.
  destruct (main_over_checkpoint env cfg df_cities w w' s (proj1 Hinv) Hmain)
    as [Hrun _].
  eapply batch_run_no_repeated_row; [done | exact Hrun | | | done].
  - by apply cities_to_process_NoDup.
  - apply Forall_forall. intros c Hc.
    apply elem_of_cities_to_process in Hc as [_ Hc].
    by rewrite elem_of_list_to_set in Hc.
Qed.

(** X16. Idempotence where it holds: two runs in a row from a checkpoint the
    driver made itself (or from none), over a catalog with unique codes and
    distinct keywords, leave no (code, keyword, week) twice, and the cities
    that remain after the second run are among those that remained after
    the first. *)
Theorem two_runs_no_repeated_row (cfg : config) (df_cities : list city)
    (w w1 w2 : world) (s1 s2 : summary) :
  NoDup (SEARCH_TERMS cfg) ->
  NoDup (map geo_code df_cities) ->
  no_repeated_row (fs w) ->
  main env cfg df_cities w = (Ok s1, w1) ->
  main env cfg df_cities w1 = (Ok s2, w2) ->
  no_repeated_row (fs w2) /\
  exists done1 done2 : gset cell,
    get_completed_cities w1 = (Ok done1, w1) /\
    get_completed_cities w2 = (Ok done2, w2) /\
    done1 ⊆ done2 /\
    remaining_cities df_cities done2 ⊆ remaining_cities df_cities done1.
Proof.
  intros Hterms Hnd Hinv Hmain1 Hmain2.
  pose proof (main_no_repeated_row cfg df_cities w w1 s1 Hterms Hnd Hinv Hmain1)
    as Hinv1.
  pose proof (main_no_repeated_row cfg df_cities w1 w2 s2 Hterms Hnd Hinv1 Hmain2)
    as Hinv2.
  split; [done |].
  destruct (main_over_checkpoint env cfg df_cities w1 w2 s2 (proj1 Hinv1) Hmain2)
    as [Hrun _].
  destruct (batch_run_store env cfg _ w1 w2 _ Hrun (proj1 Hinv1))
    as (_ & new & Hrows & _).
  exists (list_to_set (column 7 (table_rows (fs w1)))),
         (list_to_set (column 7 (table_rows (fs w2)))).
  split; [apply get_completed_cities_ok, Hinv1 |].
  split; [apply get_completed_cities_ok, Hinv2 |].
  assert (Hsub : (list_to_set (column 7 (table_rows (fs w1))) : gset cell) ⊆
                 list_to_set (column 7 (table_rows (fs w2)))).
  { intros c. rewrite !elem_of_list_to_set, Hrows. unfold column.
    rewrite omap_app. intros Hc. apply elem_of_app. by left. }
  split; [done |].
  intros c. unfold remaining_cities. rewrite !list_elem_of_filter.
  intros [Hc Hin]. split; [| done]. intros Hc1. apply Hc. by apply Hsub.
Qed.

End Weekly.

Lemma silent_weekly : weekly silent.
Proof. intros h term geo year rows [= <-]. constructor. Qed.

Lemma two_runs_no_repeated_row_witness :
  exists (s1 : summary) (w1 : world) (s2 : summary) (w2 : world),
    main silent (one_keyword 1) [city_a; city_b] fresh = (Ok s1, w1) /\
    main silent (one_keyword 1) [city_a; city_b] w1 = (Ok s2, w2) /\
    no_repeated_row (fs w2) /\
    exists done1 done2 : gset cell,
      get_completed_cities w1 = (Ok done1, w1) /\
      get_completed_cities w2 = (Ok done2, w2) /\
      done1 ⊆ done2 /\
      remaining_cities [city_a; city_b] done2 ⊆ remaining_cities [city_a; city_b] done1.
Proof.
  eexists _, _, _, _. split; [vm_compute; reflexivity |].
  split; [vm_compute; reflexivity |].
  eapply (two_runs_no_repeated_row silent silent_weekly (one_keyword 1)
            [city_a; city_b] fresh).
  - compute_done.
  - compute_done.
  - split; [exact I | constructor].
  - vm_compute. reflexivity.
  - vm_compute. reflexivity.
Defined.

(** * Further properties of the unit fetcher *)

Lemma attempts_app (a b : list event) : attempts (a ++ b) = (attempts a + attempts b)%nat.
Proof. unfold attempts. by rewrite filter_app, length_app. Qed.

Lemma sessions_app (a b : list event) : sessions (a ++ b) = (sessions a + sessions b)%nat.
Proof. unfold sessions. by rewrite filter_app, length_app. Qed.

Lemma writes_app (a b : list event) : writes (a ++ b) = (writes a + writes b)%nat.
Proof. unfold writes. by rewrite filter_app, length_app. Qed.

Lemma header_writes_app (a b : list event) :
  header_writes (a ++ b) = (header_writes a + header_writes b)%nat.
Proof. unfold header_writes. by rewrite filter_app, length_app. Qed.

Section FetchEffects.

Variable env : environment.
Variables (geo : string) (year : year_value) (date_range : list date).
Variable max_retries : nat.

Lemma attempt_events_counts (term : string) :
  attempts (attempt_events geo term year) = 1%nat /\
  sessions (attempt_events geo term year) = 0%nat /\
  writes (attempt_events geo term year) = 0%nat.
Proof. done. Qed.

Lemma attempt_sleep_counts (term : string) (secs : nat) :
  attempts (attempt_events geo term year ++ [EvSleep secs]) = 1%nat /\
  sessions (attempt_events geo term year ++ [EvSleep secs]) = 0%nat /\
  writes (attempt_events geo term year ++ [EvSleep secs]) = 0%nat.
Proof. done. Qed.

(** What the attempts at one keyword amount to, whatever the service
    answers. *)
Lemma retry_loop_effects (term : string) (fuel retry_count : nat) (w : world) :
  (max_retries <= retry_count + fuel)%nat ->
  exists (r : keyword_exit) (evs : list event),
    retry_loop env fuel geo term year date_range max_retries retry_count w =
      (Ok r, after w evs) /\
    r <> OutOfFuel /\
    (attempts evs <= max_retries - retry_count)%nat /\
    ((retry_count < max_retries)%nat -> (1 <= attempts evs)%nat) /\
    sessions evs = 0%nat /\ writes evs = 0%nat.
Proof.
  revert retry_count w. induction fuel as [| fuel IH]; intros rc w Hfuel.
  - exists Skipped, []. rewrite retry_loop_done, after_nil by lia.
    repeat split; try done; cbn; lia.
  - destruct (decide (rc < max_retries)%nat) as [Hlt | Hge].
    2: { exists Skipped, []. rewrite retry_loop_done, after_nil by lia.
         repeat split; try done; cbn; lia. }
    rewrite retry_loop_S by done.
    destruct (answer env geo term year w) as [[| r rows] | msg].
    + destruct (attempt_events_counts term) as (Ha & Hs & Hw).
      eexists _, _. split; [done |]. rewrite Ha, Hs, Hw.
      repeat split; try done; lia.
    + destruct (attempt_events_counts term) as (Ha & Hs & Hw).
      eexists _, _. split; [done |]. rewrite Ha, Hs, Hw.
      repeat split; try done; lia.
    + destruct (contains "429" msg).
      * destruct (Nat.ltb_spec (S rc) max_retries).
        -- destruct (IH (S rc)
                       (after w (attempt_events geo term year ++
                                 [EvSleep (2 ^ S rc * 60)])))
             as (r & evs & -> & Hr & Hle & _ & Hs & Hw); [lia |].
           exists r, ((attempt_events geo term year ++
                       [EvSleep (2 ^ S rc * 60)]) ++ evs).
           rewrite after_after. split; [done |]. split; [done |].
           destruct (attempt_sleep_counts term (2 ^ S rc * 60))
             as (Ha1 & Hs1 & Hw1).
           rewrite attempts_app, sessions_app, writes_app, Hs, Hw, Ha1, Hs1, Hw1.
           repeat split; try done; lia.
        -- destruct (attempt_events_counts term) as (Ha & Hs & Hw).
           eexists _, _. split; [done |]. rewrite Ha, Hs, Hw.
           repeat split; try done; lia.
      * destruct (attempt_sleep_counts term 5) as (Ha & Hs & Hw).
        eexists _, _. split; [done |]. rewrite Ha, Hs, Hw.
        repeat split; try done; lia.
Qed.

Lemma for_terms_effects (keywords : list string)
    (all_data : list (list observation)) (w : world) :
  exists (all : list (list observation)) (evs : list event),
    for_terms env geo year date_range max_retries keywords all_data w =
      (Ok all, after w evs) /\
    (attempts evs <= max_retries * length keywords)%nat /\
    ((0 < max_retries)%nat -> (length keywords <= attempts evs)%nat) /\
    sessions evs = 0%nat /\ writes evs = 0%nat.
Proof.
  revert all_data w. induction keywords as [| term keywords IH]; intros acc w.
  - exists acc, []. rewrite after_nil. repeat split; try done; cbn; lia.
  - destruct (retry_loop_effects term max_retries 0 w)
      as (r & evs & Hloop & Hr & Hle & Hge & Hs & Hw); [lia |].
    cbn [for_terms]. unfold bind at 1. rewrite Hloop.
    destruct r as [data | |]; [| | done].
    + destruct (IH (acc ++ [data]) (after w evs))
        as (all & evs' & -> & Hle' & Hge' & Hs' & Hw').
      exists all, (evs ++ evs'). rewrite after_after. split; [done |].
      rewrite attempts_app, sessions_app, writes_app, Hs, Hw, Hs', Hw'.
      cbn [length]. repeat split; try done; [lia |].
      intros Hmax. specialize (Hge Hmax). specialize (Hge' Hmax). lia.
    + destruct (IH acc (after w evs))
        as (all & evs' & -> & Hle' & Hge' & Hs' & Hw').
      exists all, (evs ++ evs'). rewrite after_after. split; [done |].
      rewrite attempts_app, sessions_app, writes_app, Hs, Hw, Hs', Hw'.
      cbn [length]. repeat split; try done; [lia |].
      intros Hmax. specialize (Hge Hmax). specialize (Hge' Hmax). lia.
Qed.

End FetchEffects.

Section KeywordContribution.

Variable env : environment.
Variables (geo : string) (year : year_value) (date_range : list date).
Variable max_retries : nat.



End KeywordContribution.






Section FailingKeywords.

Variable env : environment.
Variables (geo : string) (year : year_value) (date_range : list date).
Variable max_retries : nat.


End FailingKeywords.






Section KeywordOrder.

Variable env : environment.
Variables (geo : string) (year : year_value) (date_range : list date).
Variable max_retries : nat.

Lemma terms_of_frame (k : string) (data : list observation) :
  Forall (fun o => search_term o = k) data ->
  map search_term data = replicate (length data) k.
Proof. induction 1 as [| o data Ho _ IH]; [done |]. cbn. by rewrite Ho, IH. Qed.

Lemma for_terms_order (keywords : list string)
    (all_data all : list (list observation)) (w w' : world) :
  for_terms env geo year date_range max_retries keywords all_data w = (Ok all, w') ->
  exists counts : list nat,
    length counts = length keywords /\
    map search_term (concat all) =
      map search_term (concat all_data) ++ grouped_terms counts keywords.
Proof.
  revert all_data w. induction keywords as [| k keywords IH]; intros acc w Hrun.
  - cbn in Hrun. injection Hrun as <- _. exists []. by rewrite app_nil_r.
  - destruct (for_terms_cons env geo year date_range max_retries k keywords acc w)
      as (r & evs & _ & Hcont & Hr).
    rewrite Hcont in Hrun. apply IH in Hrun as (counts & Hlen & Hterms).
    destruct r as [data | |]; [| | done].
    + exists (length data :: counts). split; [cbn; lia |].
      rewrite Hterms, concat_app, map_app. cbn [concat].
      rewrite app_nil_r, <- app_assoc. f_equal.
      unfold grouped_terms. cbn [zip_with concat]. f_equal.
      apply terms_of_frame, Hr.
    + exists (0%nat :: counts). split; [cbn; lia |]. by rewrite Hterms.
Qed.

End KeywordOrder.

Lemma length_grouped_terms (counts : list nat) (keywords : list string) :
  length counts = length keywords ->
  length (grouped_terms counts keywords) = sum_list counts.
Proof.
  revert keywords. unfold grouped_terms.
  induction counts as [| n counts IH]; intros [| k ks] Hlen; try done.
  cbn [zip_with concat]. rewrite length_app, length_replicate, IH.
  - done.
  - cbn in Hlen. lia.
Qed.

(** X6. The frame the fetcher returns holds its rows keyword by keyword,
    in the order in which the keywords were given: some number of rows for
    the first keyword (none if it was skipped), then for the second, and so
    on. *)
Theorem rows_follow_keyword_order (env : environment) (geo : string)
    (keywords : list string) (year : year_value) (max_retries : nat)
    (w w' : world) (df : list observation) :
  fetch_city_trends env geo keywords year max_retries w = (Ok df, w') ->
  exists counts : list nat,
    length counts = length keywords /\
    map search_term df = grouped_terms counts keywords /\
    length df = sum_list counts.
Proof.
  unfold fetch_city_trends, bind, TrendReq.
  destruct (trend_req env (effects w)); [done |].
  destruct year as [y | ys]; cbn [pd_date_range]; [| done].
  unfold ret at 1.
  destruct (for_terms env geo (YearInt y) _ max_retries keywords []
              (after w [EvSession])) as [[all | e] w1] eqn:Hrun; [| done].
  apply for_terms_order in Hrun as (counts & Hlen & Hterms).
  cbn [concat map app] in Hterms.
  assert (Hdf : df = concat all -> exists counts0 : list nat,
             length counts0 = length keywords /\
             map search_term df = grouped_terms counts0 keywords /\
             length df = sum_list counts0).
  { intros ->. exists counts. split; [done |]. split; [done |].
    rewrite <- (length_map search_term), Hterms.
    by apply length_grouped_terms. }
  destruct all; intros [= <- _]; by apply Hdf.
Qed.

Lemma rows_follow_keyword_order_witness :
  exists (df : list observation) (w' : world),
    fetch_city_trends throttling_y "US-A" ["X"; "Y"; "Z"] (YearInt 2023) 3 fresh =
      (Ok df, w') /\
    exists counts : list nat,
      length counts = length ["X"; "Y"; "Z"] /\
      map search_term df = grouped_terms counts ["X"; "Y"; "Z"] /\
      length df = sum_list counts.
Proof.
  eexists _, _. split; [vm_compute; reflexivity |].
  eapply (rows_follow_keyword_order throttling_y "US-A" ["X"; "Y"; "Z"]
            (YearInt 2023) 3 fresh).
  vm_compute. reflexivity.
Defined.

(** The Sundays of a calendar year: 52 or 53 of them, seven days apart,
    and 53 exactly when the year begins on a Sunday, or is a leap year that
    begins on a Saturday. *)
Lemma sundays_of_a_calendar_year (y : Z) :
  let start := ymd_to_ordinal y 1 1 in
  let dr := date_range_W_SUN start (ymd_to_ordinal y 12 31) in
  (length dr = 52%nat \/ length dr = 53%nat) /\
  (length dr = 53%nat <->
   iso_weekday start = 7 \/ (is_leap y = true /\ iso_weekday start = 6)) /\
  (forall (i : nat) (d d' : date),
     dr !! i = Some d -> dr !! S i = Some d' -> d' = d + 7).
Proof.
  intros start dr. unfold dr, date_range_W_SUN, first_sunday_from.
  unfold start. rewrite CalendarFacts.jan1, CalendarFacts.dec31,
    CalendarFacts.year_length.
  set (s := days_before_year y + 1).
  set (first := s + (- s) mod 7).
  set (stop := days_before_year y + (if is_leap y then 366 else 365)).
  assert (Hf : s <= first < s + 7 /\ first mod 7 = 0).
  { unfold first. Z.div_mod_to_equations. lia. }
  assert (Hle : (first <=? stop) = true).
  { apply Z.leb_le. unfold stop, s in *. destruct (is_leap y); lia. }
  rewrite Hle, length_map, length_seq.
  assert (Hwd : iso_weekday s = (s - 1) mod 7 + 1) by done.
  split; [| split].
  - unfold stop, s in *. destruct (is_leap y);
      Z.div_mod_to_equations; lia.
  - rewrite Hwd. unfold stop, s in *. destruct (is_leap y);
      (split; [intros Hlen | intros [Hs | [Hl Hs]]]);
      try discriminate; Z.div_mod_to_equations; lia.
  - intros i d d' Hd Hd'.
    apply list_lookup_fmap_Some in Hd as (k & -> & Hk).
    apply list_lookup_fmap_Some in Hd' as (k' & -> & Hk').
    apply lookup_seq in Hk as [-> _]. apply lookup_seq in Hk' as [-> _]. lia.
Qed.

Lemma prefix_iff (needle hay : string) :
  String.prefix needle hay = true <-> exists post, hay = String.append needle post.
Proof.
  revert hay. induction needle as [| a needle IH]; intros hay.
  - split; [intros _; by exists hay | by destruct hay].
  - destruct hay as [| b hay]; cbn.
    + split; [done | by intros [post ?]].
    + destruct (Ascii.ascii_dec a b) as [-> | Hne].
      * rewrite IH. split; intros [post Hpost]; exists post.
        -- cbn. by rewrite Hpost.
        -- cbn in Hpost. by injection Hpost.
      * split; [done |]. intros [post Hpost]. cbn in Hpost.
        injection Hpost as Hab _. by destruct Hne.
Qed.

(** X8. The test for the rate limit is a search for the text 429 anywhere
    in the message of the exception: [contains needle hay] holds exactly when
    [hay] is some text, then [needle], then some text. *)
Theorem contains_iff_substring (needle hay : string) :
  contains needle hay = true <->
  exists pre post, hay = String.append pre (String.append needle post).
Proof.
  induction hay as [| b hay IH]; cbn [contains].
  - rewrite orb_false_r, prefix_iff. split.
    + intros [post ->]. by exists EmptyString, post.
    + intros (pre & post & Heq). destruct pre as [| c pre]; [| done].
      by exists post.
  - rewrite orb_true_iff, prefix_iff, IH. split.
    + intros [[post ->] | (pre & post & ->)].
      * by exists EmptyString, post.
      * by exists (String b pre), post.
    + intros (pre & post & Heq). destruct pre as [| c pre].
      * left. by exists post.
      * right. injection Heq as -> ->. by exists pre, post.
Qed.

(** * Further properties of the run driver *)

Section DriverExtras.

Variable env : environment.
Variable cfg : config.

(** What [main] amounts to once the tracker has returned. *)
Lemma main_batch_run (df_cities : list city) (w w' : world) (s : summary)
    (completed_geos : gset cell) :
  get_completed_cities w = (Ok completed_geos, w) ->
  main env cfg df_cities w = (Ok s, w') ->
  batch_run env cfg (cities_to_process cfg df_cities completed_geos) w
    (outcomes (run s)) w' /\
  successful_cities (run s) =
    length (filter (fun o => is_saved (snd o) = true) (outcomes (run s))) /\
  failed_cities (run s) =
    length (filter (fun o => is_saved (snd o) = false) (outcomes (run s))) /\
  get_completed_cities w' =
    (Ok (list_to_set (match fs w' with
                      | Some (Lines first rest) =>
                        match column_index "geo_code" first with
                        | Some i => column i rest
                        | None => []
                        end
                      | _ => []
                      end)), w') /\
  completed_so_far s =
    size (match fst (get_completed_cities w') with Ok c => c | Raise _ => ∅ end) /\
  remaining s =
    Z.of_nat (length df_cities) -
    Z.of_nat (size (match fst (get_completed_cities w') with
                    | Ok c => c | Raise _ => ∅ end)).
Proof.
  intros Hget Hmain. unfold main, bind at 1 in Hmain. rewrite Hget in Hmain.
  unfold run_batch, bind at 1 in Hmain.
  destruct (main_loop_batch_run env cfg
              (cities_to_process cfg df_cities completed_geos) (Tally 0 0 []) w)
    as (os & w2 & Hrun & Hloop).
  rewrite Hloop in Hmain. unfold bind, ret in Hmain.
  pose proof (get_completed_cities_world w2) as Hw2.
  destruct (get_completed_cities w2) as [[c2 | e2] w3] eqn:Hget2;
    cbn in Hw2; subst w3; [| done].
  rewrite !Hget2 in Hmain. injection Hmain as <- <-.
  cbn [run outcomes successful_cities failed_cities app Nat.add].
  rewrite Hget2. cbn [fst].
  split; [done |]. split; [done |]. split; [done |]. split; [| done].
  revert Hget2. unfold get_completed_cities.
  destruct (fs w2) as [[| msg | first rest] |]; cbn;
    try (by intros [= <-]).
  by destruct (column_index "geo_code" first); intros [= <-].
Qed.

End DriverExtras.

Section Progress.

Variable env : environment.
Variable cfg : config.

Lemma saved_codes_cons (row : city) (o : city_outcome)
    (os : list (city * city_outcome)) :
  saved_codes ((row, o) :: os) =
  if is_saved o then CStr (geo_code row) :: saved_codes os else saved_codes os.
Proof.
  unfold saved_codes. destruct (is_saved o) eqn:Ho.
  - by rewrite filter_cons_True.
  - rewrite filter_cons_False; [done |]. cbn. by rewrite Ho.
Qed.

Lemma column_app (i : nat) (a b : list line) :
  column i (a ++ b) = column i a ++ column i b.
Proof. unfold column. apply omap_app. Qed.

End Progress.

(** X11. The cities a run attempts are the first cities of the catalog
    that are not completed, in the order of the catalog and without gaps: no
    completed city is fetched again, none is attempted out of turn, and never
    more than [MAX_CITIES_PER_RUN] of them. *)
Theorem attempted_cities_are_next_in_catalog (env : environment) (cfg : config)
    (df_cities : list city) (w w' : world) (s : summary)
    (completed_geos : gset cell) :
  get_completed_cities w = (Ok completed_geos, w) ->
  main env cfg df_cities w = (Ok s, w') ->
  let attempted := map fst (outcomes (run s)) in
  attempted = take (length attempted) (remaining_cities df_cities completed_geos) /\
  (length attempted <= MAX_CITIES_PER_RUN cfg)%nat /\
  attempted `sublist_of` df_cities /\
  Forall (fun row => CStr (geo_code row) ∉ completed_geos) attempted.
Proof.
  intros Hget Hmain attempted.
  destruct (main_batch_run env cfg df_cities w w' s _ Hget Hmain) as (Hrun & _).
  destruct (batch_run_attempted env cfg _ w w' _ Hrun) as [Hatt _].
  fold attempted in Hatt.
  assert (Hlo : length attempted = length (outcomes (run s)))
    by (unfold attempted; apply length_map).
  rewrite <- Hlo in Hatt.
  assert (Hlen : (length attempted <= MAX_CITIES_PER_RUN cfg)%nat).
  { apply (f_equal length) in Hatt. unfold cities_to_process, head in Hatt.
    rewrite !length_take in Hatt. lia. }
  assert (Hsub : attempted `sublist_of`
                 cities_to_process cfg df_cities completed_geos).
  { rewrite Hatt. apply sublist_take. }
  split.
  { rewrite Hatt at 1. unfold cities_to_process, head.
    rewrite take_take. f_equal. lia. }
  split; [done |]. split.
  { etrans; [exact Hsub |]. unfold cities_to_process, head, remaining_cities.
    etrans; [apply sublist_take | apply sublist_filter]. }
  apply Forall_forall. intros row Hrow.
  eapply elem_of_sublist in Hrow; [| exact Hsub].
  by apply elem_of_cities_to_process in Hrow as [_ ?].
Qed.

Lemma attempted_cities_are_next_in_catalog_witness :
  exists (s : summary) (w' : world),
    main unreachable (one_keyword 2) [city_a; city_b; city_c] fresh = (Ok s, w') /\
    let attempted := map fst (outcomes (run s)) in
    attempted = take (length attempted) (remaining_cities [city_a; city_b; city_c] ∅) /\
    (length attempted <= MAX_CITIES_PER_RUN (one_keyword 2))%nat /\
    attempted `sublist_of` [city_a; city_b; city_c] /\
    Forall (fun row => CStr (geo_code row) ∉@{gset cell} ∅) attempted.
Proof.
  eexists _, _. split; [vm_compute; reflexivity |].
  eapply (attempted_cities_are_next_in_catalog unreachable (one_keyword 2)
            [city_a; city_b; city_c] fresh).
  - reflexivity.
  - vm_compute. reflexivity.
Defined.

(** X12. When every city of the catalog is completed the run does nothing
    at all: no session, no request, no sleep and no write; the world is left
    as it was and the summary counts no city. *)
Theorem exhausted_catalog_does_nothing (env : environment) (cfg : config)
    (df_cities : list city) (w : world) (completed_geos : gset cell) :
  get_completed_cities w = (Ok completed_geos, w) ->
  Forall (fun row => CStr (geo_code row) ∈ completed_geos) df_cities ->
  main env cfg df_cities w =
    (Ok (Summary (Tally 0 0 []) (size completed_geos)
                 (Z.of_nat (length df_cities) - Z.of_nat (size completed_geos))),
     w).
Proof.
  intros Hget Hall. unfold main, bind at 1. rewrite Hget.
  assert (Hbatch : cities_to_process cfg df_cities completed_geos = []).
  { unfold cities_to_process, head, remaining_cities.
    replace (filter _ df_cities) with (@nil city); [apply take_nil |].
    symmetry. induction Hall as [| row cs Hrow _ IH]; [done |].
    rewrite filter_cons_False; [exact IH | by intros Hn]. }
  unfold run_batch. rewrite Hbatch. cbn [main_loop].
  unfold bind, ret. by rewrite !Hget.
Qed.

Lemma exhausted_catalog_does_nothing_witness :
  let w := World (Some (Lines cols (saved_rows city_a 2023 (zero_fill "X" [738521]))))
                 [] in
  main silent (one_keyword 2) [city_a] w =
    (Ok (Summary (Tally 0 0 []) (size ({[CStr "US-A"]} : gset cell))
                 (Z.of_nat (length [city_a]) -
                  Z.of_nat (size ({[CStr "US-A"]} : gset cell)))),
     w).
Proof.
  apply (exhausted_catalog_does_nothing silent (one_keyword 2) [city_a]
           (World (Some (Lines cols (saved_rows city_a 2023 (zero_fill "X" [738521]))))
                  [])
           {[CStr "US-A"]}).
  - vm_compute. reflexivity.
  - apply Forall_cons. split; [| constructor]. apply elem_of_singleton. reflexivity.
Defined.

(** No write, no header. *)
Lemma header_writes_le (evs : list event) :
  writes evs = 0%nat -> header_writes evs = 0%nat.
Proof.
  unfold writes, header_writes. induction evs as [| e evs IH]; [done |].
  destruct e as [| | | | n [|]]; cbn; try done.
Qed.

Lemma filter_ext_elem {A} (P Q : A -> Prop) `{!forall x, Decision (P x)}
    `{!forall x, Decision (Q x)} (l : list A) :
  (forall x, x ∈ l -> P x <-> Q x) -> filter P l = filter Q l.
Proof.
  induction l as [| a l IH]; intros Hext; [done |].
  assert (Htail : filter P l = filter Q l).
  { apply IH. intros x Hx. apply Hext. by apply list_elem_of_further. }
  destruct (decide (P a)) as [Ha | Ha].
  - rewrite !filter_cons_True, Htail; [done | | done].
    by apply (Hext a (list_elem_of_here _ _)).
  - rewrite !filter_cons_False, Htail; [done | | done].
    intros Hq. by apply Ha, (Hext a (list_elem_of_here _ _)).
Qed.

(** Counting the cities that remain. *)
Lemma remaining_count (df_cities : list city) (completed_geos : gset cell) :
  NoDup (map geo_code df_cities) ->
  (forall c, c ∈ completed_geos -> c ∈ catalog_codes df_cities) ->
  (size completed_geos + length (remaining_cities df_cities completed_geos))%nat =
    length df_cities.
Proof.
  revert completed_geos.
  induction df_cities as [| row cs IH]; intros C Hnd Hsub.
  - assert (C = ∅) as ->.
    { apply set_eq. intros c. split; [| by intros ?%not_elem_of_empty].
      intros Hc. apply Hsub in Hc. by apply not_elem_of_nil in Hc. }
    by rewrite size_empty.
  - apply NoDup_cons in Hnd as [Hrow Hnd].
    assert (Hother : forall r, r ∈ cs -> CStr (geo_code r) <> CStr (geo_code row)).
    { intros r Hr [= Heq]. apply Hrow. rewrite <- Heq.
      apply list_elem_of_fmap. eauto. }
    unfold remaining_cities in *.
    destruct (decide (CStr (geo_code row) ∈ C)) as [Hin | Hnin].
    + rewrite filter_cons_False by (intros Hn; by apply Hn).
      assert (Hfilter : filter (fun c => CStr (geo_code c) ∉ C) cs =
                        filter (fun c => CStr (geo_code c) ∉ C ∖ {[CStr (geo_code row)]}) cs).
      { apply filter_ext_elem. intros r Hr. specialize (Hother r Hr).
        rewrite elem_of_difference, not_elem_of_singleton. tauto. }
      rewrite Hfilter.
      specialize (IH (C ∖ {[CStr (geo_code row)]}) Hnd).
      assert (Hsize : size C = S (size (C ∖ {[CStr (geo_code row)]}))).
      { rewrite (union_difference_singleton_L (CStr (geo_code row)) C) at 1 by done.
        rewrite size_union, size_singleton; [done |].
        apply disjoint_singleton_l. intros [_ Hn]%elem_of_difference.
        by apply Hn, elem_of_singleton. }
      rewrite Hsize. cbn [length]. rewrite <- IH; [lia |].
      intros c [Hc Hne%not_elem_of_singleton]%elem_of_difference.
      apply Hsub in Hc. unfold catalog_codes in Hc. cbn in Hc.
      apply elem_of_cons in Hc as [-> | Hc]; done.
    + rewrite filter_cons_True by done. cbn [length].
      rewrite <- (IH C Hnd); [lia |].
      intros c Hc. pose proof (Hsub c Hc) as Hc'.
      unfold catalog_codes in Hc'. cbn in Hc'.
      apply elem_of_cons in Hc' as [-> | Hc']; done.
Qed.

(** With a code in the checkpoint that is in no catalog, the reported count
    is one less than the number of cities that remain. *)
Example reported_remaining_with_foreign_code :
  let w := World foreign_checkpoint [] in
  exists s w',
    main unreachable (one_keyword 2) [city_a; city_b; city_c] w = (Ok s, w') /\
    remaining s = 2 /\
    length (remaining_cities [city_a; city_b; city_c] {[CStr "ZZ-9"]}) = 3%nat.
Proof. eexists _, _. repeat split; vm_compute; reflexivity. Qed.

Lemma elem_of_grouped_terms (counts : list nat) (keywords : list string)
    (x : string) :
  x ∈ grouped_terms counts keywords -> x ∈ keywords.
Proof.
  unfold grouped_terms. revert keywords.
  induction counts as [| n counts IH]; intros [| k ks]; cbn;
    try (by intros ?%not_elem_of_nil).
  intros [Hx | Hx]%elem_of_app.
  - apply elem_of_replicate in Hx as [-> _]. apply list_elem_of_here.
  - apply list_elem_of_further. by apply IH.
Qed.


Section SavedRows.

Variable env : environment.
Variable cfg : config.



End SavedRows.



(** ** The year as the source configures it *)

Lemma process_city_tuple_year (env : environment) (cfg : config) (row : city)
    (w : world) (ys : list Z) :
  YEAR cfg = YearTuple ys ->
  exists e, process_city env cfg row w = (Raise e, after w [EvSession]).
Proof.
  intros Hy. unfold process_city, bind at 1, fetch_city_trends, bind, TrendReq.
  rewrite Hy. destruct (trend_req env (effects w)); eauto.
Qed.

(** X17. With [YEAR] bound to a tuple, as the source has it, no run saves
    anything: the first city that remains ends in a critical failure before
    any request is made, the loop stops there, and the checkpoint is left as
    it was, whatever the service would have answered. *)
Theorem tuple_year_stops_every_run (env : environment) (cfg : config)
    (df_cities : list city) (w : world) (completed_geos : gset cell)
    (ys : list Z) :
  YEAR cfg = YearTuple ys ->
  get_completed_cities w = (Ok completed_geos, w) ->
  exists (s : summary) (w' : world),
    main env cfg df_cities w = (Ok s, w') /\
    fs w' = fs w /\
    successful_cities (run s) = 0%nat /\
    match cities_to_process cfg df_cities completed_geos with
    | [] => outcomes (run s) = [] /\ w' = w
    | row :: _ => (exists e, outcomes (run s) = [(row, CriticalFailure e)]) /\
                  w' = after w [EvSession]
    end.
Proof.
  intros Hy Hget. unfold main, bind at 1. rewrite Hget.
  unfold run_batch.
  destruct (cities_to_process cfg df_cities completed_geos) as [| row rest].
  - cbn [main_loop]. unfold bind, ret. rewrite !Hget.
    eexists _, _. split; [done |]. by cbn.
  - cbn [main_loop]. unfold bind at 1, bind at 1, try_.
    destruct (process_city_tuple_year env cfg row w ys Hy) as [e ->].
    unfold ret at 1. unfold bind, ret.
    assert (Hget' : get_completed_cities (after w [EvSession]) =
                    (Ok completed_geos, after w [EvSession])).
    { pose proof (get_completed_cities_fs (after w [EvSession]) w eq_refl) as Hfst.
      pose proof (get_completed_cities_world (after w [EvSession])) as Hsnd.
      destruct (get_completed_cities (after w [EvSession])) as [r w1].
      rewrite Hget in Hfst. cbn in Hfst, Hsnd. by subst. }
    rewrite !Hget'. eexists _, _. split; [done |]. cbn. eauto.
Qed.

Lemma tuple_year_stops_every_run_witness :
  exists (s : summary) (w' : world),
    main silent shipped [city_a; city_b; city_c] fresh = (Ok s, w') /\
    fs w' = fs fresh /\
    successful_cities (run s) = 0%nat /\
    match cities_to_process shipped [city_a; city_b; city_c] ∅ with
    | [] => outcomes (run s) = [] /\ w' = fresh
    | row :: _ => (exists e, outcomes (run s) = [(row, CriticalFailure e)]) /\
                  w' = after fresh [EvSession]
    end.
Proof.
  apply (tuple_year_stops_every_run silent shipped [city_a; city_b; city_c] fresh
           ∅ [2021; 2022; 2023; 2024]).
  - reflexivity.
  - reflexivity.
Defined.

(** * The script on its platform *)

(** ** The first embedding is the script on a reliable platform

    For a target year that the timestamp can hold, and on a platform whose
    writes do not fail, the script on its platform is the script of the
    first embedding, effect by effect. *)

Section Agreement.

Variable env : environment.

Lemma reliable_pd_date_range (year : year_value) (w : world) :
  Full.year_in_range year ->
  Full.pd_date_range (Full.reliable env) year w = pd_date_range year w.
Proof.
  destruct year as [y | ys]; [| done]. cbn. intros Hy.
  unfold Full.in_timestamp_range.
  by replace ((1678 <=? y) && (y <=? 2261)) with true by lia.
Qed.

Lemma reliable_fetch_city_trends (geo : string) (keywords : list string)
    (year : year_value) (max_retries : nat) (w : world) :
  Full.year_in_range year ->
  Full.fetch_city_trends (Full.reliable env) geo keywords year max_retries w =
  fetch_city_trends env geo keywords year max_retries w.
Proof.
  intros Hy. unfold Full.fetch_city_trends, fetch_city_trends, bind.
  cbn [Full.service Full.reliable].
  destruct (TrendReq env w) as [[[] | e] w1]; [| done].
  by rewrite reliable_pd_date_range.
Qed.

Lemma reliable_to_csv (rows : list line) (header : bool) (w : world) :
  Full.to_csv (Full.reliable env) rows header w = to_csv rows header w.
Proof. reflexivity. Qed.

Lemma reliable_process_city (cfg : config) (row : city) (w : world) :
  Full.year_in_range (YEAR cfg) ->
  Full.process_city (Full.reliable env) cfg row w = process_city env cfg row w.
Proof.
  intros Hy. unfold Full.process_city, process_city, bind.
  by rewrite reliable_fetch_city_trends.
Qed.

Lemma reliable_main_loop (cfg : config) (cities : list city) (t : tally) (w : world) :
  Full.year_in_range (YEAR cfg) ->
  Full.main_loop (Full.reliable env) cfg cities t w = main_loop env cfg cities t w.
Proof.
  intros Hy. revert t w.
  induction cities as [| row cities IH]; intros t w; [done |].
  cbn [Full.main_loop main_loop]. unfold bind, try_.
  rewrite reliable_process_city by done.
  destruct (process_city env cfg row w) as [[[n |] | e] w1]; [apply IH | apply IH | done].
Qed.

Lemma reliable_main (cfg : config) (df_cities : list city) (w : world) :
  Full.year_in_range (YEAR cfg) ->
  Full.main (Full.reliable env) cfg df_cities w = main env cfg df_cities w.
Proof.
  intros Hy. unfold Full.main, main, Full.run_batch, run_batch, bind.
  destruct (get_completed_cities w) as [[c | e] w1]; [| done].
  by rewrite reliable_main_loop.
Qed.

End Agreement.

(** * The script on its platform: the unit fetcher *)

Section FullFetch.

Variable p : Full.platform.

Lemma pd_date_range_timestamp_year (y : Z) (w : world) :
  1678 <= y <= 2261 ->
  Full.pd_date_range p (YearInt y) w =
    (Ok (date_range_W_SUN (ymd_to_ordinal y 1 1) (ymd_to_ordinal y 12 31)), w).
Proof.
  intros Hy. unfold Full.pd_date_range, Full.in_timestamp_range.
  by replace ((1678 <=? y) && (y <=? 2261)) with true by lia.
Qed.

(** Building the date range has no effect. *)
Lemma pd_date_range_world (year : year_value) (w : world) :
  snd (Full.pd_date_range p year w) = w.
Proof.
  unfold Full.pd_date_range. destruct year as [y | ys]; [| done].
  destruct (Full.in_timestamp_range y); [done |].
  destruct ((10000 <=? y) && (y <=? 99999)); [done |].
  by destruct (Full.short_year p y) as [[start stop] |].
Qed.

(** For a year of the timestamp range the fetcher is the one that reads the
    year as a calendar year. *)
Lemma fetch_city_trends_timestamp_year (geo : string) (keywords : list string)
    (y : Z) (max_retries : nat) (w : world) :
  1678 <= y <= 2261 ->
  Full.fetch_city_trends p geo keywords (YearInt y) max_retries w =
    fetch_city_trends (Full.service p) geo keywords (YearInt y) max_retries w.
Proof.
  intros Hy. unfold Full.fetch_city_trends, fetch_city_trends, bind.
  destruct (TrendReq (Full.service p) w) as [[[] | e] w1]; [| done].
  by rewrite pd_date_range_timestamp_year.
Qed.

End FullFetch.

(** C2, for the years the library can hold.  Completeness under an empty
    source: for a target year from 1678 to 2261, when the service has no data
    for a keyword of the entity, the fetcher returns, and its rows for that
    keyword carry each week-ending Sunday of the target year exactly once,
    every one with value zero. *)
Theorem empty_source_full_year_coverage (p : Full.platform) (geo : string)
    (keywords : list string) (y : Z) (max_retries : nat) (term : string)
    (w : world) :
  1678 <= y <= 2261 ->
  (0 < max_retries)%nat ->
  term ∈ keywords ->
  NoDup keywords ->
  trend_req (Full.service p) (effects w) = None ->
  (forall h, interest_over_time (Full.service p) h term geo (YearInt y) = Frame []) ->
  exists (df : list observation) (w' : world),
    Full.fetch_city_trends p geo keywords (YearInt y) max_retries w = (Ok df, w') /\
    NoDup (map date_of (rows_for term df)) /\
    (forall d, d ∈ map date_of (rows_for term df) <-> week_ending_sunday y d) /\
    Forall (fun o => search_count o = 0) (rows_for term df).
Proof.
  intros Hy Hmax Hterm Hnodup Hsession Hempty.
  rewrite fetch_city_trends_timestamp_year by done.
  by apply empty_source_calendar_year.
Qed.

Lemma empty_source_full_year_coverage_witness :
  exists (df : list observation) (w' : world),
    Full.fetch_city_trends (Full.reliable silent) "US-A" ["X"; "Y"] (YearInt 2023) 3
      fresh = (Ok df, w') /\
    NoDup (map date_of (rows_for "X" df)) /\
    (forall d, d ∈ map date_of (rows_for "X" df) <-> week_ending_sunday 2023 d) /\
    Forall (fun o => search_count o = 0) (rows_for "X" df).
Proof.
  apply (empty_source_full_year_coverage (Full.reliable silent) "US-A" ["X"; "Y"]
           2023 3 "X" fresh).
  - lia.
  - lia.
  - apply list_elem_of_here.
  - apply (NoDup_cons_2 "X" ["Y"]); [| apply NoDup_singleton].
    intros H%list_elem_of_singleton. discriminate H.
  - reflexivity.
  - intros h. reflexivity.
Defined.

(** C2 as it is worded, for every target year, fails.  With a source that
    has no data for X: for the target year 10000 the date range cannot be
    built and the fetcher raises before any request, so nothing is emitted;
    and for the target year 1, with the date parser as it answers today, the
    fetcher emits 1567 rows for X, none of them for a day of the year 1. *)
Lemma no_coverage_outside_the_timestamp_years :
  (exists e, Full.fetch_city_trends (Full.reliable silent) "US-A" ["X"]
               (YearInt 10000) 3 fresh = (Raise e, World None [EvSession])) /\
  (exists (df : list observation) (w' : world),
     Full.fetch_city_trends (Full.parser_today silent) "US-A" ["X"] (YearInt 1) 3
       fresh = (Ok df, w') /\
     length (rows_for "X" df) = 1567%nat /\
     Forall (fun o => ~ in_year 1 (date_of o)) df).
Proof.
  split; [eexists; reflexivity |].
  eexists _, _. split; [vm_compute; reflexivity |].
  split; [vm_compute; reflexivity |].
  assert (H : forallb (fun o => 365 <? date_of o)
                (zero_fill "X" (date_range_W_SUN 730486 741454)) = true)
    by (vm_compute; reflexivity).
  apply Forall_forall. intros o Ho%list_elem_of_In.
  apply (proj1 (forallb_forall _ _) H) in Ho. apply Z.ltb_lt in Ho.
  intros [_ Hle]. change (days_before_year (1 + 1)) with 365 in Hle. lia.
Qed.

(** X7. For a target year from 1678 to 2261 the date range of the zero
    fill is built without failure and has 52 or 53 dates, seven days apart;
    it has 53 exactly when the year begins on a Sunday, or is a leap year
    that begins on a Saturday. *)
Theorem zero_fill_has_52_or_53_weeks (p : Full.platform) (y : Z) (w : world) :
  1678 <= y <= 2261 ->
  exists dr : list date,
    Full.pd_date_range p (YearInt y) w = (Ok dr, w) /\
    (length dr = 52%nat \/ length dr = 53%nat) /\
    (length dr = 53%nat <->
     iso_weekday (ymd_to_ordinal y 1 1) = 7 \/
     (is_leap y = true /\ iso_weekday (ymd_to_ordinal y 1 1) = 6)) /\
    (forall (i : nat) (d d' : date),
       dr !! i = Some d -> dr !! S i = Some d' -> d' = d + 7).
Proof.
  intros Hy. eexists. split; [by apply pd_date_range_timestamp_year |].
  apply sundays_of_a_calendar_year.
Qed.

Lemma zero_fill_has_52_or_53_weeks_witness :
  exists dr : list date,
    Full.pd_date_range (Full.reliable silent) (YearInt 2023) fresh = (Ok dr, fresh) /\
    (length dr = 52%nat \/ length dr = 53%nat) /\
    (length dr = 53%nat <->
     iso_weekday (ymd_to_ordinal 2023 1 1) = 7 \/
     (is_leap 2023 = true /\ iso_weekday (ymd_to_ordinal 2023 1 1) = 6)) /\
    (forall (i : nat) (d d' : date),
       dr !! i = Some d -> dr !! S i = Some d' -> d' = d + 7).
Proof.
  apply (zero_fill_has_52_or_53_weeks (Full.reliable silent) 2023 fresh). lia.
Defined.

Section Blocks.

Variable env : environment.
Variables (geo : string) (year : year_value) (date_range : list date).
Variable max_retries : nat.

Lemma all_about_attempt (term : string) :
  Full.all_about geo term year (attempt_events geo term year).
Proof. repeat constructor; done. Qed.

Lemma all_about_attempt_sleep (term : string) (secs : nat) :
  Full.all_about geo term year (attempt_events geo term year ++ [EvSleep secs]).
Proof. repeat constructor; done. Qed.

Lemma retry_loop_about (term : string) (fuel retry_count : nat) (w : world) :
  (max_retries <= retry_count + fuel)%nat ->
  exists (r : keyword_exit) (evs : list event),
    retry_loop env fuel geo term year date_range max_retries retry_count w =
      (Ok r, after w evs) /\
    r <> OutOfFuel /\
    Full.all_about geo term year evs /\
    (attempts evs <= max_retries - retry_count)%nat /\
    ((retry_count < max_retries)%nat -> (1 <= attempts evs)%nat) /\
    sessions evs = 0%nat /\ writes evs = 0%nat.
Proof.
  revert retry_count w. induction fuel as [| fuel IH]; intros rc w Hfuel.
  - exists Skipped, []. rewrite retry_loop_done, after_nil by lia.
    repeat split; try done; try constructor; cbn; lia.
  - destruct (decide (rc < max_retries)%nat) as [Hlt | Hge].
    2: { exists Skipped, []. rewrite retry_loop_done, after_nil by lia.
         repeat split; try done; try constructor; cbn; lia. }
    rewrite retry_loop_S by done.
    pose proof (all_about_attempt term) as Habout.
    destruct (attempt_events_counts geo year term) as (Ha & Hs & Hw).
    destruct (answer env geo term year w) as [[| r rows] | msg].
    + eexists _, _. split; [done |]. rewrite Ha, Hs, Hw.
      repeat split; try done; lia.
    + eexists _, _. split; [done |]. rewrite Ha, Hs, Hw.
      repeat split; try done; lia.
    + destruct (contains "429" msg).
      * destruct (Nat.ltb_spec (S rc) max_retries).
        -- destruct (IH (S rc)
                       (after w (attempt_events geo term year ++
                                 [EvSleep (2 ^ S rc * 60)])))
             as (r & evs & -> & Hr & Hab & Hle & _ & Hs' & Hw'); [lia |].
           exists r, ((attempt_events geo term year ++
                       [EvSleep (2 ^ S rc * 60)]) ++ evs).
           rewrite after_after. split; [done |]. split; [done |].
           destruct (attempt_sleep_counts geo year term (2 ^ S rc * 60))
             as (Ha1 & Hs1 & Hw1).
           rewrite attempts_app, sessions_app, writes_app, Hs', Hw', Ha1, Hs1, Hw1.
           split; [| repeat split; try done; lia].
           apply Forall_app. split; [apply all_about_attempt_sleep | done].
        -- eexists _, _. split; [done |]. rewrite Ha, Hs, Hw.
           repeat split; try done; lia.
      * destruct (attempt_sleep_counts geo year term 5) as (Ha5 & Hs5 & Hw5).
        eexists _, _. split; [done |]. rewrite Ha5, Hs5, Hw5.
        repeat split; try done; try lia. apply all_about_attempt_sleep.
Qed.

Lemma for_terms_blocks (keywords : list string)
    (all_data : list (list observation)) (w : world) :
  exists (all : list (list observation)) (blocks : list (list event)),
    for_terms env geo year date_range max_retries keywords all_data w =
      (Ok all, after w (concat blocks)) /\
    Forall2 (fun term evs =>
               Full.all_about geo term year evs /\
               (attempts evs <= max_retries)%nat /\
               ((0 < max_retries)%nat -> (1 <= attempts evs)%nat) /\
               sessions evs = 0%nat /\ writes evs = 0%nat)
            keywords blocks.
Proof.
  revert all_data w. induction keywords as [| term keywords IH]; intros acc w.
  - exists acc, []. cbn. rewrite after_nil. split; [done | constructor].
  - destruct (retry_loop_about term max_retries 0 w)
      as (r & evs & Hloop & Hr & Hab & Hle & Hge & Hs & Hw); [lia |].
    cbn [for_terms]. unfold bind at 1. rewrite Hloop.
    assert (Hblock : Full.all_about geo term year evs /\
                     (attempts evs <= max_retries)%nat /\
                     ((0 < max_retries)%nat -> (1 <= attempts evs)%nat) /\
                     sessions evs = 0%nat /\ writes evs = 0%nat).
    { split; [done |]. split; [lia |]. split; [| done].
      intros ?. apply Hge. lia. }
    destruct r as [data | |]; [| | done].
    + destruct (IH (acc ++ [data]) (after w evs)) as (all & blocks & -> & Hbs).
      exists all, (evs :: blocks). cbn [concat]. rewrite after_after.
      split; [done |]. by constructor.
    + destruct (IH acc (after w evs)) as (all & blocks & -> & Hbs).
      exists all, (evs :: blocks). cbn [concat]. rewrite after_after.
      split; [done |]. by constructor.
Qed.

End Blocks.

(** X1. Whatever the service answers, one call of the fetcher opens one
    session and leaves the checkpoint file as it is.  When it raises it has
    made no request.  When it returns, its requests come keyword by keyword
    in the order of the list: for each keyword a block of events in which
    every request is about that keyword, for the city and the year of the
    call, with at most [max_retries] requests and, if one attempt is allowed
    at all, at least one; there is no session and no write in a block. *)
Theorem fetch_effects_bounded (p : Full.platform) (geo : string)
    (keywords : list string) (year : year_value) (max_retries : nat)
    (w : world) :
  exists (r : result (list observation)) (blocks : list (list event)),
    Full.fetch_city_trends p geo keywords year max_retries w =
      (r, after w (EvSession :: concat blocks)) /\
    match r with
    | Raise _ => blocks = []
    | Ok _ =>
      Forall2 (fun term evs =>
                 Full.all_about geo term year evs /\
                 (attempts evs <= max_retries)%nat /\
                 ((0 < max_retries)%nat -> (1 <= attempts evs)%nat) /\
                 sessions evs = 0%nat /\ writes evs = 0%nat)
              keywords blocks
    end.
Proof.
  unfold Full.fetch_city_trends, bind at 1, TrendReq.
  destruct (trend_req (Full.service p) (effects w)) as [msg |].
  { by exists (Raise (Error msg)), []. }
  unfold bind at 1.
  pose proof (pd_date_range_world p year (after w [EvSession])) as Hw.
  destruct (Full.pd_date_range p year (after w [EvSession])) as [[dr | e] w1];
    cbn in Hw; subst w1; [| by exists (Raise e), []].
  destruct (for_terms_blocks (Full.service p) geo year dr max_retries keywords []
              (after w [EvSession])) as (all & blocks & Hrun & Hblocks).
  unfold bind. rewrite Hrun, after_after. cbn [app].
  destruct all; by eexists (Ok _), blocks.
Qed.

(** * The script on its platform: the run driver *)

Section FullTurn.

Variable p : Full.platform.
Variable cfg : config.

(** The fetcher leaves the file alone, opens one session and writes
    nothing; it returns only for an integer year, with rows for keywords of
    the list. *)
Lemma full_fetch_cases (geo : string) (keywords : list string)
    (year : year_value) (max_retries : nat) (w : world) :
  exists evs : list event,
    sessions evs = 1%nat /\ writes evs = 0%nat /\
    ((exists e, Full.fetch_city_trends p geo keywords year max_retries w =
                  (Raise e, after w evs)) \/
     (exists df y,
        year = YearInt y /\
        Forall (fun o => search_term o ∈ keywords) df /\
        Full.fetch_city_trends p geo keywords year max_retries w =
          (Ok df, after w evs))).
Proof.
  unfold Full.fetch_city_trends, bind, TrendReq.
  destruct (trend_req (Full.service p) (effects w)) as [msg |] eqn:Hsession.
  { exists [EvSession]. split; [done |]. split; [done |]. left. by eexists. }
  pose proof (pd_date_range_world p year (after w [EvSession])) as Hw.
  destruct (Full.pd_date_range p year (after w [EvSession])) as [[dr | e] w1] eqn:Hdr;
    cbn in Hw; subst w1.
  2: { exists [EvSession]. split; [done |]. split; [done |]. left. by eexists. }
  destruct year as [y | ys]; [| done].
  destruct (for_terms_effects (Full.service p) geo (YearInt y) dr max_retries
              keywords [] (after w [EvSession]))
    as (all & evs & Hrun & _ & _ & Hs & Hwr).
  exists ([EvSession] ++ evs).
  rewrite sessions_app, writes_app, Hs, Hwr.
  split; [done |]. split; [done |]. right.
  exists (concat all), y. split; [done |].
  pose proof Hrun as Hterms.
  apply for_terms_order in Hterms as (counts & _ & Hterms).
  cbn [concat map app] in Hterms.
  split.
  - apply Forall_forall. intros o Ho.
    apply (elem_of_grouped_terms counts). rewrite <- Hterms.
    apply list_elem_of_fmap. eauto.
  - rewrite Hrun, after_after. by destruct all.
Qed.

(** One turn of the main loop's [try] block: the fetch raises; or nothing
    was retrieved; or the frame goes to [to_csv], which the disk lets
    through, refuses to open, or breaks. *)
Lemma full_process_city_cases (row : city) (w : world) :
  exists evs : list event,
    sessions evs = 1%nat /\ writes evs = 0%nat /\
    ((exists e, Full.process_city p cfg row w = (Raise e, after w evs)) \/
     Full.process_city p cfg row w =
       (Ok None, after w (evs ++ [EvSleepUniform 30 60])) \/
     (exists y df,
        YEAR cfg = YearInt y /\ df <> [] /\
        Forall (fun o => search_term o ∈ SEARCH_TERMS cfg) df /\
        let header := negb (bool_decide (is_Some (fs w))) in
        let text := (if header then [cols] else []) ++ saved_rows row y df in
        let call := EvToCsv (length df) header in
        Full.process_city p cfg row w =
          match Full.disk p (effects w ++ evs) text with
          | None =>
            (Ok (Some (length df)),
             World (append_lines text (fs w))
                   (effects w ++ evs ++ [call; EvSleepUniform 30 60]))
          | Some (Full.CannotOpen msg) =>
            (Raise (Error msg), World (fs w) (effects w ++ evs ++ [call]))
          | Some (Full.Breaks written msg) =>
            (Raise (Error msg),
             World (append_lines (take written text) (fs w))
                   (effects w ++ evs ++ [call]))
          end)).
Proof.
  unfold Full.process_city, bind.
  destruct (full_fetch_cases (geo_code row) (SEARCH_TERMS cfg) (YEAR cfg)
              default_max_retries w)
    as (evs & Hs & Hw & [(e & ->) | (df & y & Hy & Hterms & ->)]).
  { exists evs. split; [done |]. split; [done |]. left. by exists e. }
  exists evs. split; [done |]. split; [done |].
  destruct df as [| o df].
  { right. left. unfold ret, sleep_uniform, emit. by rewrite after_after. }
  right. right. exists y, (o :: df). split; [done |]. split; [done |].
  split; [done |].
  rewrite Hy. unfold year_column, ret, os_path_exists, Full.to_csv,
    sleep_uniform, emit, after.
  cbn [fs effects]. rewrite zip_with_replicate_r, length_map.
  fold (saved_rows row y (o :: df)).
  destruct (Full.disk p (effects w ++ evs) _) as [[msg | written msg] |];
    cbn [fs effects]; rewrite <- ?app_assoc; reflexivity.
Qed.

End FullTurn.

Section FullPass.

Variable p : Full.platform.
Variable cfg : config.

Lemma data_row_width (row : city) (l : line) :
  Full.data_row cfg row l -> length l = length cols.
Proof. by intros (o & y & _ & _ & ->). Qed.

Lemma data_row_code (row : city) (l : line) :
  Full.data_row cfg row l -> l !! 7%nat = Some (CStr (geo_code row)).
Proof. by intros (o & y & _ & _ & ->). Qed.

Lemma saved_rows_data_row (row : city) (y : Z) (df : list observation) :
  YEAR cfg = YearInt y ->
  Forall (fun o => search_term o ∈ SEARCH_TERMS cfg) df ->
  Forall (Full.data_row cfg row) (saved_rows row y df).
Proof.
  intros Hy Hterms. apply Forall_fmap. eapply Forall_impl; [exact Hterms |].
  intros o Ho. by exists o, y.
Qed.

Lemma appended_table_rows (f f' : option file) (new : list line) :
  Full.appended f new f' -> table_rows f' = table_rows f ++ new.
Proof.
  destruct f as [[| msg | first rest] |]; cbn; try done.
  - by intros ->.
  - by intros [[-> [-> | ->]] | ->].
Qed.

Lemma appended_nil (f : option file) :
  Full.written_by_driver f -> Full.appended f [] f.
Proof.
  destruct f as [[| msg | first rest] |]; cbn; try done.
  - by rewrite app_nil_r.
  - intros _. left. auto.
Qed.

Lemma appended_app (f f1 f2 : option file) (a b : list line) :
  Full.appended f a f1 ->
  Full.written_by_driver f1 ->
  Full.appended f1 b f2 ->
  Full.appended f (a ++ b) f2.
Proof.
  destruct f as [[| msg | first rest] |]; cbn; try done.
  - intros -> _. cbn. intros ->. by rewrite app_assoc.
  - intros [[-> [-> | ->]] | ->]; cbn; try done.
    intros _ ->. by right.
Qed.

Lemma appended_written (f f' : option file) (new : list line) :
  Full.written_by_driver f ->
  Full.appended f new f' ->
  Forall (fun l : line => length l = length cols) new ->
  f' <> Some Blank ->
  Full.written_by_driver f'.
Proof.
  destruct f as [[| msg | first rest] |]; cbn; try done.
  - intros [-> Hrest] -> Hnew _. cbn. split; [done |]. by apply Forall_app.
  - intros _ [[-> [-> | ->]] | ->] Hnew Hblank; cbn; done.
Qed.

(** The text that reaches the file when a write of [rows] breaks after
    [written] lines, and when it does not break at all. *)
Lemma appended_take (f : option file) (rows : list line) (written : nat) :
  Full.written_by_driver f ->
  let header := negb (bool_decide (is_Some f)) in
  Full.appended f (take (written - (if header then 1 else 0)) rows)
    (append_lines (take written ((if header then [cols] else []) ++ rows)) f).
Proof.
  destruct f as [[| msg | first rest] |]; cbn; try done.
  - intros _. by rewrite Nat.sub_0_r.
  - intros _. destruct written as [| k]; cbn.
    + left. rewrite take_0. auto.
    + right. by rewrite Nat.sub_0_r.
Qed.

Lemma appended_all (f : option file) (rows : list line) :
  Full.written_by_driver f ->
  rows <> [] ->
  let header := negb (bool_decide (is_Some f)) in
  Full.appended f rows (append_lines ((if header then [cols] else []) ++ rows) f).
Proof.
  destruct f as [[| msg | first rest] |]; cbn; try done.
  intros _ _. by right.
Qed.

Lemma append_lines_is_Some (new : list line) (f : option file) :
  is_Some (append_lines new f).
Proof. destruct f as [[| msg | first rest] |], new; by eexists. Qed.

Lemma append_lines_Blank (f : option file) (new : list line) :
  Full.written_by_driver f -> append_lines new f = Some Blank -> f = None /\ new = [].
Proof. destruct f as [[| msg | first rest] |], new; cbn; done. Qed.

(** One turn, summed up: its events, the lines [new] it put into the file,
    and what the outcome tells about them. *)
Lemma full_turn (row : city) (w w1 : world) (r : result (option nat)) :
  Full.process_city p cfg row w = (r, w1) ->
  exists (evs : list event) (new : list line),
    effects w1 = effects w ++ evs /\
    sessions evs = 1%nat /\
    (writes evs <= 1)%nat /\
    header_writes evs = match fs w with None => writes evs | Some _ => 0%nat end /\
    Forall (Full.data_row cfg row) new /\
    text_lines (fs w) `prefix_of` text_lines (fs w1) /\
    (is_Some (fs w) -> is_Some (fs w1)) /\
    (writes evs = 0%nat -> fs w1 = fs w /\ new = []) /\
    match r with
    | Ok (Some n) =>
      writes evs = 1%nat /\ n = length new /\ new <> [] /\ is_Some (fs w1)
    | Ok None => writes evs = 0%nat
    | Raise _ => True
    end /\
    (Full.written_by_driver (fs w) ->
     Full.appended (fs w) new (fs w1) /\
     (fs w1 = Some Blank -> exists e, r = Raise e)).
Proof.
  intros Hstep.
  destruct (full_process_city_cases p cfg row w)
    as (evs & Hs & Hw & [(e & Heq) | [Heq | (y & df & Hy & Hdf & Hterms & Heq)]]);
    rewrite Heq in Hstep.
  - injection Hstep as <- <-. exists evs, [].
    pose proof (header_writes_le evs) as Hh.
    assert (header_writes evs = 0%nat) as Hh0 by lia.
    rewrite Hs, Hw. cbn [fs effects after].
    repeat split; try done; try lia; try constructor.
    + by destruct (fs w).
    + by apply appended_nil.
    + intros Hb. by eexists.
  - injection Hstep as <- <-. exists (evs ++ [EvSleepUniform 30 60]), [].
    pose proof (header_writes_le evs) as Hh.
    rewrite sessions_app, writes_app, header_writes_app, Hs, Hw.
    change (sessions [EvSleepUniform 30 60]) with 0%nat.
    change (writes [EvSleepUniform 30 60]) with 0%nat.
    change (header_writes [EvSleepUniform 30 60]) with 0%nat.
    cbn [fs effects after].
    split; [done |]. split; [done |]. split; [lia |].
    split; [destruct (fs w); lia |].
    split; [constructor |]. split; [done |]. split; [done |].
    split; [done |]. split; [done |].
    intros Hok. split; [by apply appended_nil |].
    intros Hb. rewrite Hb in Hok. done.
  - cbv zeta in Heq.
    pose proof (saved_rows_data_row row y df Hy Hterms) as Hrows.
    pose proof (header_writes_le evs) as Hh.
    assert (Hcall : forall tail,
              sessions (evs ++ EvToCsv (length df) (negb (bool_decide (is_Some (fs w)))) :: tail)
                = (1 + sessions tail)%nat /\
              writes (evs ++ EvToCsv (length df) (negb (bool_decide (is_Some (fs w)))) :: tail)
                = (1 + writes tail)%nat /\
              header_writes (evs ++ EvToCsv (length df) (negb (bool_decide (is_Some (fs w)))) :: tail)
                = ((match fs w with None => 1 | Some _ => 0 end) + header_writes tail)%nat).
    { intros tail. rewrite sessions_app, writes_app, header_writes_app, Hs, Hw.
      replace (header_writes evs) with 0%nat by lia.
      destruct (fs w) as [f |];
        [rewrite bool_decide_eq_true_2 by (by eexists)
        | rewrite bool_decide_eq_false_2 by (by intros [? ?])];
        repeat split; unfold sessions, writes, header_writes; cbn; lia. }
    clear Heq. revert Hstep.
    destruct (Full.disk p (effects w ++ evs) _) as [[msg | written msg] |];
      intros [= <- <-]; cbn [fs effects].
    + (* the file cannot be opened *)
      exists (evs ++ [EvToCsv (length df) (negb (bool_decide (is_Some (fs w))))]), [].
      destruct (Hcall []) as (Hs1 & Hw1 & Hh1). rewrite Hs1, Hw1, Hh1.
      change (sessions []) with 0%nat. change (writes []) with 0%nat.
      change (header_writes []) with 0%nat.
      split; [done |]. split; [done |]. split; [lia |].
      split; [destruct (fs w); lia |].
      split; [constructor |]. split; [done |]. split; [done |].
      split; [intros; lia |]. split; [done |].
      intros Hok. split; [by apply appended_nil |]. intros _. by eexists.
    + (* the write breaks *)
      eexists (evs ++ [EvToCsv (length df) (negb (bool_decide (is_Some (fs w))))]), _.
      destruct (Hcall []) as (Hs1 & Hw1 & Hh1). rewrite Hs1, Hw1, Hh1.
      change (sessions []) with 0%nat. change (writes []) with 0%nat.
      change (header_writes []) with 0%nat.
      split; [done |]. split; [done |]. split; [lia |].
      split; [destruct (fs w); lia |].
      split; [apply Forall_take, Hrows |].
      split; [apply append_lines_text |].
      split; [intros _; apply append_lines_is_Some |].
      split; [intros; lia |]. split; [done |].
      intros Hok. split; [by apply appended_take |]. intros _. by eexists.
    + (* the write goes through *)
      exists (evs ++ [EvToCsv (length df) (negb (bool_decide (is_Some (fs w))));
                      EvSleepUniform 30 60]), (saved_rows row y df).
      destruct (Hcall [EvSleepUniform 30 60]) as (Hs1 & Hw1 & Hh1).
      rewrite Hs1, Hw1, Hh1.
      change (sessions [EvSleepUniform 30 60]) with 0%nat.
      change (writes [EvSleepUniform 30 60]) with 0%nat.
      change (header_writes [EvSleepUniform 30 60]) with 0%nat.
      split; [done |]. split; [done |]. split; [lia |].
      split; [destruct (fs w); lia |].
      split; [done |].
      split; [apply append_lines_text |].
      split; [intros _; apply append_lines_is_Some |].
      split; [intros; lia |].
      split.
      { split; [lia |]. unfold saved_rows. rewrite length_map.
        split; [done |]. split; [by destruct df | apply append_lines_is_Some]. }
      intros Hok. split.
      * apply appended_all; [done | by destruct df].
      * intros Hb. apply append_lines_Blank in Hb as [_ Hb]; [| done].
        destruct (negb _); [done |]. by destruct df.
Qed.

End FullPass.

Section FullBatch.

Variable p : Full.platform.
Variable cfg : config.

(** The main loop, read as a pass. *)
Lemma full_main_loop_batch_run (cities : list city) (t : tally) (w : world) :
  exists (os : list (city * city_outcome)) (w' : world),
    Full.batch_run p cfg cities w os w' /\
    Full.main_loop p cfg cities t w =
      (Ok (Tally (successful_cities t + length (filter (fun o => is_saved (snd o) = true) os))
                 (failed_cities t + length (filter (fun o => is_saved (snd o) = false) os))
                 (outcomes t ++ os)),
       w').
Proof.
  revert t w. induction cities as [| row cities IH]; intros t w.
  - exists [], w. split; [constructor |].
    cbn. destruct t. by rewrite !Nat.add_0_r, app_nil_r.
  - cbn [Full.main_loop]. unfold bind at 1, try_.
    destruct (Full.process_city p cfg row w) as [[[n |] | e] w1] eqn:Hstep.
    + destruct (IH (Tally (S (successful_cities t)) (failed_cities t)
                       (outcomes t ++ [(row, Saved n)])) w1)
        as (os & w' & Hrun & ->).
      exists ((row, Saved n) :: os), w'. split; [by econstructor |].
      cbn [successful_cities failed_cities outcomes].
      rewrite filter_cons_True, filter_cons_False by done.
      cbn [length]. rewrite <- app_assoc. cbn [app].
      do 3 f_equal; lia.
    + destruct (IH (Tally (successful_cities t) (S (failed_cities t))
                       (outcomes t ++ [(row, NoData)])) w1)
        as (os & w' & Hrun & ->).
      exists ((row, NoData) :: os), w'. split; [by econstructor |].
      cbn [successful_cities failed_cities outcomes].
      rewrite filter_cons_False, filter_cons_True by done.
      cbn [length]. rewrite <- app_assoc. cbn [app].
      do 3 f_equal; lia.
    + exists [(row, CriticalFailure e)], w1. split; [by econstructor |].
      unfold ret. cbn. by rewrite Nat.add_0_r, Nat.add_1_r.
Qed.

(** The cities attempted are an initial segment of the batch, and the
    whole batch unless a critical failure ended the pass. *)
Lemma full_batch_run_attempted (cities : list city) (w w' : world)
    (os : list (city * city_outcome)) :
  Full.batch_run p cfg cities w os w' ->
  map fst os = take (length os) cities /\
  (Forall (fun o => is_critical (snd o) = false) os -> map fst os = cities).
Proof.
  induction 1 as [w | row cities w w1 w' n os Hstep Hrun [IH1 IH2]
                    | row cities w w1 w' os Hstep Hrun [IH1 IH2]
                    | row cities w w1 e Hstep].
  - done.
  - cbn. rewrite <- IH1. split; [done |].
    intros [_ Hos]%Forall_cons. by rewrite IH2.
  - cbn. rewrite <- IH1. split; [done |].
    intros [_ Hos]%Forall_cons. by rewrite IH2.
  - cbn. rewrite take_0. split; [done |]. by intros [? _]%Forall_cons.
Qed.

(** A critical failure is the last thing a pass does. *)
Lemma full_batch_run_critical (cities : list city) (w w' : world)
    (os : list (city * city_outcome)) (i : nat) (row : city) (e : exn) :
  Full.batch_run p cfg cities w os w' ->
  os !! i = Some (row, CriticalFailure e) ->
  length os = S i /\
  exists w1,
    Full.batch_run p cfg (take i cities) w (take i os) w1 /\
    Forall (fun o => is_critical (snd o) = false) (take i os) /\
    Full.process_city p cfg row w1 = (Raise e, w').
Proof.
  intros Hrun. revert i.
  induction Hrun as [w | r cities w w1 w' n os Hstep Hrun IH
                       | r cities w w1 w' os Hstep Hrun IH
                       | r cities w w1 e' Hstep]; intros i Hi.
  - done.
  - destruct i as [| i]; [done |]. cbn in Hi.
    destruct (IH i Hi) as (Hlen & w0 & Hpre & Hnc & Hfail).
    split; [cbn; lia |]. exists w0. cbn [take].
    split; [by econstructor |]. split; [by constructor | done].
  - destruct i as [| i]; [done |]. cbn in Hi.
    destruct (IH i Hi) as (Hlen & w0 & Hpre & Hnc & Hfail).
    split; [cbn; lia |]. exists w0. cbn [take].
    split; [by econstructor |]. split; [by constructor | done].
  - destruct i as [| i]; [| done]. injection Hi as -> ->.
    split; [done |]. exists w. split; [constructor |]. split; [constructor | done].
Qed.

(** The text in the file only ever grows at the end. *)
Lemma full_batch_run_text_lines (cities : list city) (w w' : world)
    (os : list (city * city_outcome)) :
  Full.batch_run p cfg cities w os w' ->
  text_lines (fs w) `prefix_of` text_lines (fs w').
Proof.
  induction 1 as [w | row cities w w1 w' n os Hstep Hrun IH
                    | row cities w w1 w' os Hstep Hrun IH
                    | row cities w w1 e Hstep]; [done | | |].
  - apply full_turn in Hstep as (evs & new & _ & _ & _ & _ & _ & Htext & _).
    by etrans.
  - apply full_turn in Hstep as (evs & new & _ & _ & _ & _ & _ & Htext & _).
    by etrans.
  - by apply full_turn in Hstep as (evs & new & _ & _ & _ & _ & _ & Htext & _).
Qed.

(** The events of a pass, turn by turn. *)
Lemma full_batch_run_blocks (cities : list city) (w w' : world)
    (os : list (city * city_outcome)) :
  Full.batch_run p cfg cities w os w' ->
  exists blocks : list (list event),
    effects w' = effects w ++ concat blocks /\
    Forall2 (fun o evs =>
               sessions evs = 1%nat /\
               match snd o with
               | Saved _ => writes evs = 1%nat
               | NoData => writes evs = 0%nat
               | CriticalFailure _ => (writes evs <= 1)%nat
               end) os blocks /\
    header_writes (concat blocks) =
      match fs w with
      | None => (1 `min` writes (concat blocks))%nat
      | Some _ => 0%nat
      end /\
    (is_Some (fs w) -> is_Some (fs w')).
Proof.
  induction 1 as [w | row cities w w1 w' n os Hstep Hrun IH
                    | row cities w w1 w' os Hstep Hrun IH
                    | row cities w w1 e Hstep].
  - exists []. cbn. rewrite app_nil_r. repeat split; [constructor | | done].
    by destruct (fs w).
  - apply full_turn in Hstep
      as (evs & new & Heff & Hs & Hle & Hh & _ & _ & Hsome & _ & (Hw1 & _ & _ & Hfile) & _).
    destruct IH as (blocks & Heff' & Hblocks & Hh' & Hsome').
    exists (evs :: blocks). cbn [concat].
    rewrite Heff', Heff, <- app_assoc. split; [done |].
    split; [by constructor |].
    rewrite header_writes_app, writes_app, Hh, Hh', Hw1.
    destruct Hfile as [f1 Hf1]. rewrite Hf1.
    split; [destruct (fs w); lia |].
    intros _. apply Hsome'. by rewrite Hf1.
  - apply full_turn in Hstep
      as (evs & new & Heff & Hs & Hle & Hh & _ & _ & Hsome & Hsame & Hw0 & _).
    destruct IH as (blocks & Heff' & Hblocks & Hh' & Hsome').
    exists (evs :: blocks). cbn [concat].
    rewrite Heff', Heff, <- app_assoc. split; [done |].
    split; [by constructor |].
    destruct (Hsame Hw0) as [Hfs _].
    rewrite header_writes_app, writes_app, Hh, Hh', Hw0, Hfs. cbn [Nat.add].
    split; [by destruct (fs w) |]. rewrite <- Hfs. auto.
  - apply full_turn in Hstep
      as (evs & new & Heff & Hs & Hle & Hh & _ & _ & Hsome & _).
    exists [evs]. cbn [concat]. rewrite app_nil_r.
    split; [done |]. split; [constructor; [by split | constructor] |].
    rewrite Hh. split; [destruct (fs w); lia | done].
Qed.

Lemma get_completed_cities_appended (w w' : world) (new : list line) :
  Full.written_by_driver (fs w) ->
  Full.appended (fs w) new (fs w') ->
  get_completed_cities w =
    (Ok (list_to_set (column 7 (table_rows (fs w)))), w) /\
  get_completed_cities w' =
    (Ok (list_to_set (column 7 (table_rows (fs w))) ∪
         list_to_set (column 7 new)), w').
Proof.
  intros Hok Happ.
  pose proof (appended_table_rows _ _ _ Happ) as Hrows.
  unfold get_completed_cities.
  destruct (fs w) as [[| msg | first rest] |] eqn:Hfs; try done; cbn in *.
  - destruct Hok as [-> _]. rewrite Happ. cbn.
    split; [done |]. by rewrite column_app, list_to_set_app_L.
  - rewrite (left_id_L ∅ (∪)).
    destruct Happ as [[-> [-> | ->]] | ->]; cbn; done.
Qed.

(** The lines a pass puts into a checkpoint of the driver's own, turn by
    turn. *)
Lemma full_batch_run_parts (cities : list city) (w w' : world)
    (os : list (city * city_outcome)) :
  Full.batch_run p cfg cities w os w' ->
  Full.written_by_driver (fs w) ->
  exists parts : list (list line),
    Forall2 (fun o part =>
               Forall (Full.data_row cfg (fst o)) part /\
               match snd o with
               | Saved n => n = length part /\ part <> []
               | NoData => part = []
               | CriticalFailure _ => True
               end) os parts /\
    Full.appended (fs w) (concat parts) (fs w').
Proof.
  induction 1 as [w | row cities w w1 w' n os Hstep Hrun IH
                    | row cities w w1 w' os Hstep Hrun IH
                    | row cities w w1 e Hstep]; intros Hok.
  - exists []. split; [constructor | by apply appended_nil].
  - apply full_turn in Hstep
      as (evs & new & _ & _ & _ & _ & Hnew & _ & _ & _ & (_ & Hn & Hne & _) & Happ).
    destruct (Happ Hok) as [Happ1 Hblank].
    assert (Hok1 : Full.written_by_driver (fs w1)).
    { apply (appended_written (fs w) (fs w1) new); try done.
      - eapply Forall_impl; [exact Hnew |]. apply data_row_width.
      - intros Hb. by destruct (Hblank Hb). }
    destruct (IH Hok1) as (parts & Hparts & Happ2).
    exists (new :: parts). split; [by constructor |].
    cbn [concat]. by eapply appended_app.
  - apply full_turn in Hstep
      as (evs & new & _ & _ & _ & _ & Hnew & _ & _ & Hsame & Hw0 & Happ).
    destruct (Hsame Hw0) as [Hfs ->]. rewrite Hfs in IH.
    destruct (IH Hok) as (parts & Hparts & Happ2).
    exists ([] :: parts).
    split; [constructor; [cbn; split; [constructor | done] | done] |].
    done.
  - apply full_turn in Hstep
      as (evs & new & _ & _ & _ & _ & Hnew & _ & _ & _ & _ & Happ).
    destruct (Happ Hok) as [Happ1 _].
    exists [new]. split; [constructor; [cbn; by split | constructor] |].
    cbn [concat]. by rewrite app_nil_r.
Qed.

Lemma critical_codes_cons (row : city) (o : city_outcome)
    (os : list (city * city_outcome)) :
  Full.critical_codes ((row, o) :: os) =
  if is_critical o then CStr (geo_code row) :: Full.critical_codes os
  else Full.critical_codes os.
Proof.
  unfold Full.critical_codes. destruct (is_critical o) eqn:Ho.
  - by rewrite filter_cons_True.
  - rewrite filter_cons_False; [done |]. cbn. by rewrite Ho.
Qed.

(** The codes of the lines that a pass added. *)
Lemma parts_codes (os : list (city * city_outcome)) (parts : list (list line)) :
  Forall2 (fun o part =>
             Forall (Full.data_row cfg (fst o)) part /\
             match snd o with
             | Saved n => n = length part /\ part <> []
             | NoData => part = []
             | CriticalFailure _ => True
             end) os parts ->
  (forall c, c ∈ saved_codes os -> c ∈ column 7 (concat parts)) /\
  (forall c, c ∈ column 7 (concat parts) ->
             c ∈ saved_codes os \/ c ∈ Full.critical_codes os) /\
  (forall c, c ∈ column 7 (concat parts) ->
             exists o, o ∈ os /\ c = CStr (geo_code (fst o))).
Proof.
  induction 1 as [| [row o] part os parts [Hrows Ho] Hrest (IH1 & IH2 & IH3)].
  - cbn. repeat split; intros c Hc; by apply not_elem_of_nil in Hc.
  - cbn [fst snd] in *. cbn [concat].
    rewrite saved_codes_cons, critical_codes_cons.
    assert (Hcol : forall c, c ∈ column 7 part -> c = CStr (geo_code row)).
    { intros c Hc. apply elem_of_column in Hc as (l & Hl & Hc).
      rewrite Forall_forall in Hrows. apply Hrows, data_row_code in Hl.
      congruence. }
    split; [| split].
    + intros c Hc. rewrite column_app, elem_of_app.
      destruct o as [n | | e]; cbn [is_saved] in Hc;
        [| right; by apply IH1 | right; by apply IH1].
      apply elem_of_cons in Hc as [-> | Hc]; [| right; by apply IH1].
      left. destruct Ho as [_ Hne]. destruct part as [| l part]; [done |].
      apply elem_of_column. exists l. split; [apply list_elem_of_here |].
      apply (data_row_code cfg row). by apply Forall_cons in Hrows as [? _].
    + intros c. rewrite column_app, elem_of_app. intros [Hc | Hc].
      * pose proof (Hcol c Hc) as ->.
        destruct o as [n | | e]; cbn [is_saved is_critical].
        -- left. apply list_elem_of_here.
        -- subst part. by apply not_elem_of_nil in Hc.
        -- right. apply list_elem_of_here.
      * destruct (IH2 c Hc) as [Hs | Hcr].
        -- left. destruct (is_saved o); [by apply list_elem_of_further | done].
        -- right. destruct (is_critical o); [by apply list_elem_of_further | done].
    + intros c. rewrite column_app, elem_of_app. intros [Hc | Hc].
      * pose proof (Hcol c Hc) as ->.
        exists (row, o). split; [apply list_elem_of_here | done].
      * destruct (IH3 c Hc) as (o' & Ho' & ->).
        exists o'. split; [by apply list_elem_of_further | done].
Qed.

(** What [main] amounts to once the tracker has returned. *)
Lemma full_main_batch_run (df_cities : list city) (w w' : world) (s : summary)
    (completed_geos : gset cell) :
  get_completed_cities w = (Ok completed_geos, w) ->
  Full.main p cfg df_cities w = (Ok s, w') ->
  Full.batch_run p cfg (cities_to_process cfg df_cities completed_geos) w
    (outcomes (run s)) w' /\
  successful_cities (run s) =
    length (filter (fun o => is_saved (snd o) = true) (outcomes (run s))) /\
  failed_cities (run s) =
    length (filter (fun o => is_saved (snd o) = false) (outcomes (run s))) /\
  exists done_after : gset cell,
    get_completed_cities w' = (Ok done_after, w') /\
    completed_so_far s = size done_after /\
    remaining s = Z.of_nat (length df_cities) - Z.of_nat (size done_after).
Proof.
  intros Hget Hmain. unfold Full.main, bind at 1 in Hmain. rewrite Hget in Hmain.
  unfold Full.run_batch, bind at 1 in Hmain.
  destruct (full_main_loop_batch_run
              (cities_to_process cfg df_cities completed_geos) (Tally 0 0 []) w)
    as (os & w2 & Hrun & Hloop).
  rewrite Hloop in Hmain. unfold bind, ret in Hmain.
  pose proof (get_completed_cities_world w2) as Hw2.
  destruct (get_completed_cities w2) as [[c2 | e2] w3] eqn:Hget2;
    cbn in Hw2; subst w3; [| done].
  rewrite !Hget2 in Hmain. injection Hmain as <- <-.
  cbn [run outcomes successful_cities failed_cities app Nat.add].
  split; [done |]. split; [done |]. split; [done |].
  by exists c2.
Qed.

End FullBatch.

Lemma blocks_sessions (os : list (city * city_outcome)) (blocks : list (list event)) :
  Forall2 (fun o evs =>
             sessions evs = 1%nat /\
             match snd o with
             | Saved _ => writes evs = 1%nat
             | NoData => writes evs = 0%nat
             | CriticalFailure _ => (writes evs <= 1)%nat
             end) os blocks ->
  sessions (concat blocks) = length os.
Proof.
  induction 1 as [| o evs os blocks [Hs _] _ IH]; [done |].
  cbn [concat length]. by rewrite sessions_app, Hs, IH.
Qed.

Lemma full_main_tracker (p : Full.platform) (cfg : config) (df_cities : list city)
    (w w' : world) (s : summary) :
  Full.main p cfg df_cities w = (Ok s, w') ->
  exists completed_geos : gset cell, get_completed_cities w = (Ok completed_geos, w).
Proof.
  unfold Full.main, bind at 1.
  pose proof (get_completed_cities_world w) as Hw.
  destruct (get_completed_cities w) as [[c | e] w0]; cbn in Hw; subst w0; [| done].
  by exists c.
Qed.


(** C5, as the code has it.  When an exception escapes the handling of one
    city, that city is the last one of the batch to be attempted: the run
    ends in the very world the failing turn ended in, so no session, query
    or write follows; the text that was in the file when the failing turn
    began, after everything the earlier cities had appended, is still at
    the head of the file; and the city is counted among the failed ones.
    When the failing turn made no call of [to_csv] (the exception came from
    the fetch), the file is as it was when the turn began and the set of
    completed codes is the same. *)
Theorem critical_failure_stops_the_batch (p : Full.platform) (cfg : config)
    (df_cities : list city) (w w' : world) (s : summary) (i : nat) (row : city)
    (e : exn) :
  Full.main p cfg df_cities w = (Ok s, w') ->
  outcomes (run s) !! i = Some (row, CriticalFailure e) ->
  exists (completed_geos : gset cell) (w1 : world) (evs : list event),
    get_completed_cities w = (Ok completed_geos, w) /\
    length (outcomes (run s)) = S i /\
    map fst (outcomes (run s)) =
      take (S i) (cities_to_process cfg df_cities completed_geos) /\
    failed_cities (run s) =
      length (filter (fun o => is_saved (snd o) = false) (outcomes (run s))) /\
    (0 < failed_cities (run s))%nat /\
    Full.batch_run p cfg (take i (cities_to_process cfg df_cities completed_geos)) w
      (take i (outcomes (run s))) w1 /\
    Forall (fun o => is_critical (snd o) = false) (take i (outcomes (run s))) /\
    Full.process_city p cfg row w1 = (Raise e, w') /\
    effects w' = effects w1 ++ evs /\
    sessions evs = 1%nat /\
    (writes evs <= 1)%nat /\
    text_lines (fs w) `prefix_of` text_lines (fs w1) /\
    text_lines (fs w1) `prefix_of` text_lines (fs w') /\
    (writes evs = 0%nat ->
     fs w' = fs w1 /\
     fst (get_completed_cities w') = fst (get_completed_cities w1)).
Proof.
  intros Hmain Hi.
  destruct (full_main_tracker p cfg df_cities w w' s Hmain) as [c Hget].
  destruct (full_main_batch_run p cfg df_cities w w' s c Hget Hmain)
    as (Hrun & _ & Hfailed & _).
  destruct (full_batch_run_critical p cfg _ w w' _ i row e Hrun Hi)
    as (Hlen & w1 & Hpre & Hnc & Hstep).
  destruct (full_batch_run_attempted p cfg _ w w' _ Hrun) as [Hatt _].
  destruct (full_turn p cfg row w1 w' (Raise e) Hstep)
    as (evs & new & Heff & Hs & Hle & _ & _ & Htext & _ & Hsame & _).
  exists c, w1, evs.
  split; [done |]. split; [done |]. split; [by rewrite <- Hlen |].
  split; [done |]. split.
  { rewrite Hfailed. apply list_elem_of_lookup_2 in Hi.
    assert (Hin : (row, CriticalFailure e) ∈
                  filter (fun o => is_saved (snd o) = false) (outcomes (run s)))
      by (by apply list_elem_of_filter).
    destruct (filter _ (outcomes (run s))); [by apply not_elem_of_nil in Hin |].
    cbn. lia. }
  split; [done |]. split; [done |]. split; [done |]. split; [done |].
  split; [done |]. split; [done |].
  split; [by eapply full_batch_run_text_lines |]. split; [done |].
  intros Hw0. destruct (Hsame Hw0) as [Hfs _]. split; [done |].
  by apply get_completed_cities_fs.
Qed.

Lemma critical_failure_stops_the_batch_witness :
  exists (s : summary) (w' : world) (e : exn),
    Full.main (Full.reliable Full.one_session) (one_keyword 2) [city_a; city_b; city_c] fresh =
      (Ok s, w') /\
    outcomes (run s) !! 1%nat = Some (city_b, CriticalFailure e) /\
    exists (completed_geos : gset cell) (w1 : world) (evs : list event),
      get_completed_cities fresh = (Ok completed_geos, fresh) /\
      length (outcomes (run s)) = 2%nat /\
      map fst (outcomes (run s)) =
        take 2 (cities_to_process (one_keyword 2) [city_a; city_b; city_c]
                  completed_geos) /\
      failed_cities (run s) =
        length (filter (fun o => is_saved (snd o) = false) (outcomes (run s))) /\
      (0 < failed_cities (run s))%nat /\
      Full.batch_run (Full.reliable Full.one_session) (one_keyword 2)
        (take 1 (cities_to_process (one_keyword 2) [city_a; city_b; city_c]
                   completed_geos)) fresh
        (take 1 (outcomes (run s))) w1 /\
      Forall (fun o => is_critical (snd o) = false) (take 1 (outcomes (run s))) /\
      Full.process_city (Full.reliable Full.one_session) (one_keyword 2) city_b w1 =
        (Raise e, w') /\
      effects w' = effects w1 ++ evs /\
      sessions evs = 1%nat /\
      (writes evs <= 1)%nat /\
      text_lines (fs fresh) `prefix_of` text_lines (fs w1) /\
      text_lines (fs w1) `prefix_of` text_lines (fs w') /\
      (writes evs = 0%nat ->
       fs w' = fs w1 /\
       fst (get_completed_cities w') = fst (get_completed_cities w1)).
Proof.
  eexists _, _, _. split; [vm_compute; reflexivity |].
  split; [reflexivity |].
  eapply (critical_failure_stops_the_batch (Full.reliable Full.one_session) (one_keyword 2)
            [city_a; city_b; city_c] fresh).
  - vm_compute. reflexivity.
  - reflexivity.
Defined.

(** C5 as it is worded fails for a write that breaks part-way.  The first
    city is saved; the write for the second one raises when two of its rows
    are in the file.  The second city is counted as failed and the run
    stops, but its code is in the file, so the tracker counts it as
    completed and the next run does not fetch it again. *)
Lemma broken_write_completes_the_failing_city :
  exists (s : summary) (w' : world) (e : exn),
    Full.main (Full.fills_up silent) (one_keyword 2) [city_a; city_b; city_c] fresh =
      (Ok s, w') /\
    outcomes (run s) = [(city_a, Saved 53); (city_b, CriticalFailure e)] /\
    failed_cities (run s) = 1%nat /\
    length (table_rows (fs w')) = 55%nat /\
    get_completed_cities w' = (Ok {[CStr "US-A"; CStr "US-B"]}, w') /\
    remaining_cities [city_a; city_b; city_c] {[CStr "US-A"; CStr "US-B"]} = [city_c].
Proof.
  eexists _, _, _. split; [vm_compute; reflexivity |].
  split; [reflexivity |]. split; [reflexivity |]. split; [reflexivity |].
  split; [vm_compute; reflexivity |]. vm_compute. reflexivity.
Qed.

(** C9, for the run driver as a whole.  When more cities remain than the
    quota allows, the batch selected for one invocation is the first quota
    remaining cities in catalog order.  The cities attempted are an initial
    segment of that batch, one session each; they are the whole batch unless
    a turn ended in a critical failure, and with a critical failure at
    position [i] they are the first [i + 1] cities of the batch. *)
Theorem quota_bounds_the_batch (p : Full.platform) (cfg : config)
    (df_cities : list city) (completed_geos : gset cell) (w w' : world)
    (s : summary) :
  get_completed_cities w = (Ok completed_geos, w) ->
  (MAX_CITIES_PER_RUN cfg < length (remaining_cities df_cities completed_geos))%nat ->
  Full.main p cfg df_cities w = (Ok s, w') ->
  let selected := cities_to_process cfg df_cities completed_geos in
  let attempted := map fst (outcomes (run s)) in
  selected = take (MAX_CITIES_PER_RUN cfg) (remaining_cities df_cities completed_geos) /\
  length selected = MAX_CITIES_PER_RUN cfg /\
  attempted = take (length attempted) selected /\
  (length attempted <= MAX_CITIES_PER_RUN cfg)%nat /\
  (exists evs : list event,
     effects w' = effects w ++ evs /\ sessions evs = length attempted) /\
  (Forall (fun o => is_critical (snd o) = false) (outcomes (run s)) ->
   attempted = selected /\ length attempted = MAX_CITIES_PER_RUN cfg) /\
  (forall (i : nat) (row : city) (e : exn),
     outcomes (run s) !! i = Some (row, CriticalFailure e) ->
     attempted = take (S i) selected /\ length attempted = S i).
Proof.
  intros Hget Hquota Hmain selected attempted.
  destruct (full_main_batch_run p cfg df_cities w w' s completed_geos Hget Hmain)
    as (Hrun & _).
  destruct (full_batch_run_attempted p cfg _ w w' _ Hrun) as [Hatt Hall].
  destruct (full_batch_run_blocks p cfg _ w w' _ Hrun)
    as (blocks & Heff & Hblocks & _).
  assert (Hlen : length selected = MAX_CITIES_PER_RUN cfg).
  { subst selected. unfold cities_to_process, head. rewrite length_take. lia. }
  assert (Hlen' : length attempted = length (outcomes (run s)))
    by (subst attempted; apply length_map).
  split; [done |]. split; [done |].
  split; [by rewrite Hlen' |].
  split.
  { rewrite <- Hlen. subst attempted selected. rewrite Hatt at 1.
    rewrite length_take. lia. }
  split.
  { exists (concat blocks). split; [done |].
    rewrite Hlen'. by apply blocks_sessions. }
  split.
  - intros Hnc. specialize (Hall Hnc). split; [done |].
    subst attempted. by rewrite Hall.
  - intros i row e Hi.
    destruct (full_batch_run_critical p cfg _ w w' _ i row e Hrun Hi) as [Hi' _].
    split; [| lia]. subst attempted. by rewrite <- Hi'.
Qed.

Lemma quota_bounds_the_batch_witness :
  exists (s : summary) (w' : world),
    Full.main (Full.reliable silent) (one_keyword 2) [city_a; city_b; city_c] fresh =
      (Ok s, w') /\
    let selected := cities_to_process (one_keyword 2) [city_a; city_b; city_c] ∅ in
    let attempted := map fst (outcomes (run s)) in
    selected = take 2 (remaining_cities [city_a; city_b; city_c] ∅) /\
    length selected = 2%nat /\
    attempted = take (length attempted) selected /\
    (length attempted <= 2)%nat /\
    (exists evs : list event,
       effects w' = effects fresh ++ evs /\ sessions evs = length attempted) /\
    (Forall (fun o => is_critical (snd o) = false) (outcomes (run s)) ->
     attempted = selected /\ length attempted = 2%nat) /\
    (forall (i : nat) (row : city) (e : exn),
       outcomes (run s) !! i = Some (row, CriticalFailure e) ->
       attempted = take (S i) selected /\ length attempted = S i).
Proof.
  eexists _, _. split; [vm_compute; reflexivity |].
  apply (quota_bounds_the_batch (Full.reliable silent) (one_keyword 2)
           [city_a; city_b; city_c] ∅ fresh).
  - reflexivity.
  - vm_compute. lia.
  - vm_compute. reflexivity.
Defined.

(** C9 as it is worded fails when a turn ends in a critical failure: three
    cities remain and the quota is two, but the session of the first city
    cannot be opened, the loop breaks, and one city has been attempted. *)
Lemma quota_not_reached_after_critical_failure :
  exists (s : summary) (w' : world),
    get_completed_cities fresh = (Ok ∅, fresh) /\
    (MAX_CITIES_PER_RUN (one_keyword 2) <
       length (remaining_cities [city_a; city_b; city_c] ∅))%nat /\
    Full.main (Full.reliable unreachable) (one_keyword 2) [city_a; city_b; city_c]
      fresh = (Ok s, w') /\
    map fst (outcomes (run s)) = [city_a] /\
    effects w' = [EvSession] /\
    length (outcomes (run s)) <> MAX_CITIES_PER_RUN (one_keyword 2).
Proof.
  eexists _, _. split; [reflexivity |]. split; [vm_compute; lia |].
  split; [vm_compute; reflexivity |].
  split; [reflexivity |]. split; [reflexivity |]. cbn. lia.
Qed.

(** X9. A run only appends, city by city.  Over a checkpoint of whole rows
    that the driver wrote itself, also when a write fails (before the file
    is opened, or between two lines), the rows a run adds are the
    concatenation of one part for each city attempted, in order: the part of a city reported saved with [n] rows has exactly [n]
    rows, the part of a city without data is empty, and every row of a part
    carries the metadata of its own city, the year of the configuration and
    a keyword of the configuration.  The rows that were there stay above
    them; a checkpoint that did not exist starts with the header of [cols]. *)
Theorem run_only_appends (p : Full.platform) (cfg : config) (df_cities : list city)
    (w w' : world) (s : summary) :
  Full.written_by_driver (fs w) ->
  Full.main p cfg df_cities w = (Ok s, w') ->
  exists parts : list (list line),
    Forall2 (fun o part =>
               Forall (Full.data_row cfg (fst o)) part /\
               match snd o with
               | Saved n => n = length part /\ part <> []
               | NoData => part = []
               | CriticalFailure _ => True
               end) (outcomes (run s)) parts /\
    Full.appended (fs w) (concat parts) (fs w') /\
    table_rows (fs w') = table_rows (fs w) ++ concat parts /\
    text_lines (fs w) `prefix_of` text_lines (fs w').
Proof.
  intros Hok Hmain.
  destruct (full_main_tracker p cfg df_cities w w' s Hmain) as [c Hget].
  destruct (full_main_batch_run p cfg df_cities w w' s c Hget Hmain) as (Hrun & _).
  destruct (full_batch_run_parts p cfg _ w w' _ Hrun Hok) as (parts & Hparts & Happ).
  exists parts. split; [done |]. split; [done |].
  split; [by apply appended_table_rows |].
  by eapply full_batch_run_text_lines.
Qed.

Lemma run_only_appends_witness :
  exists (s : summary) (w' : world),
    Full.main (Full.fills_up silent) (one_keyword 2) [city_a; city_b; city_c] fresh =
      (Ok s, w') /\
    exists parts : list (list line),
      Forall2 (fun o part =>
                 Forall (Full.data_row (one_keyword 2) (fst o)) part /\
                 match snd o with
                 | Saved n => n = length part /\ part <> []
                 | NoData => part = []
                 | CriticalFailure _ => True
                 end) (outcomes (run s)) parts /\
      Full.appended (fs fresh) (concat parts) (fs w') /\
      table_rows (fs w') = table_rows (fs fresh) ++ concat parts /\
      text_lines (fs fresh) `prefix_of` text_lines (fs w').
Proof.
  eexists _, _. split; [vm_compute; reflexivity |].
  apply (run_only_appends (Full.fills_up silent) (one_keyword 2)
           [city_a; city_b; city_c] fresh).
  - exact I.
  - vm_compute. reflexivity.
Defined.

(** X10. Progress after a run.  Over a checkpoint of whole rows that the
    driver wrote itself, also when a write fails (before the file is opened,
    or between two lines), the completed codes after a run are the completed
    codes before it together with the codes in the parts the run appended
    (one part per city attempted, as in X9).  So every city reported saved
    is completed, even when some of its keywords were skipped; a city
    without data is not added; a city whose turn ended in a critical failure
    is added exactly when a write had put rows of it into the file before it
    failed.  Without a critical failure the completed codes are those before
    the run and those of the saved cities. *)
Theorem completed_after_run (p : Full.platform) (cfg : config)
    (df_cities : list city) (w w' : world) (s : summary) :
  Full.written_by_driver (fs w) ->
  Full.main p cfg df_cities w = (Ok s, w') ->
  exists (done_before done_after : gset cell) (parts : list (list line)),
    get_completed_cities w = (Ok done_before, w) /\
    get_completed_cities w' = (Ok done_after, w') /\
    Forall2 (fun o part =>
               Forall (fun l : line => l !! 7%nat = Some (CStr (geo_code (fst o)))) part /\
               match snd o with
               | Saved n => n = length part /\ part <> []
               | NoData => part = []
               | CriticalFailure _ => True
               end) (outcomes (run s)) parts /\
    table_rows (fs w') = table_rows (fs w) ++ concat parts /\
    done_after = done_before ∪ list_to_set (column 7 (concat parts)) /\
    done_before ∪ list_to_set (saved_codes (outcomes (run s))) ⊆ done_after /\
    done_after ⊆ done_before ∪ list_to_set (saved_codes (outcomes (run s)))
                   ∪ list_to_set (Full.critical_codes (outcomes (run s))) /\
    (Forall (fun o => is_critical (snd o) = false) (outcomes (run s)) ->
     done_after = done_before ∪ list_to_set (saved_codes (outcomes (run s)))) /\
    completed_so_far s = size done_after.
Proof.
  intros Hok Hmain.
  destruct (full_main_tracker p cfg df_cities w w' s Hmain) as [c Hget].
  destruct (full_main_batch_run p cfg df_cities w w' s c Hget Hmain)
    as (Hrun & _ & _ & done_after & Hget' & Hsize & _).
  destruct (full_batch_run_parts p cfg _ w w' _ Hrun Hok) as (parts & Hparts & Happ).
  destruct (get_completed_cities_appended w w' _ Hok Happ) as [Hb Ha].
  destruct (parts_codes cfg _ _ Hparts) as (Hsaved & Hcodes & _).
  rewrite Hget in Hb. injection Hb as ->.
  rewrite Hget' in Ha. injection Ha as ->.
  eexists _, _, parts. split; [exact Hget |]. split; [exact Hget' |].
  split.
  { eapply Forall2_impl; [exact Hparts |].
    intros o part [Hrows Ho]. split; [| done].
    eapply Forall_impl; [exact Hrows |]. intros l Hl.
    by eapply data_row_code. }
  split; [by apply appended_table_rows |].
  split; [done |].
  assert (Hsub : list_to_set (column 7 (concat parts)) ⊆@{gset cell}
                 list_to_set (saved_codes (outcomes (run s)))
                   ∪ list_to_set (Full.critical_codes (outcomes (run s)))).
  { intros x Hx%elem_of_list_to_set. apply elem_of_union.
    rewrite !elem_of_list_to_set. by apply Hcodes. }
  assert (Hsup : list_to_set (saved_codes (outcomes (run s))) ⊆@{gset cell}
                 list_to_set (column 7 (concat parts))).
  { intros x Hx%elem_of_list_to_set. apply elem_of_list_to_set. by apply Hsaved. }
  split; [by apply union_mono_l |].
  split; [rewrite <- (assoc_L (∪)); by apply union_mono_l |].
  split; [| done].
  intros Hnc.
  assert (Hnil : Full.critical_codes (outcomes (run s)) = []).
  { unfold Full.critical_codes.
    replace (filter _ (outcomes (run s))) with (@nil (city * city_outcome)); [done |].
    symmetry. clear -Hnc.
    induction Hnc as [| o os Ho _ IH]; [done |].
    rewrite filter_cons_False by (rewrite Ho; done). exact IH. }
  rewrite Hnil, list_to_set_nil, (right_id_L ∅ (∪)) in Hsub.
  apply set_eq. intros x. rewrite !elem_of_union.
  split; (intros [Hx | Hx]; [by left | right]); [by apply Hsub | by apply Hsup].
Qed.

Lemma completed_after_run_witness :
  exists (s : summary) (w' : world),
    Full.main (Full.fills_up silent) (one_keyword 2) [city_a; city_b; city_c] fresh =
      (Ok s, w') /\
    exists (done_before done_after : gset cell) (parts : list (list line)),
      get_completed_cities fresh = (Ok done_before, fresh) /\
      get_completed_cities w' = (Ok done_after, w') /\
      Forall2 (fun o part =>
                 Forall (fun l : line => l !! 7%nat = Some (CStr (geo_code (fst o)))) part /\
                 match snd o with
                 | Saved n => n = length part /\ part <> []
                 | NoData => part = []
                 | CriticalFailure _ => True
                 end) (outcomes (run s)) parts /\
      table_rows (fs w') = table_rows (fs fresh) ++ concat parts /\
      done_after = done_before ∪ list_to_set (column 7 (concat parts)) /\
      done_before ∪ list_to_set (saved_codes (outcomes (run s))) ⊆ done_after /\
      done_after ⊆ done_before ∪ list_to_set (saved_codes (outcomes (run s)))
                     ∪ list_to_set (Full.critical_codes (outcomes (run s))) /\
      (Forall (fun o => is_critical (snd o) = false) (outcomes (run s)) ->
       done_after = done_before ∪ list_to_set (saved_codes (outcomes (run s)))) /\
      completed_so_far s = size done_after.
Proof.
  eexists _, _. split; [vm_compute; reflexivity |].
  apply (completed_after_run (Full.fills_up silent) (one_keyword 2)
           [city_a; city_b; city_c] fresh).
  - exact I.
  - vm_compute. reflexivity.
Defined.



(** In a checkpoint of whole rows every row has a code: reading the column
    [geo_code] yields one cell per row. *)
Lemma column_of_whole_rows (rows : list line) :
  Forall (fun l : line => length l = length cols) rows ->
  length (column 7 rows) = length rows.
Proof.
  induction 1 as [| l rows Hl _ IH]; [done |].
  unfold column in *. cbn [omap list_omap].
  destruct (l !! 7%nat) eqn:H7; cbn.
  - by rewrite IH.
  - apply lookup_ge_None in H7. rewrite Hl in H7. cbn in H7. lia.
Qed.

(** X14. The count of remaining cities that the summary reports is the
    number of catalog cities minus the number of completed codes.  Over a
    checkpoint of whole rows that the driver wrote itself, where every row
    has its code, and also when a write fails (before the file is opened, or
    between two lines), it is the number of cities that really remain when
    the codes of the catalog are unique and the checkpoint holds no code
    from outside the catalog. *)
Theorem reported_remaining_is_exact (p : Full.platform) (cfg : config)
    (df_cities : list city) (w w' : world) (s : summary) :
  Full.written_by_driver (fs w) ->
  NoDup (map geo_code df_cities) ->
  Forall (fun c => c ∈ catalog_codes df_cities) (column 7 (table_rows (fs w))) ->
  Full.main p cfg df_cities w = (Ok s, w') ->
  exists done_after : gset cell,
    get_completed_cities w' = (Ok done_after, w') /\
    done_after = list_to_set (column 7 (table_rows (fs w'))) /\
    length (column 7 (table_rows (fs w'))) = length (table_rows (fs w')) /\
    remaining s = Z.of_nat (length df_cities) - Z.of_nat (size done_after) /\
    remaining s = Z.of_nat (length (remaining_cities df_cities done_after)) /\
    completed_so_far s = size done_after.
Proof.
  intros Hok Hnd Hcodes Hmain.
  destruct (full_main_tracker p cfg df_cities w w' s Hmain) as [c Hget].
  destruct (full_main_batch_run p cfg df_cities w w' s c Hget Hmain)
    as (Hrun & _ & _ & done_after & Hget' & Hsize & Hrem).
  destruct (full_batch_run_parts p cfg _ w w' _ Hrun Hok) as (parts & Hparts & Happ).
  destruct (get_completed_cities_appended w w' _ Hok Happ) as [_ Ha].
  destruct (parts_codes cfg _ _ Hparts) as (_ & _ & Hfrom).
  destruct (full_batch_run_attempted p cfg _ w w' _ Hrun) as [Hatt _].
  rewrite Hget' in Ha. injection Ha as ->.
  pose proof (appended_table_rows _ _ _ Happ) as Hrows.
  assert (Hwidth : Forall (fun l : line => length l = length cols)
                     (table_rows (fs w'))).
  { rewrite Hrows. apply Forall_app. split.
    - destruct (fs w) as [[| | first rest] |]; cbn in Hok |- *; try done.
      by destruct Hok.
    - apply Forall_concat. clear -Hparts.
      induction Hparts as [| o part os parts [Hp _] _ IH]; constructor; [| done].
      eapply Forall_impl; [exact Hp |]. intros l Hl. by eapply data_row_width. }
  eexists. split; [exact Hget' |].
  split; [by rewrite Hrows, column_app, list_to_set_app_L |].
  split; [by apply column_of_whole_rows |].
  split; [done |]. split; [| done].
  rewrite Hrem.
  rewrite <- (remaining_count df_cities
                (list_to_set (column 7 (table_rows (fs w))) ∪
                 list_to_set (column 7 (concat parts)))); [lia | done |].
  intros x. rewrite elem_of_union, !elem_of_list_to_set. intros [Hx | Hx].
  - rewrite Forall_forall in Hcodes. by apply Hcodes.
  - destruct (Hfrom x Hx) as (o & Ho & ->).
    unfold catalog_codes. apply list_elem_of_fmap. exists (fst o). split; [done |].
    assert (Hin : fst o ∈ map fst (outcomes (run s)))
      by (apply list_elem_of_fmap; eauto).
    rewrite Hatt in Hin. unfold cities_to_process, head, remaining_cities in Hin.
    apply list_elem_of_lookup_1 in Hin as [i Hin].
    apply lookup_take_Some in Hin as [Hin _].
    apply lookup_take_Some in Hin as [Hin _].
    apply list_elem_of_lookup_2 in Hin.
    by apply list_elem_of_filter in Hin as [_ Hin].
Qed.

Lemma reported_remaining_is_exact_witness :
  exists (s : summary) (w' : world),
    Full.main (Full.fills_up silent) (one_keyword 2) [city_a; city_b; city_c] fresh =
      (Ok s, w') /\
    exists done_after : gset cell,
      get_completed_cities w' = (Ok done_after, w') /\
      done_after = list_to_set (column 7 (table_rows (fs w'))) /\
      length (column 7 (table_rows (fs w'))) = length (table_rows (fs w')) /\
      remaining s = Z.of_nat 3 - Z.of_nat (size done_after) /\
      remaining s =
        Z.of_nat (length (remaining_cities [city_a; city_b; city_c] done_after)) /\
      completed_so_far s = size done_after.
Proof.
  eexists _, _. split; [vm_compute; reflexivity |].
  apply (reported_remaining_is_exact (Full.fills_up silent) (one_keyword 2)
           [city_a; city_b; city_c] fresh).
  - exact I.
  - apply (bool_decide_unpack _). vm_compute. reflexivity.
  - constructor.
  - vm_compute. reflexivity.
Defined.

(** * Daily weather: what the fetching code guarantees *)

Section WeatherFacts.

Import Weather.
Local Open Scope weather_scope.

Lemma weather_bind_Ok {A B} (m : M A) (k : A -> M B) (h h' : history) (b : B) :
  bind m k h = (Ok b, h') ->
  exists a h1, m h = (Ok a, h1) /\ k a h1 = (Ok b, h').
Proof.
  unfold bind. destruct (m h) as [[a | e] h1]; [eauto | done].
Qed.

Lemma effect_free_ret {A} (a : A) : effect_free (ret a).
Proof. done. Qed.

Lemma effect_free_raise {A} (e : exn) : effect_free (@raise A e).
Proof. done. Qed.

Lemma effect_free_bind {A B} (m : M A) (k : A -> M B) :
  effect_free m -> (forall a, effect_free (k a)) -> effect_free (bind m k).
Proof.
  intros Hm Hk h. unfold bind. specialize (Hm h).
  destruct (m h) as [[a | e] h1]; cbn in Hm; subst; [apply Hk | done].
Qed.

Lemma effect_free_getitem (r : row) (label : string) :
  effect_free (getitem r label).
Proof. unfold getitem. by destruct (r !! label). Qed.

Lemma effect_free_dict_get (d : json) (key : string) (dflt : json) :
  effect_free (dict_get d key dflt).
Proof. by destruct d. Qed.

Lemma effect_free_iter (x : json) : effect_free (iter x).
Proof. by destruct x. Qed.

Lemma effect_free_zip (a b c d e : json) : effect_free (zip a b c d e).
Proof.
  unfold zip. repeat (apply effect_free_bind; [apply effect_free_iter | intros ?]).
  apply effect_free_ret.
Qed.

Lemma effect_free_raise_for_status (response : Z * option json) :
  effect_free (raise_for_status response).
Proof. unfold raise_for_status. by destruct (_ && _). Qed.

Lemma effect_free_response_json (response : Z * option json) :
  effect_free (response_json response).
Proof. unfold response_json. by destruct (snd response). Qed.

(** The part of the [try] block that follows the request. *)
Local Abbreviation read_reply r response :=
  (raise_for_status response ;;;
   data <- response_json response ;;
   daily_data <- dict_get data "daily" (JObj []) ;;
   dates <- dict_get daily_data "time" (JArr []) ;;
   means <- dict_get daily_data "temperature_2m_mean" (JArr []) ;;
   maxs <- dict_get daily_data "temperature_2m_max" (JArr []) ;;
   mins <- dict_get daily_data "temperature_2m_min" (JArr []) ;;
   precips <- dict_get daily_data "precipitation_sum" (JArr []) ;;
   days <- zip dates means maxs mins precips ;;
   ret (map (entry_of r) days)).

Lemma effect_free_read_reply (r : row) (response : Z * option json) :
  effect_free (read_reply r response).
Proof.
  apply effect_free_bind; [apply effect_free_raise_for_status | intros _].
  apply effect_free_bind; [apply effect_free_response_json | intros data].
  repeat (apply effect_free_bind; [apply effect_free_dict_get | intros ?]).
  apply effect_free_bind; [apply effect_free_zip | intros ?].
  apply effect_free_ret.
Qed.

Lemma read_reply_entries (r : row) (response : Z * option json)
    (h h' : history) (results : list entry) :
  read_reply r response h = (Ok results, h') ->
  exists days, results = map (entry_of r) days.
Proof.
  intros H.
  repeat (apply weather_bind_Ok in H as (? & ? & _ & H)).
  injection H as <- _. eauto.
Qed.

(** The [except] branch, once the request has been logged. *)
Local Abbreviation handled r h lat lon e :=
  (match r !! "location_name" with
   | Some name => (Ok [], h ++ [EvGet lat lon; EvErrorFetching name e])
   | None => (Raise (KeyError "location_name"), h ++ [EvGet lat lon])
   end).

Lemma get_historical_weather_unfold (env : environment) (r : row)
    (lat lon : json) (h : history) :
  r !! "latitude" = Some lat ->
  r !! "longitude" = Some lon ->
  get_historical_weather env r h =
    match env h lat lon with
    | NoReply msg => handled r h lat lon (RequestException msg)
    | Reply status_code body =>
      match fst (read_reply r (status_code, body) (h ++ [EvGet lat lon])) with
      | Ok results => (Ok results, h ++ [EvGet lat lon])
      | Raise e => handled r h lat lon e
      end
    end.
Proof.
  intros Hlat Hlon.
  unfold get_historical_weather, getitem. rewrite Hlat, Hlon.
  unfold bind at 1. unfold ret at 1. unfold bind at 1. unfold ret at 1.
  unfold bind at 1, try_. unfold bind at 1, requests_get.
  destruct (env h lat lon) as [msg | status_code body].
  - destruct (r !! "location_name"); [| done].
    unfold bind, ret, emit. by rewrite <- (assoc_L (++)).
  - pose proof (effect_free_read_reply r (status_code, body) (h ++ [EvGet lat lon])) as Hfree.
    destruct (read_reply r (status_code, body) (h ++ [EvGet lat lon]))
      as [[results | e] h1]; cbn in Hfree; subst h1; cbn [fst].
    + done.
    + destruct (r !! "location_name"); [| done].
      unfold bind, ret, emit. by rewrite <- (assoc_L (++)).
Qed.

Lemma entry_of_extends_row (r : row) (x : day) : extends_row r (entry_of r x).
Proof.
  destruct x as [[[[date mean_t] max_t] min_t] precip]. split.
  - unfold weather_keys, entry_of.
    repeat (apply Forall_cons_2;
            [cbv beta; repeat (rewrite lookup_insert_ne by done);
             rewrite lookup_insert_eq; eauto |]).
    apply Forall_nil_2.
  - intros k Hk. unfold entry_of.
    rewrite !lookup_insert_ne; [done | | | | |];
      intros <-; apply Hk; unfold weather_keys; set_solver.
Qed.

Lemma requests_app (a b : list event) :
  requests (a ++ b) = (requests a + requests b)%nat.
Proof. unfold requests. by rewrite filter_app, length_app. Qed.

Lemma sleeps_app (a b : list event) :
  sleeps (a ++ b) = (sleeps a + sleeps b)%nat.
Proof. unfold sleeps. by rewrite filter_app, length_app. Qed.

Lemma error_messages_app (a b : list event) :
  error_messages (a ++ b) = (error_messages a + error_messages b)%nat.
Proof. unfold error_messages. by rewrite filter_app, length_app. Qed.

(** One call: a list comes back after one request; an error message goes
    with an empty list. *)
Lemma get_historical_weather_cases (env : environment) (r : row) (h : history) :
  has_labels r ->
  exists (entries : list entry) (evs : list event),
    get_historical_weather env r h = (Ok entries, h ++ evs) /\
    requests evs = 1%nat /\
    sleeps evs = 0%nat /\
    (error_messages evs = 0%nat \/ (error_messages evs = 1%nat /\ entries = [])) /\
    Forall (extends_row r) entries.
Proof.
  intros ([lat Hlat] & [lon Hlon] & [name Hname]).
  rewrite (get_historical_weather_unfold env r lat lon h Hlat Hlon), Hname.
  destruct (env h lat lon) as [msg | status_code body].
  - eexists [], _. split; [done |]. repeat split; try done. right. done.
  - destruct (read_reply r (status_code, body) (h ++ [EvGet lat lon]))
      as [[results | e] h1] eqn:Hread; cbn [fst].
    + apply read_reply_entries in Hread as [days ->].
      eexists _, _. split; [done |]. repeat split; try done; [by left |].
      apply Forall_fmap, Forall_forall. intros x _.
      apply entry_of_extends_row.
    + eexists [], _. split; [done |]. repeat split; try done. right. done.
Qed.

(** X18. [get_historical_weather] contains every failure of the request
    and of the reading of the reply: for a row that has the labels it reads,
    it returns a list whatever the reply of the service is, after exactly
    one request and no retry; when it prints an error message the list is empty; and
    every entry it returns is the row with the five weather keys set. *)
Theorem weather_errors_are_contained (env : environment) (r : row) (h : history) :
  has_labels r ->
  exists (entries : list entry) (evs : list event),
    get_historical_weather env r h = (Ok entries, h ++ evs) /\
    requests evs = 1%nat /\
    sleeps evs = 0%nat /\
    (error_messages evs = 0%nat \/ (error_messages evs = 1%nat /\ entries = [])) /\
    Forall (extends_row r) entries.
Proof.
  intros ([lat Hlat] & [lon Hlon] & [name Hname]).
  rewrite (get_historical_weather_unfold env r lat lon h Hlat Hlon), Hname.
  destruct (env h lat lon) as [msg | status_code body].
  - exists [], [EvGet lat lon; EvErrorFetching name (RequestException msg)].
    repeat split; try done. by right.
  - destruct (read_reply r (status_code, body) (h ++ [EvGet lat lon]))
      as [[results | e] h1] eqn:Hread; cbn [fst].
    + apply read_reply_entries in Hread as [days ->].
      exists (map (entry_of r) days), [EvGet lat lon].
      repeat split; try done; [by left |].
      apply Forall_fmap, Forall_forall. intros x _.
      apply entry_of_extends_row.
    + exists [], [EvGet lat lon; EvErrorFetching name e].
      repeat split; try done. by right.
Qed.

Lemma weather_errors_are_contained_witness :
  has_labels austin /\
  exists (entries : list entry) (evs : list event),
    get_historical_weather down_at_first austin [] = (Ok entries, [] ++ evs) /\
    requests evs = 1%nat /\
    sleeps evs = 0%nat /\
    (error_messages evs = 0%nat \/ (error_messages evs = 1%nat /\ entries = [])) /\
    Forall (extends_row austin) entries.
Proof.
  assert (H : has_labels austin) by (repeat split; by eexists).
  split; [exact H |].
  exact (weather_errors_are_contained down_at_first austin [] H).
Defined.

(** X19. The one way out of [get_historical_weather] by an exception is a
    label the row does not have: the coordinates, read before the [try]
    (then no request is made), or the name of the place, read by the handler
    while it reports another failure. *)
Theorem weather_raises_only_for_a_missing_label (env : environment) (r : row)
    (h h' : history) (e : exn) :
  get_historical_weather env r h = (Raise e, h') ->
  (e = KeyError "latitude" /\ r !! "latitude" = None /\ h' = h) \/
  (e = KeyError "longitude" /\ r !! "longitude" = None /\ h' = h) \/
  (e = KeyError "location_name" /\ r !! "location_name" = None /\
   exists lat lon, h' = h ++ [EvGet lat lon]).
Proof.
  intros Hrun.
  destruct (r !! "latitude") as [lat |] eqn:Hlat; cycle 1.
  { left. unfold get_historical_weather, getitem in Hrun. rewrite Hlat in Hrun.
    by injection Hrun as <- <-. }
  destruct (r !! "longitude") as [lon |] eqn:Hlon; cycle 1.
  { right. left. unfold get_historical_weather, getitem in Hrun.
    rewrite Hlat, Hlon in Hrun. by injection Hrun as <- <-. }
  right. right.
  rewrite (get_historical_weather_unfold env r lat lon h Hlat Hlon) in Hrun.
  destruct (r !! "location_name") as [name |].
  - destruct (env h lat lon) as [msg | status_code body]; [done |].
    by destruct (fst (read_reply r (status_code, body) (h ++ [EvGet lat lon]))).
  - destruct (env h lat lon) as [msg | status_code body].
    + injection Hrun as <- <-. eauto.
    + destruct (fst (read_reply r (status_code, body) (h ++ [EvGet lat lon])));
        [done |].
      injection Hrun as <- <-. eauto.
Qed.

Lemma weather_raises_only_for_a_missing_label_witness :
  (KeyError "location_name" = KeyError "latitude" /\ unnamed !! "latitude" = None /\
   [EvGet (JNum (Q2Qc (30 # 1))) (JNum (Q2Qc (-97 # 1)))] = []) \/
  (KeyError "location_name" = KeyError "longitude" /\ unnamed !! "longitude" = None /\
   [EvGet (JNum (Q2Qc (30 # 1))) (JNum (Q2Qc (-97 # 1)))] = []) \/
  (KeyError "location_name" = KeyError "location_name" /\
   unnamed !! "location_name" = None /\
   exists lat lon,
     [EvGet (JNum (Q2Qc (30 # 1))) (JNum (Q2Qc (-97 # 1)))] = [] ++ [EvGet lat lon]).
Proof.
  apply (weather_raises_only_for_a_missing_label down unnamed []).
  vm_compute. reflexivity.
Defined.

Lemma length_zip_items (dates means maxs mins precips : list json) :
  length (zip_items dates means maxs mins precips) =
    (length dates `min` (length means `min` (length maxs `min`
       (length mins `min` length precips))))%nat.
Proof.
  revert means maxs mins precips.
  induction dates as [| d dates IH]; intros [| m means] [| x maxs] [| n mins]
    [| p precips]; cbn [zip_items length]; try lia.
  rewrite IH. lia.
Qed.

Lemma lookup_zip_items (dates means maxs mins precips : list json) (i : nat)
    (d m x n p : json) :
  zip_items dates means maxs mins precips !! i = Some (d, m, x, n, p) ->
  dates !! i = Some d /\ means !! i = Some m /\ maxs !! i = Some x /\
  mins !! i = Some n /\ precips !! i = Some p.
Proof.
  revert means maxs mins precips i.
  induction dates as [| d0 dates IH]; intros [| m0 means] [| x0 maxs] [| n0 mins]
    [| p0 precips] i; cbn [zip_items]; try done.
  destruct i as [| i]; cbn.
  - by intros [= -> -> -> -> ->].
  - apply IH.
Qed.

Lemma lookup_entry_of (r : row) (d m x n p : json) :
  let e := entry_of r (d, m, x, n, p) in
  e !! "date" = Some d /\ e !! "temp_mean" = Some m /\ e !! "temp_max" = Some x /\
  e !! "temp_min" = Some n /\ e !! "precip_sum" = Some p.
Proof.
  cbn. repeat split;
    repeat (rewrite lookup_insert_ne by done); by rewrite lookup_insert_eq.
Qed.

Lemma read_reply_series (r : row) (status_code : Z)
    (data daily : list (string * json)) (dates means maxs mins precips : list json)
    (h : history) :
  ~ (400 <= status_code < 600) ->
  default (JObj []) (member "daily" data) = JObj daily ->
  series daily "time" = JArr dates ->
  series daily "temperature_2m_mean" = JArr means ->
  series daily "temperature_2m_max" = JArr maxs ->
  series daily "temperature_2m_min" = JArr mins ->
  series daily "precipitation_sum" = JArr precips ->
  read_reply r (status_code, Some (JObj data)) h =
    (Ok (map (entry_of r) (zip_items dates means maxs mins precips)), h).
Proof.
  intros Hstatus Hdaily Ht Hmean Hmax Hmin Hp.
  unfold raise_for_status. cbn [fst].
  replace ((400 <=? status_code) && (status_code <? 600)) with false by lia.
  unfold bind at 1. unfold ret at 1. unfold bind at 1. unfold response_json at 1.
  cbn [snd]. unfold ret at 1. unfold bind at 1. unfold dict_get at 1.
  rewrite Hdaily. unfold ret at 1. unfold dict_get.
  fold (series daily "time"). fold (series daily "temperature_2m_mean").
  fold (series daily "temperature_2m_max"). fold (series daily "temperature_2m_min").
  fold (series daily "precipitation_sum").
  rewrite Ht, Hmean, Hmax, Hmin, Hp. reflexivity.
Qed.

(** X20. From a reply that is read without error the entries are built day
    by day: the i-th entry is the row with the i-th date, mean, maximum,
    minimum and precipitation, every other key as in the row; there are as
    many entries as the shortest of the five series has items, a series that
    is missing counting as empty, so that a reply without one of them gives
    no entry at all; and no error message is printed. *)
Theorem weather_entries_of_a_reply (env : environment) (r : row) (h : history)
    (lat lon : json) (status_code : Z) (data daily : list (string * json))
    (dates means maxs mins precips : list json) :
  r !! "latitude" = Some lat ->
  r !! "longitude" = Some lon ->
  env h lat lon = Reply status_code (Some (JObj data)) ->
  ~ (400 <= status_code < 600) ->
  default (JObj []) (member "daily" data) = JObj daily ->
  series daily "time" = JArr dates ->
  series daily "temperature_2m_mean" = JArr means ->
  series daily "temperature_2m_max" = JArr maxs ->
  series daily "temperature_2m_min" = JArr mins ->
  series daily "precipitation_sum" = JArr precips ->
  exists entries : list entry,
    get_historical_weather env r h = (Ok entries, h ++ [EvGet lat lon]) /\
    length entries =
      (length dates `min` (length means `min` (length maxs `min`
         (length mins `min` length precips))))%nat /\
    forall (i : nat) (e : entry),
      entries !! i = Some e ->
      e !! "date" = dates !! i /\ e !! "temp_mean" = means !! i /\
      e !! "temp_max" = maxs !! i /\ e !! "temp_min" = mins !! i /\
      e !! "precip_sum" = precips !! i /\
      forall k, k ∉ weather_keys -> e !! k = r !! k.
Proof.
  intros Hlat Hlon Henv Hstatus Hdaily Ht Hmean Hmax Hmin Hp.
  eexists. split; [| split].
  - rewrite (get_historical_weather_unfold env r lat lon h Hlat Hlon), Henv.
    by rewrite (read_reply_series r status_code data daily dates means maxs mins
                  precips _ Hstatus Hdaily Ht Hmean Hmax Hmin Hp).
  - by rewrite length_map, length_zip_items.
  - intros i e Hi.
    apply list_lookup_fmap_Some in Hi as ([[[[d m] x] n] p] & -> & Hi).
    apply lookup_zip_items in Hi as (-> & -> & -> & -> & ->).
    pose proof (lookup_entry_of r d m x n p) as (? & ? & ? & ? & ?).
    repeat split; try done.
    apply (entry_of_extends_row r (d, m, x, n, p)).
Qed.

Lemma weather_entries_of_a_reply_witness :
  exists entries : list entry,
    get_historical_weather archive austin [] =
      (Ok entries, [] ++ [EvGet (JNum (Q2Qc (30 # 1))) (JNum (Q2Qc (-97 # 1)))]) /\
    length entries =
      (length [JStr "2023-01-01"; JStr "2023-01-02"] `min`
       (length [JNum (Q2Qc (11 # 1)); JNum (Q2Qc (12 # 1))] `min`
        (length [JNum (Q2Qc (15 # 1)); JNum (Q2Qc (16 # 1))] `min`
         (length [JNum (Q2Qc (7 # 1)); JNull] `min`
          length [JNum (Q2Qc (0 # 1)); JNum (Q2Qc (3 # 1))]))))%nat /\
    forall (i : nat) (e : entry),
      entries !! i = Some e ->
      e !! "date" = [JStr "2023-01-01"; JStr "2023-01-02"] !! i /\
      e !! "temp_mean" = [JNum (Q2Qc (11 # 1)); JNum (Q2Qc (12 # 1))] !! i /\
      e !! "temp_max" = [JNum (Q2Qc (15 # 1)); JNum (Q2Qc (16 # 1))] !! i /\
      e !! "temp_min" = [JNum (Q2Qc (7 # 1)); JNull] !! i /\
      e !! "precip_sum" = [JNum (Q2Qc (0 # 1)); JNum (Q2Qc (3 # 1))] !! i /\
      forall k, k ∉ weather_keys -> e !! k = austin !! k.
Proof.
  apply (weather_entries_of_a_reply archive austin [] _ _ 200
           [("latitude", JNum (Q2Qc (30 # 1)));
            ("daily", JObj [("time", JArr [JStr "2023-01-01"; JStr "2023-01-02"]);
                            ("temperature_2m_mean", JArr [JNum (Q2Qc (11 # 1)); JNum (Q2Qc (12 # 1))]);
                            ("temperature_2m_max", JArr [JNum (Q2Qc (15 # 1)); JNum (Q2Qc (16 # 1))]);
                            ("temperature_2m_min", JArr [JNum (Q2Qc (7 # 1)); JNull]);
                            ("precipitation_sum", JArr [JNum (Q2Qc (0 # 1)); JNum (Q2Qc (3 # 1))])])]
           [("time", JArr [JStr "2023-01-01"; JStr "2023-01-02"]);
            ("temperature_2m_mean", JArr [JNum (Q2Qc (11 # 1)); JNum (Q2Qc (12 # 1))]);
            ("temperature_2m_max", JArr [JNum (Q2Qc (15 # 1)); JNum (Q2Qc (16 # 1))]);
            ("temperature_2m_min", JArr [JNum (Q2Qc (7 # 1)); JNull]);
            ("precipitation_sum", JArr [JNum (Q2Qc (0 # 1)); JNum (Q2Qc (3 # 1))])]);
    try reflexivity.
  lia.
Defined.

Lemma read_reply_readable (r : row) (status_code : Z) (body : option json)
    (h : history) :
  match fst (read_reply r (status_code, body) h) with
  | Ok _ => readable (Reply status_code body) = true
  | Raise _ => readable (Reply status_code body) = false
  end.
Proof.
  unfold raise_for_status, readable. cbn [fst].
  destruct ((400 <=? status_code) && (status_code <? 600)).
  { unfold bind, raise. cbn. by destruct body as [[] |]. }
  unfold bind at 1. unfold ret at 1. unfold bind at 1, response_json. cbn [snd].
  destruct body as [data |]; [| done]. unfold ret at 1.
  destruct data as [| | | | | data]; try done.
  unfold bind at 1, dict_get at 1. unfold ret at 1.
  destruct (default (JObj []) (member "daily" data)) as [| | | | | daily];
    try done.
  unfold dict_get. fold (series daily "time").
  fold (series daily "temperature_2m_mean").
  fold (series daily "temperature_2m_max").
  fold (series daily "temperature_2m_min").
  fold (series daily "precipitation_sum").
  unfold series_keys, zip. cbn [forallb negb andb].
  unfold bind at 1 2 3 4 5. unfold ret at 1 2 3 4 5.
  destruct (series daily "time"); cbn; try done;
    destruct (series daily "temperature_2m_mean"); cbn; try done;
    destruct (series daily "temperature_2m_max"); cbn; try done;
    destruct (series daily "temperature_2m_min"); cbn; try done;
    destruct (series daily "precipitation_sum"); cbn; done.
Qed.

Lemma get_historical_weather_readable (env : environment) (r : row)
    (lat lon name : json) (h : history) :
  r !! "latitude" = Some lat ->
  r !! "longitude" = Some lon ->
  r !! "location_name" = Some name ->
  if readable (env h lat lon)
  then exists entries, get_historical_weather env r h = (Ok entries, h ++ [EvGet lat lon])
  else exists e, get_historical_weather env r h =
                   (Ok [], h ++ [EvGet lat lon; EvErrorFetching name e]).
Proof.
  intros Hlat Hlon Hname.
  rewrite (get_historical_weather_unfold env r lat lon h Hlat Hlon), Hname.
  destruct (env h lat lon) as [msg | status_code body]; [cbn; eauto |].
  pose proof (read_reply_readable r status_code body (h ++ [EvGet lat lon])) as H.
  destruct (fst (read_reply r (status_code, body) (h ++ [EvGet lat lon])));
    rewrite H; eauto.
Qed.

(** X21. An error message is printed for a place exactly when the reply
    cannot be read through: there is no response, the status is an error,
    the body is not a JSON object, [daily] is there but is no object, or one
    of the five series is there but cannot be iterated.  Everything else,
    such as a reply without [daily] or with a series missing or cut short,
    passes without a message. *)
Theorem error_message_iff_unreadable (env : environment) (r : row)
    (lat lon name : json) (h : history) :
  r !! "latitude" = Some lat ->
  r !! "longitude" = Some lon ->
  r !! "location_name" = Some name ->
  exists (entries : list entry) (evs : list event),
    get_historical_weather env r h = (Ok entries, h ++ evs) /\
    error_messages evs = (if readable (env h lat lon) then 0 else 1)%nat.
Proof.
  intros Hlat Hlon Hname.
  pose proof (get_historical_weather_readable env r lat lon name h Hlat Hlon Hname) as H.
  destruct (readable (env h lat lon)).
  - destruct H as [entries ->]. by eexists _, _.
  - destruct H as [e ->]. by eexists _, _.
Qed.

Lemma error_message_iff_unreadable_witness :
  exists (entries : list entry) (evs : list event),
    get_historical_weather no_daily austin [] = (Ok entries, [] ++ evs) /\
    error_messages evs =
      (if readable (no_daily [] (JNum (Q2Qc (30 # 1))) (JNum (Q2Qc (-97 # 1))))
       then 0 else 1)%nat.
Proof.
  apply (error_message_iff_unreadable no_daily austin _ _ (JStr "Austin") []);
    reflexivity.
Defined.

Lemma fetch_loop_cons (env : environment) (r : row) (df : list row)
    (acc : list entry) (name : json) (h : history) :
  r !! "location_name" = Some name ->
  fetch_loop env (r :: df) acc h =
    match get_historical_weather env r (h ++ [EvFetching name]) with
    | (Ok city_weather, h1) =>
      fetch_loop env df (acc ++ city_weather) (h1 ++ [EvSleep (Q2Qc (1 # 2))])
    | (Raise e, h1) => (Raise e, h1)
    end.
Proof.
  intros Hname. cbn [fetch_loop]. unfold getitem. rewrite Hname.
  unfold bind at 1. unfold ret at 1. unfold bind at 1, emit at 1.
  unfold bind at 1.
  destruct (get_historical_weather env r (h ++ [EvFetching name]))
    as [[city_weather | e] h1]; [| done].
  reflexivity.
Qed.

(** X22. The loop visits every row of the catalog, whatever happens to the
    others.  For a catalog whose rows have the labels that are read, it ends
    normally and its effects are one turn for each row, in order: the
    message that names the row, one request, no pause inside it, and the
    pause of half a second after it.  The list it builds is the entries of
    the first row, then those of the second, and so on, each entry carrying
    the columns of its own row.  A turn holds at most one error message,
    and the row of a turn that holds one brings no entry. *)
Theorem fetch_loop_visits_every_row (env : environment) (df : list row)
    (acc : list entry) (h : history) :
  Forall has_labels df ->
  exists turns : list (list entry * list event),
    fetch_loop env df acc h =
      (Ok (acc ++ concat (map fst turns)), h ++ concat (map snd turns)) /\
    Forall2 (fun r turn =>
               exists (name : json) (evs : list event),
                 r !! "location_name" = Some name /\
                 snd turn = [EvFetching name] ++ evs ++ [EvSleep (Q2Qc (1 # 2))] /\
                 requests evs = 1%nat /\
                 sleeps evs = 0%nat /\
                 (error_messages evs = 0%nat \/
                  (error_messages evs = 1%nat /\ fst turn = [])) /\
                 Forall (extends_row r) (fst turn)) df turns.
Proof.
  intros Hdf. revert acc h.
  induction Hdf as [| r df Hr Hdf IH]; intros acc h.
  - exists []. cbn. rewrite !app_nil_r. split; [done | constructor].
  - pose proof Hr as (_ & _ & [name Hname]).
    rewrite (fetch_loop_cons env r df acc name h Hname).
    destruct (get_historical_weather_cases env r (h ++ [EvFetching name]) Hr)
      as (part & evs1 & -> & Hreq & Hsleep & Herr & Hext).
    destruct (IH (acc ++ part)
                ((h ++ [EvFetching name]) ++ evs1 ++ [EvSleep (Q2Qc (1 # 2))]))
      as (turns & Hrun & Hturns).
    exists ((part, [EvFetching name] ++ evs1 ++ [EvSleep (Q2Qc (1 # 2))]) :: turns).
    split.
    { rewrite <- !(assoc_L (++)) in Hrun. rewrite <- !(assoc_L (++)).
      rewrite Hrun. cbn [concat map fst snd]. by rewrite <- ?(assoc_L (++)). }
    constructor; [| done]. exists name, evs1. by cbn [fst snd].
Qed.

Lemma fetch_loop_visits_every_row_witness :
  exists turns : list (list entry * list event),
    fetch_loop down_at_first [austin; boise] [] [] =
      (Ok ([] ++ concat (map fst turns)), [] ++ concat (map snd turns)) /\
    Forall2 (fun r turn =>
               exists (name : json) (evs : list event),
                 r !! "location_name" = Some name /\
                 snd turn = [EvFetching name] ++ evs ++ [EvSleep (Q2Qc (1 # 2))] /\
                 requests evs = 1%nat /\
                 sleeps evs = 0%nat /\
                 (error_messages evs = 0%nat \/
                  (error_messages evs = 1%nat /\ fst turn = [])) /\
                 Forall (extends_row r) (fst turn)) [austin; boise] turns.
Proof.
  apply (fetch_loop_visits_every_row down_at_first [austin; boise] [] []).
  repeat constructor; by eexists.
Defined.

Lemma failed_not_readable (rp : reply) : failed rp -> readable rp = false.
Proof.
  destruct rp as [msg | status_code body]; [done |].
  intros [H | ->]; [| done]. cbn.
  replace ((400 <=? status_code) && (status_code <? 600)) with true by lia.
  by destruct body as [[] |].
Qed.

Lemma fetch_loop_all_failed (env : environment) (df : list row)
    (acc : list entry) (h : history) :
  Forall has_labels df ->
  (forall h lat lon, failed (env h lat lon)) ->
  exists evs : list event,
    fetch_loop env df acc h = (Ok acc, h ++ evs) /\
    requests evs = length df /\
    error_messages evs = length df.
Proof.
  intros Hdf Hfailed. revert h.
  induction Hdf as [| r df Hr Hdf IH]; intros h.
  - exists []. cbn. by rewrite app_nil_r.
  - pose proof Hr as ([lat Hlat] & [lon Hlon] & [name Hname]).
    rewrite (fetch_loop_cons env r df acc name h Hname).
    pose proof (get_historical_weather_readable env r lat lon name
                  (h ++ [EvFetching name]) Hlat Hlon Hname) as H.
    rewrite (failed_not_readable _ (Hfailed _ _ _)) in H. destruct H as [e ->].
    rewrite app_nil_r.
    destruct (IH (((h ++ [EvFetching name]) ++
                     [EvGet lat lon; EvErrorFetching name e]) ++
                    [EvSleep (Q2Qc (1 # 2))])) as (evs & -> & Hreq & Herr).
    exists ([EvFetching name] ++ [EvGet lat lon; EvErrorFetching name e] ++
              [EvSleep (Q2Qc (1 # 2))] ++ evs).
    split; [by rewrite <- !(assoc_L (++)) |].
    rewrite !requests_app, !error_messages_app, Hreq, Herr.
    split; reflexivity.
Qed.

(** X23. When no request brings a reply that can be read (the service is
    unreachable, answers with error statuses, or sends no JSON), the run
    does not end with an empty table: after one request and one error
    message for each row of the catalog, the daily frame has no column and
    reading its date column raises [KeyError]. *)
Theorem no_weather_at_all_is_a_key_error (env : environment) (df : list row)
    (h : history) :
  Forall has_labels df ->
  (forall h lat lon, failed (env h lat lon)) ->
  exists evs : list event,
    daily_dates env df h = (Raise (KeyError "date"), h ++ evs) /\
    requests evs = length df /\
    error_messages evs = length df.
Proof.
  intros Hdf Hfailed.
  destruct (fetch_loop_all_failed env df [] h Hdf Hfailed) as (evs & Hrun & Hreq & Herr).
  exists evs. unfold daily_dates, bind. rewrite Hrun. by cbn.
Qed.

Lemma no_weather_at_all_is_a_key_error_witness :
  exists evs : list event,
    daily_dates down [austin; boise] [] = (Raise (KeyError "date"), [] ++ evs) /\
    requests evs = length [austin; boise] /\
    error_messages evs = length [austin; boise].
Proof.
  apply (no_weather_at_all_is_a_key_error down [austin; boise] []).
  - repeat constructor; by eexists.
  - intros h lat lon. cbn. lia.
Defined.

End WeatherFacts.

(** * The week of the year as a join key *)

Section WeekJoinFacts.

Import WeekJoin.

Lemma isoweek1monday_spec (y : Z) :
  (isoweek1monday y - 1) mod 7 = 0 /\
  days_before_year y - 2 <= isoweek1monday y <= days_before_year y + 4.
Proof.
  unfold isoweek1monday. rewrite CalendarFacts.jan1.
  destruct (Z.ltb_spec 3 ((days_before_year y + 1 + 6) mod 7));
    Z.div_mod_to_equations; lia.
Qed.

Lemma year_lengths (y : Z) :
  exists len_before len : Z,
    days_before_year y = days_before_year (y - 1) + len_before /\
    days_before_year (y + 1) = days_before_year y + len /\
    (len_before = 365 /\ is_leap (y - 1) = false \/
     len_before = 366 /\ is_leap (y - 1) = true) /\
    (len = 365 /\ is_leap y = false \/ len = 366 /\ is_leap y = true) /\
    (len_before = 365 \/ len = 365).
Proof.
  pose proof (CalendarFacts.year_length (y - 1)) as Hb.
  replace (y - 1 + 1) with y in Hb by lia.
  pose proof (CalendarFacts.year_length y) as Hl.
  exists (if is_leap (y - 1) then 366 else 365), (if is_leap y then 366 else 365).
  repeat split; try done.
  - destruct (is_leap (y - 1)); auto.
  - destruct (is_leap y); auto.
  - unfold is_leap.
    destruct (Z.eqb_spec ((y - 1) mod 4) 0), (Z.eqb_spec (y mod 4) 0);
      cbn [andb]; auto.
    exfalso. Z.div_mod_to_equations. lia.
Qed.

(** Weeks counted from the Monday of ordinal 1. *)
Local Abbreviation week_index d := ((d - 1) / 7).

Lemma week_index_bounds (d : date) :
  7 * week_index d <= d - 1 <= 7 * week_index d + 6.
Proof. Z.div_mod_to_equations. lia. Qed.

Lemma week_index_monday (y : Z) :
  isoweek1monday y = 7 * week_index (isoweek1monday y) + 1.
Proof.
  pose proof (isoweek1monday_spec y) as [H _].
  Z.div_mod_to_equations. lia.
Qed.

Lemma weeks_since_monday (y : Z) (d : date) :
  (d - isoweek1monday y) / 7 = week_index d - week_index (isoweek1monday y).
Proof.
  pose proof (isoweek1monday_spec y) as [H _].
  Z.div_mod_to_equations. lia.
Qed.

(** The week number, once the Mondays that start week 1 of the year, of
    the year before and of the year after are known. *)
Lemma isocalendar_week_cases (y : Z) (d : date) :
  let w := week_index d in
  let w1 := week_index (isoweek1monday y) in
  (w < w1 /\
   isocalendar_week y d = w - week_index (isoweek1monday (y - 1)) + 1) \/
  (w1 <= w /\ week_index (isoweek1monday (y + 1)) <= w /\ 52 <= w - w1 /\
   isocalendar_week y d = 1) \/
  (w1 <= w /\ (w < week_index (isoweek1monday (y + 1)) \/ w - w1 < 52) /\
   isocalendar_week y d = w - w1 + 1).
Proof.
  cbv zeta. unfold isocalendar_week. rewrite !weeks_since_monday.
  pose proof (week_index_bounds d).
  pose proof (week_index_monday (y + 1)).
  destruct (Z.ltb_spec (week_index d - week_index (isoweek1monday y)) 0).
  - left. split; [lia | done].
  - destruct (Z.leb_spec 52 (week_index d - week_index (isoweek1monday y))),
      (Z.leb_spec (isoweek1monday (y + 1)) d); cbn [andb].
    + right. left. repeat split; try lia.
    + right. right. repeat split; try lia.
    + right. right. repeat split; try lia.
    + right. right. repeat split; try lia.
Qed.

Ltac week_cases y d1 d2 :=
  pose proof (isoweek1monday_spec (y - 1)) as [_ ?];
  pose proof (isoweek1monday_spec y) as [_ ?];
  pose proof (isoweek1monday_spec (y + 1)) as [_ ?];
  pose proof (week_index_monday (y - 1));
  pose proof (week_index_monday y);
  pose proof (week_index_monday (y + 1));
  pose proof (week_index_bounds d1);
  pose proof (week_index_bounds d2);
  destruct (year_lengths y) as (len_before & len & ? & ? & ? & ? & ?);
  destruct (isocalendar_week_cases y d1) as [[? ->] | [(? & ? & ? & ->) | (? & ? & ->)]];
  destruct (isocalendar_week_cases y d2) as [[? ->] | [(? & ? & ? & ->) | (? & ? & ->)]];
  generalize dependent (week_index (isoweek1monday (y - 1)));
  generalize dependent (week_index (isoweek1monday y));
  generalize dependent (week_index (isoweek1monday (y + 1)));
  generalize dependent (isoweek1monday (y - 1));
  generalize dependent (isoweek1monday y);
  generalize dependent (isoweek1monday (y + 1));
  generalize dependent (week_index d1);
  generalize dependent (week_index d2);
  generalize dependent (days_before_year (y - 1));
  generalize dependent (days_before_year y);
  generalize dependent (days_before_year (y + 1));
  intros; lia.

(** X24. Within one calendar year the join key separates the weeks, but
    not the two ends of the year: two days from Monday to Sunday of one week
    always get the same key, and two days with the same key are either in
    such a week or at least 358 days apart, the first days of January with
    the last days of December. *)
Theorem join_key_same_week_or_year_ends (y : Z) (d1 d2 : date) :
  in_year y d1 ->
  in_year y d2 ->
  d1 <= d2 ->
  ((d1 - 1) / 7 = (d2 - 1) / 7 -> join_key y d1 = join_key y d2) /\
  (join_key y d1 = join_key y d2 ->
   (d1 - 1) / 7 = (d2 - 1) / 7 \/ 358 <= d2 - d1).
Proof.
  unfold in_year, join_key. intros Hd1 Hd2 Hle. split.
  - intros Hweek. f_equal. week_cases y d1 d2.
  - intros [= Hkey]. revert Hkey. week_cases y d1 d2.
Qed.

Lemma join_key_same_week_or_year_ends_witness :
  ((738156 - 1) / 7 = (738520 - 1) / 7 ->
   join_key 2022 738156 = join_key 2022 738520) /\
  (join_key 2022 738156 = join_key 2022 738520 ->
   (738156 - 1) / 7 = (738520 - 1) / 7 \/ 358 <= 738520 - 738156).
Proof.
  apply (join_key_same_week_or_year_ends 2022 738156 738520).
  - unfold in_year. vm_compute. split; [reflexivity | discriminate].
  - unfold in_year. vm_compute. split; [reflexivity | discriminate].
  - lia.
Defined.

Lemma iso_weekday_index (d : date) :
  d - 1 = 7 * week_index d + (iso_weekday d - 1) /\ 1 <= iso_weekday d <= 7.
Proof. unfold iso_weekday. Z.div_mod_to_equations. lia. Qed.

Lemma leap_year_lengths (y : Z) :
  exists len_before len : Z,
    days_before_year y = days_before_year (y - 1) + len_before /\
    days_before_year (y + 1) = days_before_year y + len /\
    365 <= len_before <= 366 /\ 365 <= len <= 366 /\
    (len_before = 365 \/ len = 365) /\
    (is_leap (y - 1) = false <-> len_before = 365) /\
    (is_leap y = false <-> len = 365).
Proof.
  destruct (year_lengths y) as (len_before & len & ? & ? & Hb & Hl & ?).
  exists len_before, len. repeat split; try lia;
    try (destruct Hb as [[-> ->] | [-> ->]]; done);
    try (destruct Hl as [[-> ->] | [-> ->]]; done).
Qed.

(** X25. The years in which the join key merges days of different weeks
    are those that begin on a Monday, Tuesday or Sunday, on a Wednesday
    unless they are leap years, or on a Saturday unless the year before was
    one; in the other years (those beginning on a Thursday or a Friday, leap
    years beginning on a Wednesday, years beginning on a Saturday after a
    leap year) every key of the year is one week. *)
Theorem join_key_merges_year_ends (y : Z) :
  let weekday := iso_weekday (ymd_to_ordinal y 1 1) in
  (exists d1 d2 : date,
     in_year y d1 /\ in_year y d2 /\ d1 + 7 <= d2 /\
     join_key y d1 = join_key y d2) <->
  (weekday = 1 \/ weekday = 2 \/ (weekday = 3 /\ is_leap y = false) \/
   (weekday = 6 /\ is_leap (y - 1) = false) \/ weekday = 7).
Proof.
  cbv zeta. rewrite CalendarFacts.jan1.
  destruct (leap_year_lengths y)
    as (len_before & len & Hb & Hl & ? & ? & ? & -> & ->).
  pose proof (iso_weekday_index (days_before_year y + 1)) as [Hwd ?].
  pose proof (isoweek1monday_spec (y - 1)) as [_ ?].
  pose proof (isoweek1monday_spec y) as [_ ?].
  pose proof (isoweek1monday_spec (y + 1)) as [_ ?].
  pose proof (week_index_monday (y - 1)).
  pose proof (week_index_monday y).
  pose proof (week_index_monday (y + 1)).
  unfold in_year, join_key. split.
  - intros (d1 & d2 & ? & ? & ? & [= Hkey]). revert Hkey.
    pose proof (week_index_bounds d1).
    pose proof (week_index_bounds d2).
    destruct (isocalendar_week_cases y d1)
      as [[? ->] | [(? & ? & ? & ->) | (? & ? & ->)]];
    destruct (isocalendar_week_cases y d2)
      as [[? ->] | [(? & ? & ? & ->) | (? & ? & ->)]];
    generalize dependent (week_index (days_before_year y + 1));
    generalize dependent (iso_weekday (days_before_year y + 1));
    generalize dependent (week_index (isoweek1monday (y - 1)));
    generalize dependent (week_index (isoweek1monday y));
    generalize dependent (week_index (isoweek1monday (y + 1)));
    generalize dependent (isoweek1monday (y - 1));
    generalize dependent (isoweek1monday y);
    generalize dependent (isoweek1monday (y + 1));
    generalize dependent (week_index d1);
    generalize dependent (week_index d2);
    generalize dependent (days_before_year (y - 1));
    generalize dependent (days_before_year y);
    generalize dependent (days_before_year (y + 1));
    intros; lia.
  - intros Hyear.
    set (d1 := days_before_year y + 1).
    assert (exists d2, d1 + 7 <= d2 /\ days_before_year y < d2 <= days_before_year (y + 1) /\
                       isocalendar_week y d1 = isocalendar_week y d2)
      as (d2 & ? & ? & Hweek).
    { destruct (Z.le_gt_cases (iso_weekday d1) 3);
        [exists (days_before_year (y + 1)) | exists (days_before_year (y + 1) - 1)];
        (split; [subst d1; lia |]); (split; [lia |]).
      - pose proof (week_index_bounds d1).
        pose proof (week_index_bounds (days_before_year (y + 1))).
        destruct (isocalendar_week_cases y d1)
          as [[? ->] | [(? & ? & ? & ->) | (? & ? & ->)]];
        destruct (isocalendar_week_cases y (days_before_year (y + 1)))
          as [[? ->] | [(? & ? & ? & ->) | (? & ? & ->)]];
        subst d1;
        generalize dependent (week_index (days_before_year y + 1));
        generalize dependent (iso_weekday (days_before_year y + 1));
        generalize dependent (week_index (isoweek1monday (y - 1)));
        generalize dependent (week_index (isoweek1monday y));
        generalize dependent (week_index (isoweek1monday (y + 1)));
        generalize dependent (isoweek1monday (y - 1));
        generalize dependent (isoweek1monday y);
        generalize dependent (isoweek1monday (y + 1));
        generalize dependent (week_index (days_before_year (y + 1)));
        generalize dependent (days_before_year (y - 1));
        generalize dependent (days_before_year y);
        generalize dependent (days_before_year (y + 1));
        intros; lia.
      - pose proof (week_index_bounds d1).
        pose proof (week_index_bounds (days_before_year (y + 1) - 1)).
        destruct (isocalendar_week_cases y d1)
          as [[? ->] | [(? & ? & ? & ->) | (? & ? & ->)]];
        destruct (isocalendar_week_cases y (days_before_year (y + 1) - 1))
          as [[? ->] | [(? & ? & ? & ->) | (? & ? & ->)]];
        subst d1;
        generalize dependent (week_index (days_before_year y + 1));
        generalize dependent (iso_weekday (days_before_year y + 1));
        generalize dependent (week_index (isoweek1monday (y - 1)));
        generalize dependent (week_index (isoweek1monday y));
        generalize dependent (week_index (isoweek1monday (y + 1)));
        generalize dependent (isoweek1monday (y - 1));
        generalize dependent (isoweek1monday y);
        generalize dependent (isoweek1monday (y + 1));
        generalize dependent (week_index (days_before_year (y + 1) - 1));
        generalize dependent (days_before_year (y - 1));
        generalize dependent (days_before_year y);
        generalize dependent (days_before_year (y + 1));
        intros; lia. }
    exists d1, d2. subst d1. repeat split; try lia. by rewrite Hweek.
Qed.

End WeekJoinFacts.
